(** * Chicago open-data analysis: the query layer, embedded and verified

    Shallow embedding of the analytical core of
    [chicago_bi_dashboard.py] (the two dataset loaders, the sidebar,
    the filters, the KPI, the two tabs and [main]) and of
    [chicago_data_analysis.py] (the report runner and its queries 8,
    9 and 10).

    Conventions.
    - A SQLite column is nullable: a cell is an [option]; [None] is NULL.
    - The non-NULL cells of the numeric columns are values of a type
      [num] on which the development is parametric (class
      [SqliteValue]): SQLite is dynamically typed, and the code only
      uses equality of such values, [CAST(x AS INTEGER)], their reading
      as a real number by [AVG] and their conversion by
      [pandas.to_numeric].  Instances: the integers, and the cells that
      hold an integer or a blank text.
    - A pandas float is a [float64]: [NaN] stands for a missing value,
      finite values are rationals (rounding is not modelled; the
      overflow of a sum to an infinity is).
    - A Python exception is a value of [exception]; a computation that
      may raise returns [exception + A] with the exception on the left.
*)

From Stdlib Require Import List ZArith QArith Qabs Bool Arith Lia Lqa.
From Stdlib Require Import String Ascii.
From Stdlib Require Import Permutation Sorted.
Import ListNotations.
Close Scope Q_scope.
Open Scope string_scope.
Open Scope list_scope.

Set Implicit Arguments.

(* ================================================================== *)
(** * Part I. Definitions                                               *)
(* ================================================================== *)

(** ** Values *)

(** pandas / numpy float64 column cell. *)
Inductive float64 : Type :=
| NaN
| NegInf
| Finite (q : Q)
| PosInf.

(** [Series.isna()] on one cell. *)
Definition isna (x : float64) : bool :=
  match x with NaN => true | _ => false end.

(** [x <= t] for a float cell and a Python int, as numpy evaluates it:
    a comparison with NaN is False. *)
Definition float_leb (x : float64) (t : Z) : bool :=
  match x with
  | NaN => false
  | NegInf => true
  | Finite q => Qle_bool q (inject_Z t)
  | PosInf => false
  end.

(** The mathematical order the comparison decides. *)
Definition float_le (x : float64) (t : Z) : Prop :=
  match x with
  | NaN => False
  | NegInf => True
  | Finite q => (q <= inject_Z t)%Q
  | PosInf => False
  end.

Definition float_gt (x : float64) (t : Z) : Prop :=
  match x with
  | NaN => False
  | NegInf => False
  | Finite q => (inject_Z t < q)%Q
  | PosInf => True
  end.

(** What the code needs of a non-NULL numeric SQLite value. *)
Class SqliteValue (num : Type) : Type := {
  (** value equality, as used by GROUP BY and [=] *)
  num_eq_dec : forall x y : num, {x = y} + {x <> y};
  (** [CAST(x AS INTEGER)] on a non-NULL value: always an integer *)
  CAST_INTEGER : num -> Z;
  (** the real number an aggregate such as AVG reads in the value *)
  REAL : num -> Q;
  (** [pandas.to_numeric(..., errors="coerce")] on one non-NULL cell *)
  to_numeric_cell : num -> float64
}.

(** Integer-valued cells: the instance used for concrete tables. *)
#[export] Instance Z_SqliteValue : SqliteValue Z := {
  num_eq_dec := Z.eq_dec;
  CAST_INTEGER := fun z => z;
  REAL := inject_Z;
  to_numeric_cell := fun z => Finite (inject_Z z)
}.

(** ** Exceptions *)

(** The Python exception classes that occur.  [sqlite3.OperationalError]
    derives from [sqlite3.Error]; [pandas.errors.DatabaseError] derives
    from [OSError] and [KeyError] from [LookupError]: neither is a
    [sqlite3.Error]; all derive from [Exception]. *)
Inductive exception_class : Type :=
| sqlite3_OperationalError
| pandas_DatabaseError
| KeyError.

Record exception : Type := {
  exc_class : exception_class;
  exc_msg : string
}.

(** [isinstance(e, sqlite3.Error)], the test of [except Error as e]. *)
Definition isinstance_sqlite3_Error (e : exception) : bool :=
  match exc_class e with
  | sqlite3_OperationalError => true
  | pandas_DatabaseError => false
  | KeyError => false
  end.

(** ** SQL building blocks *)

(** [COALESCE(x, d)]. *)
Definition COALESCE {A} (x : option A) (d : A) : A :=
  match x with Some v => v | None => d end.

(** [x IS NOT NULL]. *)
Definition IS_NOT_NULL {A} (x : option A) : bool :=
  match x with Some _ => true | None => false end.

(** [CAST(x AS INTEGER)]: NULL stays NULL. *)
Definition CAST_AS_INTEGER {num} `{SqliteValue num} (x : option num) : option Z :=
  option_map CAST_INTEGER x.

(** [x = y] as a join or filter condition: true only for two equal
    non-NULL values (a comparison with NULL is NULL, which does not
    select the row). *)
Definition sql_eqb (x y : option Z) : bool :=
  match x, y with
  | Some a, Some b => Z.eqb a b
  | _, _ => false
  end.

Definition is_space (c : ascii) : bool := Ascii.eqb c " "%char.

Fixpoint ltrim (s : string) : string :=
  match s with
  | String c s' => if is_space c then ltrim s' else s
  | EmptyString => EmptyString
  end.

Fixpoint rtrim (s : string) : string :=
  match s with
  | EmptyString => EmptyString
  | String c s' =>
      match rtrim s' with
      | EmptyString => if is_space c then EmptyString else String c EmptyString
      | t => String c t
      end
  end.

(** [TRIM(s)]: SQLite removes the spaces at both ends. *)
Definition TRIM (s : string) : string := rtrim (ltrim s).


(** [a LEFT JOIN b ON on]: every left row, with each matching right row,
    or once with a NULL right side when nothing matches. *)
Definition LEFT_JOIN {A B} (on : A -> B -> bool) (l : list A) (r : list B)
    : list (A * option B) :=
  flat_map (fun a =>
              match filter (on a) r with
              | [] => [(a, None)]
              | ms => map (fun b => (a, Some b)) ms
              end) l.

(** The distinct values of a list, in order of first occurrence. *)
Fixpoint distinct {K} (eq_dec : forall x y : K, {x = y} + {x <> y}) (l : list K) : list K :=
  match l with
  | [] => []
  | k :: l' => k :: filter (fun k' => if eq_dec k' k then false else true)
                           (distinct eq_dec l')
  end.

(** [GROUP BY key]: one group per distinct key (NULLs group together),
    holding the rows that carry it. *)
Definition GROUP_BY {A K} (eq_dec : forall x y : K, {x = y} + {x <> y})
    (key : A -> K) (l : list A) : list (K * list A) :=
  map (fun k => (k, filter (fun a => if eq_dec (key a) k then true else false) l))
      (distinct eq_dec (map key l)).

(** [COUNT(x)]: the number of non-NULL values. *)
Definition COUNT {A} (col : list (option A)) : nat :=
  List.length (filter IS_NOT_NULL col).

Fixpoint non_null {A} (col : list (option A)) : list A :=
  match col with
  | [] => []
  | Some v :: col' => v :: non_null col'
  | None :: col' => non_null col'
  end.

Definition Qsum (l : list Q) : Q := fold_right Qplus 0%Q l.

(** [AVG(x)]: the mean of the non-NULL values, NULL when there is none. *)
Definition AVG (col : list (option Q)) : option Q :=
  match non_null col with
  | [] => None
  | xs => Some (Qsum xs / inject_Z (Z.of_nat (List.length xs)))%Q
  end.

(** Sorting by a total preorder [leb]; equal elements keep their order. *)
Fixpoint insert_sorted {A} (leb : A -> A -> bool) (x : A) (l : list A) : list A :=
  match l with
  | [] => [x]
  | y :: l' => if leb x y then x :: y :: l' else y :: insert_sorted leb x l'
  end.

Definition sort_by {A} (leb : A -> A -> bool) (l : list A) : list A :=
  fold_right (insert_sorted leb) [] l.

(** Ascending order of a nullable integer column; SQLite puts NULL first. *)
Definition option_Z_leb (x y : option Z) : bool :=
  match x, y with
  | None, _ => true
  | Some _, None => false
  | Some a, Some b => Z.leb a b
  end.

(** ** Storage: the three base tables *)

Record census_row (num : Type) : Type := {
  c_COMMUNITY_AREA_NUMBER : option num;
  c_COMMUNITY_AREA_NAME : option string;
  c_HARDSHIP_INDEX : option num;
  c_PERCENT_HOUSEHOLDS_BELOW_POVERTY : option num;
  c_PER_CAPITA_INCOME : option num
}.

Record school_row (num : Type) : Type := {
  s_School_ID : option num;
  s_COMMUNITY_AREA_NUMBER : option num;
  s_SAFETY_SCORE : option num
}.

Record crime_row (num : Type) : Type := {
  cr_ID : option num;
  cr_CASE_NUMBER : option string;
  cr_PRIMARY_TYPE : option string;
  cr_DESCRIPTION : option string;
  cr_COMMUNITY_AREA_NUMBER : option num;
  cr_YEAR : option num
}.

(** The database file: a table is absent ([None]) or holds rows. *)
Record database (num : Type) : Type := {
  CENSUS_DATA : option (list (census_row num));
  CHICAGO_PUBLIC_SCHOOLS : option (list (school_row num));
  CHICAGO_CRIME_DATA : option (list (crime_row num))
}.

(** What [pd.read_sql_query] raises when the statement names a missing
    table: pandas wraps the driver's error in its own DatabaseError. *)
Definition no_such_table (table : string) : exception :=
  {| exc_class := pandas_DatabaseError;
     exc_msg := String.append "Execution failed on sql: no such table: " table |}.

(** A pandas DataFrame of rows of type [R]. [pd.DataFrame()] has no
    column at all; a query result has the columns of its SELECT list. *)
Inductive DataFrame (R : Type) : Type :=
| NoColumns
| Frame (rows : list R).
Arguments NoColumns {R}.

(** [df.empty]. *)
Definition empty {R} (df : DataFrame R) : bool :=
  match df with
  | NoColumns => true
  | Frame [] => true
  | Frame (_ :: _) => false
  end.

(** The enriched crime record (rows of [load_crime_dataset]) *)

Record crime_record (num : Type) : Type := {
  crime_id : option num;
  case_number : string;
  primary_type : string;
  description : string;
  community_area_number : option Z;
  community_area_name : string;
  per_capita_income : float64;
  poverty_rate : float64;
  hardship_index : float64;
  crime_year : option num
}.

(** ** The view builder ([chicago_bi_dashboard.py]) *)

(** [run_query]: the result of the statement, or [pd.DataFrame()] when
    [pd.read_sql_query] raises anything ([except Exception]); the error
    banner it shows belongs to the presentation layer.  A statement is
    given by its meaning on the database. *)
Definition run_query {num R} (query : database num -> exception + list R)
    (db : database num) : DataFrame R :=
  match query db with
  | inr rows => Frame rows
  | inl _ => NoColumns
  end.

(** [pd.to_numeric(col, errors="coerce")] on a cell read from SQLite. *)
Definition to_numeric {num} `{SqliteValue num} (x : option num) : float64 :=
  match x with
  | Some v => to_numeric_cell v
  | None => NaN
  end.

(** The same on a column SQLite computed as a real number (AVG). *)
Definition to_numeric_real (x : option Q) : float64 :=
  match x with
  | Some q => Finite q
  | None => NaN
  end.

(** *** [load_socioeducation_dataset] *)

(** A row of the SELECT list of the community query. *)
Record socio_selected (num : Type) : Type := {
  sel_community_area_number : option Z;
  sel_community_area_name : option string;
  sel_hardship_index : option num;
  sel_poverty_rate : option num;
  sel_avg_safety_score : option Q;
  sel_school_count : nat
}.

(** A row of the returned frame: the community aggregate. *)
Record socio_row : Type := {
  agg_community_area_number : option Z;
  agg_community_area_name : option string;
  agg_hardship_index : float64;
  agg_poverty_rate : float64;
  agg_avg_safety_score : float64;
  agg_school_count : nat
}.

(** The GROUP BY key:
    [CAST(c.COMMUNITY_AREA_NUMBER AS INTEGER), c.COMMUNITY_AREA_NAME,
     c.HARDSHIP_INDEX, c.PERCENT_HOUSEHOLDS_BELOW_POVERTY]. *)
Definition socio_key (num : Type) : Type :=
  (option Z * option string * option num * option num)%type.

Definition socio_key_eq_dec {num} `{SqliteValue num} (x y : socio_key num)
    : {x = y} + {x <> y}.
Proof.
  unfold socio_key in *.
  repeat decide equality; try apply num_eq_dec; try apply Z.eq_dec;
    try apply Ascii.ascii_dec; try apply Bool.bool_dec.
Defined.

Definition socio_on {num} `{SqliteValue num}
    (c : census_row num) (s : school_row num) : bool :=
  sql_eqb (CAST_AS_INTEGER (s_COMMUNITY_AREA_NUMBER s))
          (CAST_AS_INTEGER (c_COMMUNITY_AREA_NUMBER c)).

(** [WHERE c.COMMUNITY_AREA_NUMBER IS NOT NULL
      AND TRIM(COALESCE(c.COMMUNITY_AREA_NAME, '')) <> ''] *)
Definition socio_where {num} (c : census_row num) : bool :=
  IS_NOT_NULL (c_COMMUNITY_AREA_NUMBER c)
  && negb (String.eqb (TRIM (COALESCE (c_COMMUNITY_AREA_NAME c) "")) "").

(** The grouping expressions on a census row. *)
Definition census_key {num} `{SqliteValue num} (c : census_row num) : socio_key num :=
  (CAST_AS_INTEGER (c_COMMUNITY_AREA_NUMBER c),
   c_COMMUNITY_AREA_NAME c,
   c_HARDSHIP_INDEX c,
   c_PERCENT_HOUSEHOLDS_BELOW_POVERTY c).

Definition socio_group_key {num} `{SqliteValue num}
    (j : census_row num * option (school_row num)) : socio_key num :=
  census_key (fst j).

(** The columns of the school side in a joined row: NULL when the left
    join found no school. *)
Definition joined_SAFETY_SCORE {num} (j : census_row num * option (school_row num))
    : option num :=
  match snd j with Some s => s_SAFETY_SCORE s | None => None end.

Definition joined_School_ID {num} (j : census_row num * option (school_row num))
    : option num :=
  match snd j with Some s => s_School_ID s | None => None end.

(** The SELECT list on one group:
    [AVG(CASE WHEN s.SAFETY_SCORE IS NOT NULL THEN s.SAFETY_SCORE END)]
    and [COUNT(s.School_ID)]. *)
Definition socio_select {num} `{SqliteValue num}
    (g : socio_key num * list (census_row num * option (school_row num)))
    : socio_selected num :=
  let '(id, name, hardship, poverty) := fst g in
  {| sel_community_area_number := id;
     sel_community_area_name := name;
     sel_hardship_index := hardship;
     sel_poverty_rate := poverty;
     sel_avg_safety_score :=
       AVG (map (fun j => if IS_NOT_NULL (joined_SAFETY_SCORE j)
                          then option_map REAL (joined_SAFETY_SCORE j)
                          else None) (snd g));
     sel_school_count := COUNT (map joined_School_ID (snd g)) |}.

(** FROM/JOIN, WHERE, GROUP BY: the groups the SELECT list works on. *)
Definition socio_groups {num} `{SqliteValue num}
    (census : list (census_row num)) (schools : list (school_row num))
    : list (socio_key num * list (census_row num * option (school_row num))) :=
  let joined := LEFT_JOIN socio_on census schools in
  let kept := filter (fun j => socio_where (fst j)) joined in
  GROUP_BY socio_key_eq_dec socio_group_key kept.

(** [ORDER BY community_area_number] compares two selected rows. *)
Definition socio_order {num} (a b : socio_selected num) : bool :=
  option_Z_leb (sel_community_area_number a) (sel_community_area_number b).

(** The statement on two tables: FROM/JOIN, WHERE, GROUP BY, SELECT,
    ORDER BY community_area_number. *)
Definition socio_statement {num} `{SqliteValue num}
    (census : list (census_row num)) (schools : list (school_row num))
    : list (socio_selected num) :=
  sort_by socio_order (map socio_select (socio_groups census schools)).

(** The grouping columns of a selected row. *)
Definition selected_key {num} (r : socio_selected num) : socio_key num :=
  (sel_community_area_number r, sel_community_area_name r,
   sel_hardship_index r, sel_poverty_rate r).

(** The statement on the database: it fails when a table is missing. *)
Definition socio_query {num} `{SqliteValue num} (db : database num)
    : exception + list (socio_selected num) :=
  match CENSUS_DATA db, CHICAGO_PUBLIC_SCHOOLS db with
  | Some census, Some schools => inr (socio_statement census schools)
  | None, _ => inl (no_such_table "CENSUS_DATA")
  | Some _, None => inl (no_such_table "CHICAGO_PUBLIC_SCHOOLS")
  end.

(** The loop [df[col] = pd.to_numeric(df[col], errors="coerce")]. *)
Definition socio_numeric {num} `{SqliteValue num} (r : socio_selected num) : socio_row :=
  {| agg_community_area_number := sel_community_area_number r;
     agg_community_area_name := sel_community_area_name r;
     agg_hardship_index := to_numeric (sel_hardship_index r);
     agg_poverty_rate := to_numeric (sel_poverty_rate r);
     agg_avg_safety_score := to_numeric_real (sel_avg_safety_score r);
     agg_school_count := sel_school_count r |}.

(** [load_socioeducation_dataset()].  On the column-less frame of a
    failed query the first [df[col]] raises KeyError. *)
Definition load_socioeducation_dataset {num} `{SqliteValue num} (db : database num)
    : exception + DataFrame socio_row :=
  match run_query socio_query db with
  | NoColumns => inl {| exc_class := KeyError; exc_msg := "community_area_number" |}
  | Frame rows => inr (Frame (map socio_numeric rows))
  end.

(** The rows of the community aggregate for two present tables. *)
Definition community_aggregate {num} `{SqliteValue num}
    (census : list (census_row num)) (schools : list (school_row num)) : list socio_row :=
  map socio_numeric (socio_statement census schools).

(** *** [load_crime_dataset] *)

Record crime_selected (num : Type) : Type := {
  sel_crime_id : option num;
  sel_case_number : string;
  sel_primary_type : string;
  sel_description : string;
  sel_crime_community_area_number : option Z;
  sel_crime_community_area_name : string;
  sel_per_capita_income : option num;
  sel_crime_poverty_rate : option num;
  sel_crime_hardship_index : option num;
  sel_crime_year : option num
}.

Definition crime_on {num} `{SqliteValue num}
    (cr : crime_row num) (c : census_row num) : bool :=
  sql_eqb (CAST_AS_INTEGER (cr_COMMUNITY_AREA_NUMBER cr))
          (CAST_AS_INTEGER (c_COMMUNITY_AREA_NUMBER c)).

(** A column of the census side of a joined row. *)
Definition census_col {num A} (col : census_row num -> option A)
    (j : crime_row num * option (census_row num)) : option A :=
  match snd j with Some c => col c | None => None end.

Definition crime_select {num} `{SqliteValue num}
    (j : crime_row num * option (census_row num)) : crime_selected num :=
  let cr := fst j in
  {| sel_crime_id := cr_ID cr;
     sel_case_number := COALESCE (cr_CASE_NUMBER cr) "N/A";
     sel_primary_type := COALESCE (cr_PRIMARY_TYPE cr) "UNKNOWN";
     sel_description := COALESCE (cr_DESCRIPTION cr) "No description";
     sel_crime_community_area_number := CAST_AS_INTEGER (cr_COMMUNITY_AREA_NUMBER cr);
     sel_crime_community_area_name :=
       COALESCE (census_col (@c_COMMUNITY_AREA_NAME num) j) "Unknown";
     sel_per_capita_income := census_col (@c_PER_CAPITA_INCOME num) j;
     sel_crime_poverty_rate := census_col (@c_PERCENT_HOUSEHOLDS_BELOW_POVERTY num) j;
     sel_crime_hardship_index := census_col (@c_HARDSHIP_INDEX num) j;
     sel_crime_year := cr_YEAR cr |}.

(** FROM/JOIN, WHERE cr.COMMUNITY_AREA_NUMBER IS NOT NULL, SELECT. *)
Definition crime_statement {num} `{SqliteValue num}
    (crime : list (crime_row num)) (census : list (census_row num))
    : list (crime_selected num) :=
  let joined := LEFT_JOIN crime_on crime census in
  let kept := filter (fun j => IS_NOT_NULL (cr_COMMUNITY_AREA_NUMBER (fst j))) joined in
  map crime_select kept.

Definition crime_query {num} `{SqliteValue num} (db : database num)
    : exception + list (crime_selected num) :=
  match CHICAGO_CRIME_DATA db, CENSUS_DATA db with
  | Some crime, Some census => inr (crime_statement crime census)
  | None, _ => inl (no_such_table "CHICAGO_CRIME_DATA")
  | Some _, None => inl (no_such_table "CENSUS_DATA")
  end.

Definition crime_numeric {num} `{SqliteValue num} (r : crime_selected num)
    : crime_record num :=
  {| crime_id := sel_crime_id r;
     case_number := sel_case_number r;
     primary_type := sel_primary_type r;
     description := sel_description r;
     community_area_number := sel_crime_community_area_number r;
     community_area_name := sel_crime_community_area_name r;
     per_capita_income := to_numeric (sel_per_capita_income r);
     poverty_rate := to_numeric (sel_crime_poverty_rate r);
     hardship_index := to_numeric (sel_crime_hardship_index r);
     crime_year := sel_crime_year r |}.

(** [load_crime_dataset()]. *)
Definition load_crime_dataset {num} `{SqliteValue num} (db : database num)
    : exception + DataFrame (crime_record num) :=
  match run_query crime_query db with
  | NoColumns => inl {| exc_class := KeyError; exc_msg := "community_area_number" |}
  | Frame rows => inr (Frame (map crime_numeric rows))
  end.

(** The rows of the enriched crime dataset for two present tables. *)
Definition enriched_crime {num} `{SqliteValue num}
    (crime : list (crime_row num)) (census : list (census_row num))
    : list (crime_record num) :=
  map crime_numeric (crime_statement crime census).

(** ** Segmentation ([render_crime_hotspots_tab], lines 342-357) *)

Definition UNKNOWN_INCOME : string := "Unknown / Missing Income".
Definition LOW_INCOME : string := "Low Income Areas".
Definition HIGH_INCOME : string := "High Income Areas".

(** One cell of
    [np.where(isna, "Unknown / Missing Income",
              np.where(income <= threshold, "Low Income Areas",
                                            "High Income Areas"))];
    [np.where] works element by element. *)
Definition income_segment_of (income_threshold : Z) (income : float64) : string :=
  if isna income then UNKNOWN_INCOME
  else if float_leb income income_threshold then LOW_INCOME
  else HIGH_INCOME.

(** A row of [working_df]: the record and its new column. *)
Record segmented (num : Type) : Type := {
  record : crime_record num;
  income_segment : string
}.

Definition segment_by_income {num} (income_threshold : Z)
    (crime_df : list (crime_record num)) : list (segmented num) :=
  map (fun r => {| record := r;
                   income_segment :=
                     income_segment_of income_threshold (per_capita_income r) |})
      crime_df.

(** ** Ranking ([render_crime_hotspots_tab], lines 355-378) *)

(** [Series.isin(values)] on one cell. *)
Definition isin (s : string) (values : list string) : bool :=
  existsb (String.eqb s) values.

(** [compare_df]: the rows of the Low and High segments. *)
Definition compare_rows {num} (working_df : list (segmented num)) : list (segmented num) :=
  filter (fun w => isin (income_segment w) [LOW_INCOME; HIGH_INCOME]) working_df.

(** [df.groupby(key, dropna=False)]: pandas sorts the group keys
    ([sort=True] is the default); each key comes with its rows. *)
Definition groupby {A K} (eq_dec : forall x y : K, {x = y} + {x <> y})
    (leb : K -> K -> bool) (key : A -> K) (df : list A) : list (K * list A) :=
  map (fun k => (k, filter (fun a => if eq_dec (key a) k then true else false) df))
      (sort_by leb (distinct eq_dec (map key df))).

(** Order of the keys [(income_segment, primary_type)]: lexicographic. *)
Definition pair_leb (a b : string * string) : bool :=
  String.ltb (fst a) (fst b)
  || (String.eqb (fst a) (fst b) && String.leb (snd a) (snd b)).

Definition pair_eq_dec (a b : string * string) : {a = b} + {a <> b}.
Proof. decide equality; apply string_dec. Defined.
Arguments pair_eq_dec : simpl never.

(** A row of [grouped]. *)
Record grouped_row : Type := {
  g_income_segment : string;
  g_primary_type : string;
  crime_count : nat
}.

(** [compare_df.groupby(["income_segment", "primary_type"], dropna=False)
      .size().reset_index(name="crime_count")] *)
Definition grouped {num} (compare_df : list (segmented num)) : list grouped_row :=
  map (fun g => {| g_income_segment := fst (fst g);
                   g_primary_type := snd (fst g);
                   crime_count := List.length (snd g) |})
      (groupby pair_eq_dec pair_leb
               (fun w => (income_segment w, primary_type (record w))) compare_df).

(** [grouped.groupby("primary_type", dropna=False)["crime_count"].sum()]:
    a series indexed by crime type, in ascending order of the type. *)
Definition crime_count_sum (g : list grouped_row) : list (string * nat) :=
  map (fun t => (fst t, list_sum (map crime_count (snd t))))
      (groupby string_dec String.leb g_primary_type g).

(** A series sorter: what [Series.sort_values(ascending=False)] does to
    a series of counts.  pandas sorts with numpy's quicksort by default,
    which promises a sorted permutation but no order among equal counts;
    the ranking is therefore parametric in the sorter. *)
Definition series_sorter : Type := list (string * nat) -> list (string * nat).

(** Descending order of the counts. *)
Definition count_geb (a b : string * nat) : bool := Nat.leb (snd b) (snd a).
Definition count_ge (a b : string * nat) : Prop := snd b <= snd a.

(** The contract of [sort_values(ascending=False)]. *)
Definition sorts_descending (sort_values : series_sorter) : Prop :=
  forall s, Permutation (sort_values s) s /\ Sorted count_ge (sort_values s).

(** One sorter that meets the contract: the stable one, which leaves
    equal counts in the order of the index. *)
Definition sort_values_stable : series_sorter := sort_by count_geb.

(** [top_crimes]: [... .sort_values(ascending=False).head(top_n).index] *)
Definition top_crimes {num} (sort_values : series_sorter)
    (compare_df : list (segmented num)) (top_n : nat) : list string :=
  map fst (firstn top_n (sort_values (crime_count_sum (grouped compare_df)))).

(** [grouped_top = grouped[grouped["primary_type"].isin(top_crimes)]] *)
Definition grouped_top {num} (sort_values : series_sorter)
    (compare_df : list (segmented num)) (top_n : nat) : list grouped_row :=
  filter (fun g => isin (g_primary_type g) (top_crimes sort_values compare_df top_n))
         (grouped compare_df).

(** The frequency of a crime type among the records. *)
Definition frequency {num} (compare_df : list (segmented num)) (t : string) : nat :=
  List.length (filter (fun w => String.eqb (primary_type (record w)) t) compare_df).

(** The position at which the records first show a crime type. *)
Fixpoint first_index {num} (records : list (segmented num)) (t : string) : nat :=
  match records with
  | [] => 0
  | w :: records' =>
      if String.eqb (primary_type (record w)) t then 0
      else S (first_index records' t)
  end.

(** "Ties broken by first-encountered order in the input": of two
    returned values of equal frequency, the one returned first is the
    one the records show first. *)
Definition ties_by_first_encounter {num} (records : list (segmented num))
    (out : list string) : Prop :=
  forall i j a b,
    i < j -> nth_error out i = Some a -> nth_error out j = Some b ->
    frequency records a = frequency records b ->
    first_index records a < first_index records b.

(** ** Concrete tables and records *)

Definition census_of (id : Z) (name : string) (hardship poverty income : Z)
    : census_row Z :=
  {| c_COMMUNITY_AREA_NUMBER := Some id;
     c_COMMUNITY_AREA_NAME := Some name;
     c_HARDSHIP_INDEX := Some hardship;
     c_PERCENT_HOUSEHOLDS_BELOW_POVERTY := Some poverty;
     c_PER_CAPITA_INCOME := Some income |}.

Definition school_of (id : option Z) (community : Z) (safety : option Z)
    : school_row Z :=
  {| s_School_ID := id;
     s_COMMUNITY_AREA_NUMBER := Some community;
     s_SAFETY_SCORE := safety |}.

Definition crime_of (id : Z) (type : string) (community : option Z) : crime_row Z :=
  {| cr_ID := Some id;
     cr_CASE_NUMBER := None;
     cr_PRIMARY_TYPE := Some type;
     cr_DESCRIPTION := None;
     cr_COMMUNITY_AREA_NUMBER := community;
     cr_YEAR := Some 2004%Z |}.

Definition oak_park : census_row Z := census_of 1 "Oak Park" 80 35 9000.
Definition lake_view : census_row Z := census_of 2 "Lake View" 20 10 20000.

(** A school row without School_ID but with a safety score. *)
Definition school_without_id : school_row Z := school_of None 1 (Some 50%Z).

(** Two census rows with the same identifier and different names. *)
Definition census_same_id : list (census_row Z) :=
  [census_of 1 "Oak Park" 80 35 9000; census_of 1 "Oak Park North" 80 35 9000].

(** Cells of a column without a declared type: an integer, or a text
    made of spaces only.  [CAST(' ' AS INTEGER)] is 0, an aggregate
    reads 0 in such a text, and [pandas.to_numeric] coerces it to NaN. *)
Inductive cell : Type :=
| integer_cell (z : Z)
| blank_cell (spaces : nat).

Definition cell_eq_dec (x y : cell) : {x = y} + {x <> y}.
Proof. decide equality; [apply Z.eq_dec | apply Nat.eq_dec]. Defined.

#[export] Instance cell_SqliteValue : SqliteValue cell := {
  num_eq_dec := cell_eq_dec;
  CAST_INTEGER := fun x => match x with integer_cell z => z | blank_cell _ => 0%Z end;
  REAL := fun x => match x with integer_cell z => inject_Z z | blank_cell _ => 0%Q end;
  to_numeric_cell := fun x => match x with
                              | integer_cell z => Finite (inject_Z z)
                              | blank_cell _ => NaN
                              end
}.


(** A theft in community 1, then an assault in community 1. *)
Definition theft_then_assault : list (segmented Z) :=
  segment_by_income 10000
    (enriched_crime [crime_of 100 "THEFT" (Some 1%Z); crime_of 101 "ASSAULT" (Some 1%Z)]
                    [oak_park]).

Definition assault_then_theft : list (segmented Z) :=
  segment_by_income 10000
    (enriched_crime [crime_of 101 "ASSAULT" (Some 1%Z); crime_of 100 "THEFT" (Some 1%Z)]
                    [oak_park]).

(** Crimes in a poor and in a rich community, one without community. *)
Definition some_crimes : list (crime_row Z) :=
  [crime_of 100 "THEFT" (Some 1%Z); crime_of 101 "THEFT" (Some 2%Z);
   crime_of 102 "ASSAULT" (Some 2%Z); crime_of 103 "THEFT" None;
   crime_of 104 "ARSON" (Some 5%Z)].

(** A database file without any table, and one with an empty census. *)
Definition no_tables : database Z :=
  {| CENSUS_DATA := None; CHICAGO_PUBLIC_SCHOOLS := None; CHICAGO_CRIME_DATA := None |}.

(** A database file in which only the schools table is missing. *)
Definition without_schools : database Z :=
  {| CENSUS_DATA := Some [oak_park; lake_view];
     CHICAGO_PUBLIC_SCHOOLS := None;
     CHICAGO_CRIME_DATA := Some some_crimes |}.

Definition empty_census : database Z :=
  {| CENSUS_DATA := Some [];
     CHICAGO_PUBLIC_SCHOOLS := Some [];
     CHICAGO_CRIME_DATA := Some some_crimes |}.

Definition full_database : database Z :=
  {| CENSUS_DATA := Some [oak_park; lake_view];
     CHICAGO_PUBLIC_SCHOOLS := Some [school_of (Some 10%Z) 1 (Some 50%Z);
                                     school_of (Some 11%Z) 1 None];
     CHICAGO_CRIME_DATA := Some some_crimes |}.

(** ** The report runner ([chicago_data_analysis.py]) *)

(** The ten fixed statements of [run_analysis]. *)
Inductive statement : Type :=
| query1 | query2 | query3 | query4 | query5
| query6 | query7 | query8 | query9 | query10.

Inductive table_name : Type :=
| T_CENSUS_DATA
| T_CHICAGO_PUBLIC_SCHOOLS
| T_CHICAGO_CRIME_DATA.

Definition table_text (t : table_name) : string :=
  match t with
  | T_CENSUS_DATA => "CENSUS_DATA"
  | T_CHICAGO_PUBLIC_SCHOOLS => "CHICAGO_PUBLIC_SCHOOLS"
  | T_CHICAGO_CRIME_DATA => "CHICAGO_CRIME_DATA"
  end.

(** The tables each statement reads (its FROM clauses). *)
Definition tables_of (q : statement) : list table_name :=
  match q with
  | query1 | query3 | query4 | query5 | query8 => [T_CHICAGO_CRIME_DATA]
  | query2 | query7 | query9 => [T_CENSUS_DATA]
  | query6 => [T_CHICAGO_PUBLIC_SCHOOLS]
  | query10 => [T_CENSUS_DATA; T_CHICAGO_CRIME_DATA]
  end.

Definition has_table {num} (db : database num) (t : table_name) : bool :=
  match t with
  | T_CENSUS_DATA => IS_NOT_NULL (CENSUS_DATA db)
  | T_CHICAGO_PUBLIC_SCHOOLS => IS_NOT_NULL (CHICAGO_PUBLIC_SCHOOLS db)
  | T_CHICAGO_CRIME_DATA => IS_NOT_NULL (CHICAGO_CRIME_DATA db)
  end.

(** What [pd.read_sql_query(query, self.conn)] does: an answer, or an
    exception.  This is the interface [execute_query] sits on. *)
Definition sql_engine (R : Type) : Type := statement -> exception + DataFrame R.

(** pandas over a database file: a statement that names a missing table
    raises pandas' DatabaseError; otherwise the rows [answer] are
    returned. *)
Definition pd_read_sql_query {num R} (db : database num)
    (answer : statement -> list R) : sql_engine R :=
  fun q =>
    match filter (fun t => negb (has_table db t)) (tables_of q) with
    | [] => inr (Frame (answer q))
    | t :: _ => inl (no_such_table (table_text t))
    end.

(** The observable effects of the runner, in order. *)
Inductive effect (R : Type) : Type :=
| read_sql (q : statement)
| print_banner (text : string)
| print_query_error (query_num : nat) (e : exception)
| print_problem (problem_num : nat) (title : string)
| print_result (df : DataFrame R)
| print_no_results.
Arguments read_sql {R}.
Arguments print_banner {R}.
Arguments print_query_error {R}.
Arguments print_problem {R}.
Arguments print_no_results {R}.

(** A run: the effects so far, and a value or the exception that ended
    the run. *)
Definition run (R A : Type) : Type := (list (effect R) * (exception + A))%type.

Definition ret {R A} (a : A) : run R A := ([], inr a).

Definition bind {R A B} (m : run R A) (k : A -> run R B) : run R B :=
  match m with
  | (out, inl e) => (out, inl e)
  | (out, inr a) => let (out', r) := k a in (out ++ out', r)
  end.

Definition emit {R} (e : effect R) : run R unit := ([e], inr tt).

Notation "x <- m ;; k" := (bind m (fun x => k))
  (at level 61, m at next level, right associativity).
Notation "m ;;; k" := (bind m (fun _ => k))
  (at level 61, right associativity).

(** [execute_query]: [except Error] is [except sqlite3.Error]; any other
    exception leaves the method. *)
Definition execute_query {R} (engine : sql_engine R) (query_num : nat) (query : statement)
    : run R (option (DataFrame R)) :=
  emit (read_sql query) ;;;
  match engine query with
  | inr result => ret (Some result)
  | inl e =>
      if isinstance_sqlite3_Error e
      then emit (print_query_error query_num e) ;;; ret None
      else ([], inl e)
  end.

(** [display_results]. *)
Definition display_results {R} (problem_num : nat) (title : string)
    (result : option (DataFrame R)) : run R unit :=
  emit (print_problem problem_num title) ;;;
  match result with
  | Some df => if empty df then emit print_no_results else emit (print_result df)
  | None => emit print_no_results
  end.

Definition problem {R} (engine : sql_engine R) (n : nat) (q : statement) (title : string)
    : run R unit :=
  result <- execute_query engine n q ;;
  display_results n title result.

(** [run_analysis]. *)
Definition run_analysis {R} (engine : sql_engine R) : run R unit :=
  emit (print_banner "RUNNING SQL ANALYSIS PROBLEMS") ;;;
  problem engine 1 query1 "Find the total number of crimes recorded" ;;;
  problem engine 2 query2 "Community areas with per capita income < $11,000" ;;;
  problem engine 3 query3 "Crime case numbers involving minors" ;;;
  problem engine 4 query4 "Kidnapping crimes involving a child" ;;;
  problem engine 5 query5 "Types of crimes recorded at schools" ;;;
  problem engine 6 query6 "School types with average safety scores" ;;;
  problem engine 7 query7 "Top 5 community areas with highest poverty rate" ;;;
  problem engine 8 query8 "Most crime-prone community area" ;;;
  problem engine 9 query9 "Community area with highest hardship index (subquery)" ;;;
  problem engine 10 query10 "Community area with most crimes (subquery)" ;;;
  emit (print_banner "ANALYSIS COMPLETE").

(** The statements a run sent to the database. *)
Definition executed {R A} (r : run R A) : list statement :=
  flat_map (fun e => match e with read_sql q => [q] | _ => [] end) (fst r).

Definition all_statements : list statement :=
  [query1; query2; query3; query4; query5; query6; query7; query8; query9; query10].

(** *** Problems 8 and 10 *)

Definition option_eq_dec {A} (d : forall x y : A, {x = y} + {x <> y})
    (x y : option A) : {x = y} + {x <> y}.
Proof. decide equality. Defined.

(** [x = y] on raw cells. *)
Definition num_sql_eqb {num} `{SqliteValue num} (x y : option num) : bool :=
  match x, y with
  | Some a, Some b => if num_eq_dec a b then true else false
  | _, _ => false
  end.

(** [FROM CHICAGO_CRIME_DATA WHERE COMMUNITY_AREA_NUMBER IS NOT NULL
     GROUP BY COMMUNITY_AREA_NUMBER], shared by both statements. *)
Definition crimes_by_community {num} `{SqliteValue num} (crime : list (crime_row num))
    : list (option num * list (crime_row num)) :=
  GROUP_BY (option_eq_dec num_eq_dec) (@cr_COMMUNITY_AREA_NUMBER num)
           (filter (fun cr => IS_NOT_NULL (cr_COMMUNITY_AREA_NUMBER cr)) crime).

(** [LIMIT n]. *)
Definition LIMIT {A} (n : nat) (rows : list A) : list A := firstn n rows.

(** Problem 8:
    [SELECT COMMUNITY_AREA_NUMBER, COUNT( * ) as CRIME_COUNT ...
     ORDER BY CRIME_COUNT DESC LIMIT 1]: the selected pairs are sorted. *)
Definition query8_statement {num} `{SqliteValue num} (crime : list (crime_row num))
    : list (option num * nat) :=
  LIMIT 1
    (sort_by (fun a b => Nat.leb (snd b) (snd a))
             (map (fun g => (fst g, List.length (snd g))) (crimes_by_community crime))).

(** The subquery of problem 10:
    [SELECT COMMUNITY_AREA_NUMBER ... ORDER BY COUNT( * ) DESC LIMIT 1]:
    the groups are sorted by their size, then projected. *)
Definition query10_subquery {num} `{SqliteValue num} (crime : list (crime_row num))
    : list (option num) :=
  LIMIT 1
    (map fst
         (sort_by (fun a b => Nat.leb (List.length (snd b)) (List.length (snd a)))
                  (crimes_by_community crime))).

(** The value of a scalar subquery: its first row, NULL without rows. *)
Definition scalar {A} (rows : list (option A)) : option A :=
  match rows with
  | [] => None
  | v :: _ => v
  end.

(** Problem 10:
    [SELECT COMMUNITY_AREA_NAME FROM CENSUS_DATA
     WHERE COMMUNITY_AREA_NUMBER = (subquery)]. *)
Definition query10_statement {num} `{SqliteValue num}
    (census : list (census_row num)) (crime : list (crime_row num)) : list (option string) :=
  map (@c_COMMUNITY_AREA_NAME num)
      (filter (fun c => num_sql_eqb (c_COMMUNITY_AREA_NUMBER c)
                                    (scalar (query10_subquery crime)))
              census).

(** [pd.read_sql_query(query8, conn)] and [pd.read_sql_query(query10, conn)]. *)
Definition read_query8 {num} `{SqliteValue num} (db : database num)
    : exception + list (option num * nat) :=
  match CHICAGO_CRIME_DATA db with
  | Some crime => inr (query8_statement crime)
  | None => inl (no_such_table "CHICAGO_CRIME_DATA")
  end.

Definition read_query10 {num} `{SqliteValue num} (db : database num)
    : exception + list (option string) :=
  match CENSUS_DATA db, CHICAGO_CRIME_DATA db with
  | Some census, Some crime => inr (query10_statement census crime)
  | None, _ => inl (no_such_table "CENSUS_DATA")
  | Some _, None => inl (no_such_table "CHICAGO_CRIME_DATA")
  end.

(** ** The report runner as a list of problems *)

(** The statement makes [pd.read_sql_query] raise an exception that
    [except Error] lets through. *)
Definition escapes {R} (engine : sql_engine R) (q : statement) : bool :=
  match engine q with
  | inl e => negb (isinstance_sqlite3_Error e)
  | inr _ => false
  end.

(** The elements of a list up to and including the first that
    satisfies [p]. *)
Fixpoint through_first {A} (p : A -> bool) (l : list A) : list A :=
  match l with
  | [] => []
  | x :: l' => if p x then [x] else x :: through_first p l'
  end.

(** The problems of [run_analysis]: number, statement, title. *)
Definition the_problems : list (nat * statement * string) :=
  [(1, query1, "Find the total number of crimes recorded");
   (2, query2, "Community areas with per capita income < $11,000");
   (3, query3, "Crime case numbers involving minors");
   (4, query4, "Kidnapping crimes involving a child");
   (5, query5, "Types of crimes recorded at schools");
   (6, query6, "School types with average safety scores");
   (7, query7, "Top 5 community areas with highest poverty rate");
   (8, query8, "Most crime-prone community area");
   (9, query9, "Community area with highest hardship index (subquery)");
   (10, query10, "Community area with most crimes (subquery)")].

(** The problems one after the other, then [k]. *)
Fixpoint run_problems {R} (engine : sql_engine R)
    (ps : list (nat * statement * string)) (k : run R unit) : run R unit :=
  match ps with
  | [] => k
  | (n, q, title) :: ps' => problem engine n q title ;;; run_problems engine ps' k
  end.

(** The problem numbers whose header a run printed. *)
Definition reported {R A} (r : run R A) : list nat :=
  flat_map (fun e => match e with print_problem n _ => [n] | _ => [] end) (fst r).

(** The query errors a run printed. *)
Definition query_errors {R A} (r : run R A) : list nat :=
  flat_map (fun e => match e with print_query_error n _ => [n] | _ => [] end) (fst r).

(** ** The sidebar and the filters ([chicago_bi_dashboard.py]) *)

(** [Series.isin(values)] on a nullable cell: a missing name is in no
    selection. *)
Definition isin_opt (s : option string) (values : list string) : bool :=
  match s with
  | Some x => isin x values
  | None => false
  end.

(** [apply_filters]: a selection that is empty restricts nothing
    ([if selected_communities:]). *)
Definition apply_filters {num} (socio_df : list socio_row)
    (crime_df : list (crime_record num))
    (selected_communities selected_crime_types : list string)
    : list socio_row * list (crime_record num) :=
  let filtered_socio := socio_df in
  let filtered_crime := crime_df in
  let '(filtered_socio, filtered_crime) :=
    match selected_communities with
    | [] => (filtered_socio, filtered_crime)
    | _ :: _ =>
        (filter (fun r => isin_opt (agg_community_area_name r) selected_communities)
                filtered_socio,
         filter (fun r => isin (community_area_name r) selected_communities)
                filtered_crime)
    end in
  let filtered_crime :=
    match selected_crime_types with
    | [] => filtered_crime
    | _ :: _ => filter (fun r => isin (primary_type r) selected_crime_types)
                       filtered_crime
    end in
  (filtered_socio, filtered_crime).

(** [sorted([area for area in names.dropna().unique().tolist()
             if area != "Unknown"])] *)
Definition community_options (socio_df : list socio_row) : list string :=
  sort_by String.leb
    (filter (fun area => negb (String.eqb area "Unknown"))
            (distinct string_dec (non_null (map agg_community_area_name socio_df)))).

(** [sorted(crime_df["primary_type"].dropna().unique().tolist())] *)
Definition crime_type_options {num} (crime_df : list (crime_record num)) : list string :=
  sort_by String.leb (distinct string_dec (map (@primary_type num) crime_df)).

(** [series.dropna()]. *)
Definition dropna (col : list float64) : list float64 :=
  filter (fun x => negb (isna x)) col.

(** The order of two floats that are not NaN. *)
Definition float64_leb (a b : float64) : bool :=
  match a, b with
  | NaN, _ | _, NaN => false
  | NegInf, _ => true
  | _, PosInf => true
  | Finite p, Finite q => Qle_bool p q
  | _, _ => false
  end.

(** [series.min()] and [series.max()] of a series without NaN. *)
Definition series_min (s : list float64) : float64 :=
  match s with
  | [] => NaN
  | x :: s' => fold_left (fun m y => if float64_leb y m then y else m) s' x
  end.

Definition series_max (s : list float64) : float64 :=
  match s with
  | [] => NaN
  | x :: s' => fold_left (fun m y => if float64_leb m y then y else m) s' x
  end.

(** Half of the magnitude at which a sum of floats overflows: the sum
    becomes an infinity from [2^1024 - 2^970] on, half an ulp above the
    largest float. *)
Definition float64_half_overflow : Q := inject_Z (2 ^ 1023 - 2 ^ 969).

Definition float64_overflow : Q := (float64_half_overflow + float64_half_overflow)%Q.

(** The sum of two finite floats, with its overflow. *)
Definition float64_add (p q : Q) : float64 :=
  if Qle_bool float64_overflow (p + q) then PosInf
  else if Qle_bool (p + q) (- float64_overflow) then NegInf
  else Finite (p + q).

(** The mean [(a + b) / 2] of two floats, computed as the sum divided
    by two: the sum may overflow. *)
Definition float64_mean2 (a b : float64) : float64 :=
  match a, b with
  | NaN, _ | _, NaN => NaN
  | Finite p, Finite q =>
      match float64_add p q with
      | Finite sum => Finite (sum / 2)%Q
      | overflow => overflow
      end
  | PosInf, NegInf | NegInf, PosInf => NaN
  | PosInf, _ | _, PosInf => PosInf
  | NegInf, _ | _, NegInf => NegInf
  end.

(** [series.median()] of a series without NaN: the middle value, or the
    mean of the two middle values. *)
Definition series_median (s : list float64) : float64 :=
  let sorted := sort_by float64_leb s in
  let n := List.length s in
  if Nat.odd n then nth (n / 2) sorted NaN
  else float64_mean2 (nth (n / 2 - 1) sorted NaN) (nth (n / 2) sorted NaN).

(** [int(x)] on a float: truncation toward zero; it raises on NaN
    (ValueError) and on an infinity (OverflowError): [None]. *)
Definition python_int (x : float64) : option Z :=
  match x with
  | Finite q => Some (Z.quot (Qnum q) (Zpos (Qden q)))
  | _ => None
  end.

(** The arguments of the income slider. *)
Record slider : Type := {
  min_value : Z;
  max_value : Z;
  value : Z;
  step : Z
}.

(** The integers JavaScript represents exactly: Streamlit's
    [JSNumber.MAX_SAFE_INTEGER] and its opposite. *)
Definition MAX_SAFE_INTEGER : Z := (2 ^ 53 - 1)%Z.

Definition safe_integer (z : Z) : bool :=
  Z.leb (- MAX_SAFE_INTEGER) z && Z.leb z MAX_SAFE_INTEGER.

(** [st.sidebar.slider] on integer arguments, of which [value] lies
    between the bounds: it raises StreamlitJSNumberBoundsError, [None],
    when a bound is not a safe integer. *)
Definition st_sidebar_slider (min_value max_value value step : Z) : option slider :=
  if safe_integer min_value && safe_integer max_value
  then Some {| min_value := min_value;
               max_value := max_value;
               value := value;
               step := step |}
  else None.

(** The bounds and the default of the income slider (lines 182-190);
    [None] when an [int(...)] raises. *)
Definition income_bounds {num} (crime_df : list (crime_record num))
    : option (Z * Z * Z) :=
  let income_series := dropna (map (@per_capita_income num) crime_df) in
  match income_series with
  | [] => Some (0, 10000, 5000)%Z
  | _ :: _ =>
      match python_int (series_min income_series),
            python_int (series_max income_series),
            python_int (series_median income_series) with
      | Some min_income, Some max_income, Some default_income =>
          Some (min_income,
                if Z.eqb min_income max_income then (min_income + 1)%Z else max_income,
                default_income)
      | _, _, _ => None
      end
  end.

(** [step=max(100, (max_income - min_income) // 100)]. *)
Definition income_step (min_income max_income : Z) : Z :=
  Z.max 100 ((max_income - min_income) / 100).

(** The income slider of [build_sidebar_filters] (lines 182-199);
    [None] when an [int(...)] or [st.sidebar.slider] raises. *)
Definition income_slider {num} (crime_df : list (crime_record num)) : option slider :=
  match income_bounds crime_df with
  | Some (min_income, max_income, default_income) =>
      st_sidebar_slider min_income max_income default_income
                        (income_step min_income max_income)
  | None => None
  end.

(** ** The KPI and the rest of the crime tab ([chicago_bi_dashboard.py]) *)

(** [low_income_share] of [render_kpis] (lines 238-245): the percentage
    of the known-income crimes at or below the threshold, NaN without
    known income. *)
Definition low_income_share {num} (crime_df : list (crime_record num))
    (income_threshold : Z) : float64 :=
  let known_income_crime :=
    filter (fun r => negb (isna (per_capita_income r))) crime_df in
  match known_income_crime with
  | [] => NaN
  | _ :: _ =>
      Finite (100
              * inject_Z (Z.of_nat
                  (List.length
                     (filter (fun r => float_leb (per_capita_income r) income_threshold)
                             known_income_crime)))
              / inject_Z (Z.of_nat (List.length known_income_crime)))%Q
  end.

(** [(working_df["income_segment"] == "Unknown / Missing Income").sum()] *)
Definition unknown_income_count {num} (working_df : list (segmented num)) : nat :=
  List.length (filter (fun w => String.eqb (income_segment w) UNKNOWN_INCOME) working_df).

(** [segment_share]:
    [compare_df.groupby("income_segment", dropna=False).size()] *)
Definition segment_share {num} (compare_df : list (segmented num)) : list (string * nat) :=
  map (fun g => (fst g, List.length (snd g)))
      (groupby string_dec String.leb (@income_segment num) compare_df).

(** A sorter of the hotspot counts, as [series_sorter] for the ranking:
    [sort_values("crime_count", ascending=False)]. *)
Definition hotspot_sorter : Type :=
  list (string * string * nat) -> list (string * string * nat).



(** One sorter that meets the contract: the stable one. *)
Definition sort_hotspots_stable : hotspot_sorter :=
  sort_by (fun a b => Nat.leb (snd b) (snd a)).

(** The counts by community and segment, before they are sorted. *)
Definition hotspot_counts {num} (compare_df : list (segmented num))
    : list (string * string * nat) :=
  map (fun g => (fst g, List.length (snd g)))
      (groupby pair_eq_dec pair_leb
               (fun w => (community_area_name (record w), income_segment w))
               compare_df).

(** [hotspots]: the fifteen largest counts. *)
Definition hotspots {num} (sort_values : hotspot_sorter)
    (compare_df : list (segmented num)) : list (string * string * nat) :=
  firstn 15 (sort_values (hotspot_counts compare_df)).

(** What the crime tab shows. *)
Inductive crime_tab : Type :=
| no_crime_data
| no_comparison_data
| charts (bars : list grouped_row) (donut : list (string * nat))
         (excluded_caption : option nat) (table : list (string * string * nat)).

(** [render_crime_hotspots_tab]. *)
Definition render_crime_hotspots_tab {num} (sort_series : series_sorter)
    (sort_hotspots : hotspot_sorter) (crime_df : list (crime_record num))
    (income_threshold : Z) (top_n : nat) : crime_tab :=
  match crime_df with
  | [] => no_crime_data
  | _ :: _ =>
      let working_df := segment_by_income income_threshold crime_df in
      let compare_df := compare_rows working_df in
      match compare_df with
      | [] => no_comparison_data
      | _ :: _ =>
          charts (grouped_top sort_series compare_df top_n)
                 (segment_share compare_df)
                 (match unknown_income_count working_df with
                  | O => None
                  | S n => Some (S n)
                  end)
                 (hotspots sort_hotspots compare_df)
      end
  end.

(** ** The socioeconomic tab and the page ([chicago_bi_dashboard.py]) *)

(** [viz_df.dropna(subset=["hardship_index", "poverty_rate",
                            "avg_safety_score"])] *)
Definition valid_rows (socio_df : list socio_row) : list socio_row :=
  filter (fun r => negb (isna (agg_hardship_index r))
                   && negb (isna (agg_poverty_rate r))
                   && negb (isna (agg_avg_safety_score r))) socio_df.

(** A row of the detail table: the columns of [summary_cols]. *)
Record detail_row : Type := {
  d_community : option string;
  d_hardship_index : float64;
  d_poverty_rate : float64;
  d_avg_safety_score : float64;
  d_school_count : nat
}.

Definition summary (r : socio_row) : detail_row :=
  {| d_community := agg_community_area_name r;
     d_hardship_index := agg_hardship_index r;
     d_poverty_rate := agg_poverty_rate r;
     d_avg_safety_score := agg_avg_safety_score r;
     d_school_count := agg_school_count r |}.

(** [sort_values(by="hardship_index", ascending=False)] on the detail
    rows: a sorted permutation, as for the other sorts. *)
Definition detail_sorter : Type := list detail_row -> list detail_row.

Definition hardship_ge (a b : detail_row) : Prop :=
  float64_leb (d_hardship_index b) (d_hardship_index a) = true.

Definition sorts_details (sort_values : detail_sorter) : Prop :=
  forall s, Permutation (sort_values s) s /\
            (Forall (fun r => isna (d_hardship_index r) = false) s ->
             Sorted hardship_ge (sort_values s)).

Definition sort_details_stable : detail_sorter :=
  sort_by (fun a b => float64_leb (d_hardship_index b) (d_hardship_index a)).

(** What the socioeconomic tab shows: a warning, or the rows of the two
    charts and the detail table. *)
Inductive socio_tab : Type :=
| no_socio_data
| socio_charts (valid_df : list socio_row) (detail : list detail_row).

(** [render_socioeducation_tab]. *)
Definition render_socioeducation_tab (sort_values : detail_sorter)
    (socio_df : list socio_row) : socio_tab :=
  match valid_rows socio_df with
  | [] => no_socio_data
  | valid_df => socio_charts valid_df (sort_values (map summary valid_df))
  end.

(** The rows of a frame. *)
Definition rows_of {R} (df : DataFrame R) : list R :=
  match df with
  | NoColumns => []
  | Frame rows => rows
  end.

(** How [main] ends when it does not raise. *)
Inductive page : Type :=
| database_not_found
| datasets_empty
| dashboard (low_income_share_kpi : float64) (tab1 : socio_tab) (tab2 : crime_tab).

(** What [main] lets escape: the exception of a loader, the error of
    an [int(...)] of the sidebar, or the error of its income slider. *)
Inductive uncaught : Type :=
| loader_error (e : exception)
| int_error
| slider_error.

(** [main]: the database file may be absent; the selections, the
    threshold and [top_n] are what the user sets in the sidebar.  Of
    the KPI row only the low-income share is kept. *)
Definition main {num} `{SqliteValue num}
    (sort_details : detail_sorter) (sort_series : series_sorter)
    (sort_hotspots : hotspot_sorter)
    (db_file : option (database num))
    (selected_communities selected_crime_types : list string)
    (income_threshold : Z) (top_n : nat) : uncaught + page :=
  match db_file with
  | None => inr database_not_found
  | Some db =>
      match load_socioeducation_dataset db with
      | inl e => inl (loader_error e)
      | inr socio_df =>
          match load_crime_dataset db with
          | inl e => inl (loader_error e)
          | inr crime_df =>
              if empty socio_df || empty crime_df then inr datasets_empty
              else
                match income_bounds (rows_of crime_df) with
                | None => inl int_error
                | Some (min_income, max_income, default_income) =>
                    match st_sidebar_slider min_income max_income default_income
                                            (income_step min_income max_income) with
                    | None => inl slider_error
                    | Some _ =>
                        let '(filtered_socio, filtered_crime) :=
                          apply_filters (rows_of socio_df) (rows_of crime_df)
                                        selected_communities selected_crime_types in
                        inr (dashboard
                               (low_income_share filtered_crime income_threshold)
                               (render_socioeducation_tab sort_details filtered_socio)
                               (render_crime_hotspots_tab sort_series sort_hotspots
                                  filtered_crime income_threshold top_n))
                    end
                end
          end
      end
  end.

(** A database whose crimes have no community identifier. *)
Definition crimes_without_community : database Z :=
  {| CENSUS_DATA := Some [oak_park];
     CHICAGO_PUBLIC_SCHOOLS := Some [];
     CHICAGO_CRIME_DATA := Some [crime_of 103 "THEFT" None] |}.

(** ** Problem 9 of the report ([chicago_data_analysis.py]) *)

(** [MAX(x)]: the value an ORDER BY would return last among the non-NULL
    ones, NULL when there is none.  [sql_leb] is SQLite's comparison of
    two values. *)
Definition MAX {num} (sql_leb : num -> num -> bool) (col : list (option num))
    : option num :=
  match non_null col with
  | [] => None
  | v :: vs => Some (fold_left (fun m x => if sql_leb m x then x else m) vs v)
  end.

(** Problem 9:
    [SELECT COMMUNITY_AREA_NAME FROM CENSUS_DATA
     WHERE HARDSHIP_INDEX = (SELECT MAX(HARDSHIP_INDEX) FROM CENSUS_DATA)]. *)
Definition query9_statement {num} `{SqliteValue num} (sql_leb : num -> num -> bool)
    (census : list (census_row num)) : list (option string) :=
  map (@c_COMMUNITY_AREA_NAME num)
      (filter (fun c => num_sql_eqb (c_HARDSHIP_INDEX c)
                                    (MAX sql_leb (map (@c_HARDSHIP_INDEX num) census)))
              census).

(** Two census rows that share the highest hardship index. *)
Definition census_hardship_tie : list (census_row Z) :=
  [census_of 1 "Oak Park" 98 35 9000;
   census_of 2 "Lake View" 20 10 20000;
   census_of 54 "Riverdale" 98 60 8000].

(** ** Proof automation *)

(** Closes a goal [P x] on a computed cell: either the premise [x <> NaN]
    is absurd, or the conclusion holds by computation. *)
Ltac by_computation :=
  vm_compute;
  first [ reflexivity
        | discriminate
        | let Hn := fresh in intros Hn; first [ reflexivity | discriminate
                                              | exfalso; apply Hn; reflexivity ] ].

(* ================================================================== *)
(** * Part II. Theorems                                                 *)
(* ================================================================== *)

Section Segmentation.
Context {num : Type}.

Lemma float_leb_spec x t : float_leb x t = true <-> float_le x t.
Proof.
  destruct x; simpl; try (split; [discriminate | contradiction]).
  - tauto.
  - apply Qle_bool_iff.
Qed.

Lemma float_leb_false x t : float_leb x t = false -> x <> NaN -> float_gt x t.
Proof.
  destruct x; simpl; intros H Hn; try congruence; try exact I.
  apply Qnot_le_lt. intro Hle. apply Qle_bool_iff in Hle. congruence.
Qed.

Lemma float_gt_not_le x t : float_gt x t -> ~ float_le x t.
Proof.
  destruct x; simpl; try tauto. intros H1 H2. apply (Qlt_not_le _ _ H1 H2).
Qed.

Lemma segment_unknown_iff t x : income_segment_of t x = UNKNOWN_INCOME <-> x = NaN.
Proof.
  unfold income_segment_of.
  destruct x; simpl; try (destruct (Qle_bool _ _));
    split; intro H; try reflexivity; discriminate.
Qed.

Lemma segment_low_iff t x : income_segment_of t x = LOW_INCOME <-> float_le x t.
Proof.
  rewrite <- float_leb_spec. unfold income_segment_of.
  destruct x; simpl; try (destruct (Qle_bool _ _));
    split; intro H; try reflexivity; discriminate.
Qed.

Lemma segment_high_iff t x : income_segment_of t x = HIGH_INCOME <-> float_gt x t.
Proof.
  split.
  - unfold income_segment_of. destruct (isna x) eqn:Hna; [discriminate|].
    destruct (float_leb x t) eqn:Hle; [discriminate|]. intros _.
    apply float_leb_false; [assumption|]. intros ->. discriminate.
  - intro Hgt. pose proof (float_gt_not_le _ _ Hgt) as Hnle.
    rewrite <- float_leb_spec in Hnle. unfold income_segment_of.
    destruct x; simpl in *; try contradiction; try reflexivity.
    destruct (Qle_bool q (inject_Z t)); [exfalso; auto | reflexivity].
Qed.

(** C2. For every record of the enriched crime dataset and every integer
    threshold: the segment is Unknown iff per_capita_income is null;
    for a non-null income the segment is Low iff income <= threshold and
    High otherwise; every record gets exactly one of the three labels. *)
Theorem income_segment_partition :
  forall (income_threshold : Z) (crime_df : list (crime_record num)),
    Forall (fun w =>
      let x := per_capita_income (record w) in
      let s := income_segment w in
      (s = UNKNOWN_INCOME <-> x = NaN) /\
      (x <> NaN -> (s = LOW_INCOME <-> float_le x income_threshold) /\
                   (~ float_le x income_threshold -> s = HIGH_INCOME)) /\
      ((s = UNKNOWN_INCOME /\ s <> LOW_INCOME /\ s <> HIGH_INCOME) \/
       (s <> UNKNOWN_INCOME /\ s = LOW_INCOME /\ s <> HIGH_INCOME) \/
       (s <> UNKNOWN_INCOME /\ s <> LOW_INCOME /\ s = HIGH_INCOME)))
      (segment_by_income income_threshold crime_df) /\
    map (@record num) (segment_by_income income_threshold crime_df) = crime_df.
Proof.
  intros t df. split.
  - unfold segment_by_income. apply Forall_map. apply Forall_forall.
    intros r _. cbn -[income_segment_of].
    set (x := per_capita_income r).
    split; [apply segment_unknown_iff|]. split.
    + intros Hx. split; [apply segment_low_iff|].
      intros Hnle. unfold income_segment_of.
      destruct (isna x) eqn:Hna; [destruct x; simpl in *; congruence|].
      destruct (float_leb x t) eqn:Hle; [|reflexivity].
      apply float_leb_spec in Hle. contradiction.
    + unfold income_segment_of.
      destruct (isna x); [left | destruct (float_leb x t); [right; left | right; right]];
        repeat split; discriminate.
  - unfold segment_by_income. rewrite map_map. simpl. apply map_id.
Qed.

End Segmentation.

Section Thresholds.
Context {num : Type}.

(** C9. Segmenting keeps every record of the dataset, in its order.  A
    threshold at or above every known income classifies every
    known-income record of the dataset as Low; a threshold strictly
    below every known income classifies every known-income record of
    the dataset as High. *)
Theorem threshold_extremes :
  forall (income_threshold : Z) (crime_df : list (crime_record num)),
    map (@record num) (segment_by_income income_threshold crime_df) = crime_df /\
    (Forall (fun r => per_capita_income r <> NaN ->
                      float_le (per_capita_income r) income_threshold) crime_df ->
     Forall (fun w => per_capita_income (record w) <> NaN ->
                      income_segment w = LOW_INCOME)
            (segment_by_income income_threshold crime_df) /\
     forall r, In r crime_df -> per_capita_income r <> NaN ->
               In {| record := r; income_segment := LOW_INCOME |}
                  (segment_by_income income_threshold crime_df)) /\
    (Forall (fun r => per_capita_income r <> NaN ->
                      float_gt (per_capita_income r) income_threshold) crime_df ->
     Forall (fun w => per_capita_income (record w) <> NaN ->
                      income_segment w = HIGH_INCOME)
            (segment_by_income income_threshold crime_df) /\
     forall r, In r crime_df -> per_capita_income r <> NaN ->
               In {| record := r; income_segment := HIGH_INCOME |}
                  (segment_by_income income_threshold crime_df)).
Proof.
  intros t df. unfold segment_by_income. split; [|split]; [| |].
  - rewrite map_map. simpl. apply map_id.
  - intros Hall. split.
    + apply Forall_map. eapply Forall_impl; [|exact Hall].
      cbn -[income_segment_of]. intros r Hr Hknown. apply segment_low_iff. auto.
    + intros r Hr Hknown. rewrite Forall_forall in Hall.
      rewrite <- (proj2 (segment_low_iff t (per_capita_income r)) (Hall r Hr Hknown)).
      apply (in_map (fun r0 => {| record := r0;
                                  income_segment :=
                                    income_segment_of t (per_capita_income r0) |})).
      exact Hr.
  - intros Hall. split.
    + apply Forall_map. eapply Forall_impl; [|exact Hall].
      cbn -[income_segment_of]. intros r Hr Hknown. apply segment_high_iff. auto.
    + intros r Hr Hknown. rewrite Forall_forall in Hall.
      rewrite <- (proj2 (segment_high_iff t (per_capita_income r)) (Hall r Hr Hknown)).
      apply (in_map (fun r0 => {| record := r0;
                                  income_segment :=
                                    income_segment_of t (per_capita_income r0) |})).
      exact Hr.
Qed.

End Thresholds.

(** ** Facts about the SQL building blocks *)

Section Relational.
Context {A B K : Type}.
Variable eq_dec : forall x y : K, {x = y} + {x <> y}.

Lemma LEFT_JOIN_cons (on : A -> B -> bool) a l r :
  LEFT_JOIN on (a :: l) r = LEFT_JOIN on [a] r ++ LEFT_JOIN on l r.
Proof. unfold LEFT_JOIN. simpl. now rewrite app_nil_r. Qed.

Lemma LEFT_JOIN_one_fst (on : A -> B -> bool) a r :
  Forall (fun j => fst j = a) (LEFT_JOIN on [a] r).
Proof.
  unfold LEFT_JOIN. simpl. rewrite app_nil_r.
  destruct (filter (on a) r) as [|b ms].
  - repeat constructor.
  - apply Forall_forall. intros j Hj. change (In j (map (fun b => (a, Some b)) (b :: ms))) in Hj.
    apply in_map_iff in Hj. destruct Hj as [b' [<- _]]. reflexivity.
Qed.

Lemma LEFT_JOIN_one_nonempty (on : A -> B -> bool) a r :
  LEFT_JOIN on [a] r <> [].
Proof.
  unfold LEFT_JOIN. simpl. rewrite app_nil_r.
  destruct (filter (on a) r); discriminate.
Qed.


(** In a joined row the right side, when present, is a row of the
    right table that satisfies the join condition. *)
Lemma LEFT_JOIN_snd (on : A -> B -> bool) l r j b :
  In j (LEFT_JOIN on l r) -> snd j = Some b -> In b r /\ on (fst j) b = true.
Proof.
  unfold LEFT_JOIN. intros Hj Hb. apply in_flat_map in Hj.
  destruct Hj as [a [_ Hj]].
  destruct (filter (on a) r) as [|b0 ms] eqn:Hf.
  - destruct Hj as [<-|[]]. discriminate.
  - rewrite <- Hf in Hj. apply in_map_iff in Hj. destruct Hj as [b' [<- Hb']].
    simpl in *. injection Hb as <-. now apply filter_In in Hb'.
Qed.

Lemma LEFT_JOIN_fst_in (on : A -> B -> bool) l r j :
  In j (LEFT_JOIN on l r) -> In (fst j) l.
Proof.
  unfold LEFT_JOIN. intros Hj. apply in_flat_map in Hj.
  destruct Hj as [a [Ha Hj]].
  destruct (filter (on a) r) as [|b0 ms] eqn:Hf.
  - destruct Hj as [<-|[]]. assumption.
  - rewrite <- Hf in Hj. apply in_map_iff in Hj. destruct Hj as [b' [<- _]]. assumption.
Qed.

(** A filter on the left rows may be applied before or after the join. *)
Lemma LEFT_JOIN_filter_left (on : A -> B -> bool) (p : A -> bool) l r :
  filter (fun j => p (fst j)) (LEFT_JOIN on l r) = LEFT_JOIN on (filter p l) r.
Proof.
  assert (Hblock : forall a (js : list (A * option B)),
             Forall (fun j => fst j = a) js ->
             filter (fun j => p (fst j)) js = if p a then js else []).
  { intros a js Hfst. induction Hfst as [|j js Hj _ IHjs].
    - now destruct (p a).
    - simpl. rewrite IHjs, Hj. now destruct (p a). }
  induction l as [|a l IH]; [reflexivity|].
  rewrite LEFT_JOIN_cons, filter_app, IH.
  rewrite (Hblock a _ (LEFT_JOIN_one_fst on a r)).
  change (filter p (a :: l)) with (if p a then a :: filter p l else filter p l).
  destruct (p a); [|reflexivity].
  now rewrite (LEFT_JOIN_cons on a (filter p l) r).
Qed.

Lemma distinct_In (l : list K) k : In k (distinct eq_dec l) <-> In k l.
Proof.
  induction l as [|x l IH]; simpl; [tauto|].
  rewrite filter_In, IH. destruct (eq_dec k x) as [->|Hne]; split; intros H.
  - now left.
  - now left.
  - destruct H as [->|[H _]]; [now left | now right].
  - destruct H as [->|H]; [congruence | right; split; trivial].
Qed.

Lemma distinct_NoDup (l : list K) : NoDup (distinct eq_dec l).
Proof.
  induction l as [|x l IH]; simpl; constructor.
  - rewrite filter_In. intros [_ H]. destruct (eq_dec x x); [discriminate | congruence].
  - now apply NoDup_filter.
Qed.

Lemma filter_filter_same (p : K -> bool) (l : list K) :
  filter p (filter p l) = filter p l.
Proof.
  induction l as [|x l IH]; simpl; [reflexivity|].
  destruct (p x) eqn:Hp; simpl; [rewrite Hp|]; now rewrite IH.
Qed.

(** A run of equal keys counts as its first element. *)
Lemma distinct_block (k : K) (n : nat) (l : list K) :
  distinct eq_dec (repeat k (S n) ++ l) = distinct eq_dec (k :: l).
Proof.
  induction n as [|n IH]; [reflexivity|].
  change (repeat k (S (S n)) ++ l) with (k :: (repeat k (S n) ++ l)).
  change (distinct eq_dec (k :: repeat k (S n) ++ l))
    with (k :: filter (fun k' => if eq_dec k' k then false else true)
                      (distinct eq_dec (repeat k (S n) ++ l))).
  rewrite IH. simpl. destruct (eq_dec k k); [|congruence].
  now rewrite filter_filter_same.
Qed.

Lemma GROUP_BY_keys (key : A -> K) (l : list A) :
  map fst (GROUP_BY eq_dec key l) = distinct eq_dec (map key l).
Proof. unfold GROUP_BY. rewrite map_map. simpl. apply map_id. Qed.

(** Every group holds exactly the rows of its key, and is not empty. *)
Lemma GROUP_BY_group (key : A -> K) (l : list A) g :
  In g (GROUP_BY eq_dec key l) ->
  snd g = filter (fun a => if eq_dec (key a) (fst g) then true else false) l /\
  (exists a, In a (snd g)) /\
  (forall a, In a (snd g) -> In a l /\ key a = fst g).
Proof.
  unfold GROUP_BY. intros Hg. apply in_map_iff in Hg. destruct Hg as [k [<- Hk]].
  simpl. split; [reflexivity|]. apply (proj1 (distinct_In _ _)) in Hk.
  apply in_map_iff in Hk.
  destruct Hk as [a [Hka Ha]]. split.
  - exists a. apply filter_In. split; [assumption|]. now destruct (eq_dec (key a) k).
  - intros a' Ha'. apply filter_In in Ha'. destruct Ha' as [Hin Hk'].
    split; [assumption|]. now destruct (eq_dec (key a') k).
Qed.

End Relational.

(** ** Facts about sorting *)

Section Sorting.
Context {A : Type}.
Variable leb : A -> A -> bool.

Lemma insert_sorted_perm x l : Permutation (insert_sorted leb x l) (x :: l).
Proof.
  induction l as [|y l IH]; simpl; [reflexivity|].
  destruct (leb x y); [reflexivity|].
  rewrite IH. apply perm_swap.
Qed.

Lemma sort_by_perm l : Permutation (sort_by leb l) l.
Proof.
  induction l as [|x l IH]; simpl; [reflexivity|].
  rewrite insert_sorted_perm. now constructor.
Qed.

Lemma sort_by_In l x : In x (sort_by leb l) <-> In x l.
Proof.
  split; apply Permutation_in; [|symmetry]; apply sort_by_perm.
Qed.

Lemma sort_by_length l : List.length (sort_by leb l) = List.length l.
Proof. apply Permutation_length, sort_by_perm. Qed.

Hypothesis leb_total : forall a b, leb a b = true \/ leb b a = true.

Lemma insert_sorted_Sorted x l :
  Sorted (fun a b => leb a b = true) l ->
  Sorted (fun a b => leb a b = true) (insert_sorted leb x l).
Proof.
  induction l as [|y l IH]; simpl; intros Hs.
  - repeat constructor.
  - destruct (leb x y) eqn:Hxy.
    + constructor; [assumption|]. now constructor.
    + inversion Hs as [|? ? Hs' Hhd]; subst. constructor; [now apply IH|].
      destruct l as [|z l]; simpl.
      * constructor. destruct (leb_total x y); congruence.
      * destruct (leb x z).
        -- constructor. destruct (leb_total x y); congruence.
        -- inversion Hhd; subst. now constructor.
Qed.

Lemma sort_by_Sorted l : Sorted (fun a b => leb a b = true) (sort_by leb l).
Proof.
  induction l as [|x l IH]; simpl; [constructor|].
  now apply insert_sorted_Sorted.
Qed.

End Sorting.

(** ** The community aggregate *)

Section CommunityAggregate.
Context {num : Type} `{SqliteValue num}.





(** The keys of the groups: the distinct keys of the census rows that
    pass the WHERE clause, whatever the schools table holds. *)
Lemma socio_groups_keys (census : list (census_row num)) schools :
  map fst (socio_groups census schools)
  = distinct socio_key_eq_dec (map census_key (filter socio_where census)).
Proof.
  unfold socio_groups. rewrite GROUP_BY_keys, LEFT_JOIN_filter_left.
  induction (filter socio_where census) as [|c l IH]; [reflexivity|].
  rewrite LEFT_JOIN_cons, map_app.
  assert (Hblock : exists n, map socio_group_key (LEFT_JOIN socio_on [c] schools)
                             = repeat (census_key c) (S n)).
  { assert (Hrep : map socio_group_key (LEFT_JOIN socio_on [c] schools)
                   = repeat (census_key c)
                            (List.length (LEFT_JOIN socio_on [c] schools))).
    { pose proof (LEFT_JOIN_one_fst socio_on c schools) as Hfst.
      induction Hfst as [|j js Hj _ IHjs]; [reflexivity|].
      cbn [map List.length repeat]. rewrite IHjs.
      unfold socio_group_key at 1. now rewrite Hj. }
    pose proof (@LEFT_JOIN_one_nonempty _ _ socio_on c schools) as Hne.
    rewrite Hrep.
    destruct (LEFT_JOIN socio_on [c] schools) as [|j js]; [congruence|].
    now exists (List.length js). }
  destruct Hblock as [n ->]. rewrite distinct_block. simpl. now rewrite IH.
Qed.

Lemma socio_select_key g : selected_key (socio_select g) = fst g.
Proof.
  destruct g as [[[[id name] hardship] poverty] js]. reflexivity.
Qed.

(** The rows of the statement carry, each once, the distinct keys of
    the census rows that pass the WHERE clause. *)
Lemma socio_statement_keys (census : list (census_row num)) schools :
  Permutation (map selected_key (socio_statement census schools))
              (distinct socio_key_eq_dec (map census_key (filter socio_where census))).
Proof.
  unfold socio_statement. rewrite sort_by_perm, map_map.
  rewrite <- (socio_groups_keys census schools). apply Permutation_refl'.
  apply map_ext. intros g. apply socio_select_key.
Qed.







Lemma community_aggregate_ids (census : list (census_row num)) schools :
  map agg_community_area_number (community_aggregate census schools)
  = map (fun k : socio_key num => fst (fst (fst k)))
        (map selected_key (socio_statement census schools)).
Proof. unfold community_aggregate. now rewrite !map_map. Qed.

(** Every census row that passes the WHERE clause has its row. *)
Lemma community_aggregate_row_of (census : list (census_row num)) schools c :
  In c census -> socio_where c = true ->
  exists r, In r (community_aggregate census schools) /\
            agg_community_area_number r
              = CAST_AS_INTEGER (c_COMMUNITY_AREA_NUMBER c) /\
            agg_community_area_name r = c_COMMUNITY_AREA_NAME c.
Proof.
  intros Hc Hw.
  assert (Hk : In (census_key c)
                  (map selected_key (socio_statement census schools))).
  { apply (Permutation_in _ (Permutation_sym (socio_statement_keys census schools))).
    apply distinct_In. apply in_map. apply filter_In. auto. }
  apply in_map_iff in Hk. destruct Hk as [r [Hk Hr]].
  exists (socio_numeric r). split; [now apply in_map|].
  unfold selected_key, census_key in Hk. injection Hk as Hk1 Hk2 _ _.
  simpl. auto.
Qed.

(** C5 (amended). The rows of the community aggregate correspond one
    to one to the distinct grouping tuples (integer-coerced
    identifier, name, hardship, poverty) of the census rows that have
    an identifier and a name that is not blank.  Every such census row
    has its row; two of them with different coerced identifiers have
    different rows, whatever their other fields; and an identifier has
    a single row provided the census rows that carry it agree on name,
    hardship and poverty, as they do when identifiers are unique in
    the census table. *)
Theorem community_aggregate_one_row_per_group :
  forall (census : list (census_row num)) (schools : list (school_row num)),
    Permutation (map selected_key (socio_statement census schools))
                (distinct socio_key_eq_dec
                          (map census_key (filter socio_where census))) /\
    NoDup (map selected_key (socio_statement census schools)) /\
    List.length (community_aggregate census schools)
    = List.length (distinct socio_key_eq_dec
                            (map census_key (filter socio_where census))) /\
    (forall c, In c census -> socio_where c = true ->
       exists r, In r (community_aggregate census schools) /\
                 agg_community_area_number r
                   = CAST_AS_INTEGER (c_COMMUNITY_AREA_NUMBER c) /\
                 agg_community_area_name r = c_COMMUNITY_AREA_NAME c) /\
    (forall c1 c2,
       In c1 census -> In c2 census ->
       socio_where c1 = true -> socio_where c2 = true ->
       CAST_AS_INTEGER (c_COMMUNITY_AREA_NUMBER c1)
         <> CAST_AS_INTEGER (c_COMMUNITY_AREA_NUMBER c2) ->
       exists r1 r2,
         In r1 (community_aggregate census schools) /\
         In r2 (community_aggregate census schools) /\
         agg_community_area_number r1
           = CAST_AS_INTEGER (c_COMMUNITY_AREA_NUMBER c1) /\
         agg_community_area_number r2
           = CAST_AS_INTEGER (c_COMMUNITY_AREA_NUMBER c2) /\
         r1 <> r2) /\
    ((forall c1 c2,
        In c1 census -> In c2 census ->
        socio_where c1 = true -> socio_where c2 = true ->
        CAST_AS_INTEGER (c_COMMUNITY_AREA_NUMBER c1)
          = CAST_AS_INTEGER (c_COMMUNITY_AREA_NUMBER c2) ->
        census_key c1 = census_key c2) ->
     NoDup (map agg_community_area_number (community_aggregate census schools))).
Proof.
  intros census schools.
  pose proof (socio_statement_keys census schools) as Hperm.
  split; [exact Hperm|]. split; [|split; [|split; [|split]]].
  - apply (Permutation_NoDup (Permutation_sym Hperm)), distinct_NoDup.
  - unfold community_aggregate. rewrite length_map.
    rewrite <- (length_map selected_key). now apply Permutation_length.
  - intros c. apply community_aggregate_row_of.
  - intros c1 c2 H1 H2 Hw1 Hw2 Hne.
    destruct (community_aggregate_row_of census schools c1 H1 Hw1) as [r1 [Hr1 [Hid1 _]]].
    destruct (community_aggregate_row_of census schools c2 H2 Hw2) as [r2 [Hr2 [Hid2 _]]].
    exists r1, r2. repeat split; try assumption. intros ->. congruence.
  - intros Hdep. rewrite community_aggregate_ids.
    apply (Permutation_NoDup (Permutation_map _ (Permutation_sym Hperm))).
    apply NoDup_map_NoDup_ForallPairs; [|apply distinct_NoDup].
    intros k1 k2 Hk1 Hk2 Hid.
    apply (proj1 (distinct_In _ _ _)) in Hk1, Hk2.
    apply in_map_iff in Hk1, Hk2.
    destruct Hk1 as [c1 [<- Hc1]], Hk2 as [c2 [<- Hc2]].
    apply filter_In in Hc1, Hc2. destruct Hc1 as [Hc1 Hw1], Hc2 as [Hc2 Hw2].
    apply Hdep; assumption.
Qed.

Lemma non_null_case {X} (f : X -> option num) (js : list X) :
  non_null (map (fun j => if IS_NOT_NULL (f j) then option_map REAL (f j) else None) js)
  = map REAL (non_null (map f js)).
Proof.
  induction js as [|j js IH]; simpl; [reflexivity|].
  destruct (f j); simpl; now rewrite IH.
Qed.

Lemma COUNT_non_null {X} (col : list (option X)) :
  COUNT col = List.length (non_null col).
Proof.
  unfold COUNT. induction col as [|[x|] col IH]; simpl; auto.
Qed.

Lemma non_null_nil {X} (col : list (option X)) :
  non_null col = [] <-> Forall (fun x => x = None) col.
Proof.
  induction col as [|[x|] col IH]; simpl.
  - split; constructor.
  - split; [discriminate|]. intros Hall. inversion Hall. discriminate.
  - rewrite IH. split; [now constructor|]. intros Hall. now inversion Hall.
Qed.

(** What the SELECT list computes on a group. *)
Lemma socio_select_aggregates g :
  agg_avg_safety_score (socio_numeric (socio_select g))
  = match non_null (map joined_SAFETY_SCORE (snd g)) with
    | [] => NaN
    | xs => Finite (Qsum (map REAL xs) / inject_Z (Z.of_nat (List.length xs)))
    end /\
  agg_school_count (socio_numeric (socio_select g))
  = List.length (non_null (map joined_School_ID (snd g))).
Proof.
  destruct g as [[[[id name] hardship] poverty] js]. simpl. split.
  - unfold AVG. rewrite non_null_case.
    destruct (non_null (map joined_SAFETY_SCORE js)) as [|x xs]; [reflexivity|].
    simpl. now rewrite length_map.
  - apply COUNT_non_null.
Qed.

(** The schools joined into a group belong to the group's community. *)
Lemma socio_groups_school (census : list (census_row num)) schools g j s :
  In g (socio_groups census schools) -> In j (snd g) -> snd j = Some s ->
  In s schools /\
  CAST_AS_INTEGER (s_COMMUNITY_AREA_NUMBER s) = fst (fst (fst (fst g))).
Proof.
  unfold socio_groups. intros Hg Hj Hs.
  destruct (GROUP_BY_group _ _ _ _ Hg) as [_ [_ Hrows]].
  destruct (Hrows j Hj) as [Hin Hkey]. apply filter_In in Hin.
  destruct Hin as [Hin _].
  destruct (LEFT_JOIN_snd _ _ _ _ Hin Hs) as [Hschool Hon].
  split; [assumption|]. rewrite <- Hkey. unfold socio_group_key, census_key. simpl.
  unfold socio_on, sql_eqb in Hon.
  destruct (CAST_AS_INTEGER (s_COMMUNITY_AREA_NUMBER s)) as [a|]; [|discriminate].
  destruct (CAST_AS_INTEGER (c_COMMUNITY_AREA_NUMBER (fst j))) as [b|]; [|discriminate].
  apply Z.eqb_eq in Hon. now subst.
Qed.

Lemma community_aggregate_group (census : list (census_row num)) schools r :
  In r (community_aggregate census schools) ->
  exists g, In g (socio_groups census schools) /\
            r = socio_numeric (socio_select g) /\
            agg_community_area_number r = fst (fst (fst (fst g))).
Proof.
  unfold community_aggregate, socio_statement. intros Hr.
  apply in_map_iff in Hr. destruct Hr as [q [<- Hq]].
  apply sort_by_In in Hq. apply in_map_iff in Hq. destruct Hq as [g [<- Hg]].
  exists g. split; [assumption|]. split; [reflexivity|].
  now destruct g as [[[[id name] hardship] poverty] js].
Qed.

(** C3 (amended). In every row of the community aggregate the average
    safety score is the mean of the non-null safety scores joined into
    the row's group, and null when there is none; school_count counts
    the joined school rows that have a School_ID.  A community whose
    schools all have a null safety score gets a null average, not
    zero.  When every row of the schools table has a School_ID,
    school_count = 0 implies a null average. *)
Theorem avg_safety_score_null_without_scores :
  forall (census : list (census_row num)) (schools : list (school_row num)),
    Forall (fun r =>
              exists g, In g (socio_groups census schools) /\
                r = socio_numeric (socio_select g) /\
                agg_avg_safety_score r
                = match non_null (map joined_SAFETY_SCORE (snd g)) with
                  | [] => NaN
                  | xs => Finite (Qsum (map REAL xs)
                                  / inject_Z (Z.of_nat (List.length xs)))
                  end /\
                agg_school_count r
                = List.length (non_null (map joined_School_ID (snd g))))
           (community_aggregate census schools) /\
    Forall (fun r =>
              (forall s, In s schools ->
                         CAST_AS_INTEGER (s_COMMUNITY_AREA_NUMBER s)
                           = agg_community_area_number r ->
                         s_SAFETY_SCORE s = None) ->
              agg_avg_safety_score r = NaN)
           (community_aggregate census schools) /\
    ((forall s, In s schools -> s_School_ID s <> None) ->
     Forall (fun r => agg_school_count r = 0 -> agg_avg_safety_score r = NaN)
            (community_aggregate census schools)).
Proof.
  intros census schools. split; [|split].
  - apply Forall_forall. intros r Hr.
    destruct (community_aggregate_group _ _ _ Hr) as [g [Hg [-> _]]].
    exists g. split; [assumption|]. split; [reflexivity|].
    apply socio_select_aggregates.
  - apply Forall_forall. intros r Hr Hnull.
    destruct (community_aggregate_group _ _ _ Hr) as [g [Hg [Hrg Hid]]].
    rewrite Hrg, (proj1 (socio_select_aggregates g)).
    assert (Hnone : non_null (map joined_SAFETY_SCORE (snd g)) = []).
    { apply non_null_nil. apply Forall_map. apply Forall_forall. intros j Hj.
      unfold joined_SAFETY_SCORE. destruct (snd j) as [s|] eqn:Hs; [|reflexivity].
      destruct (socio_groups_school _ _ _ _ Hg Hj Hs) as [Hschool Hcast].
      apply Hnull; [assumption|]. now rewrite Hid. }
    now rewrite Hnone.
  - intros Hids. apply Forall_forall. intros r Hr Hcount.
    destruct (community_aggregate_group _ _ _ Hr) as [g [Hg [Hrg _]]].
    rewrite Hrg in *. rewrite (proj1 (socio_select_aggregates g)).
    rewrite (proj2 (socio_select_aggregates g)) in Hcount.
    apply length_zero_iff_nil in Hcount. apply non_null_nil in Hcount.
    assert (Hnone : non_null (map joined_SAFETY_SCORE (snd g)) = []).
    { apply non_null_nil. apply Forall_map. apply Forall_forall. intros j Hj.
      rewrite Forall_map, Forall_forall in Hcount. specialize (Hcount j Hj).
      unfold joined_SAFETY_SCORE, joined_School_ID in *.
      destruct (snd j) as [s|] eqn:Hs; [|reflexivity].
      destruct (socio_groups_school _ _ _ _ Hg Hj Hs) as [Hschool _].
      exfalso. exact (Hids s Hschool Hcount). }
    now rewrite Hnone.
Qed.

End CommunityAggregate.

(** ** The enriched crime dataset *)

Section EnrichedCrime.
Context {num : Type} `{SqliteValue num}.

Lemma enriched_crime_cons cr crime (census : list (census_row num)) :
  enriched_crime (cr :: crime) census
  = enriched_crime [cr] census ++ enriched_crime crime census.
Proof.
  unfold enriched_crime, crime_statement.
  rewrite LEFT_JOIN_cons, filter_app, !map_app. reflexivity.
Qed.

Lemma enriched_crime_one cr (census : list (census_row num)) :
  enriched_crime [cr] census
  = if IS_NOT_NULL (cr_COMMUNITY_AREA_NUMBER cr)
    then map (fun j => crime_numeric (crime_select j)) (LEFT_JOIN crime_on [cr] census)
    else [].
Proof.
  unfold enriched_crime, crime_statement.
  rewrite (LEFT_JOIN_filter_left crime_on
             (fun cr => IS_NOT_NULL (cr_COMMUNITY_AREA_NUMBER cr))).
  simpl. destruct (IS_NOT_NULL (cr_COMMUNITY_AREA_NUMBER cr)); [|reflexivity].
  now rewrite map_map.
Qed.


End EnrichedCrime.

(** ** Counting by groups *)

Section Counting.
Context {A K : Type}.
Variable eq_dec : forall x y : K, {x = y} + {x <> y}.
Variable key : A -> K.

Lemma list_sum_zero {X} (l : list X) : list_sum (map (fun _ => 0) l) = 0.
Proof. induction l; simpl; auto. Qed.

Lemma list_sum_plus {X} (f g : X -> nat) (l : list X) :
  list_sum (map (fun x => f x + g x) l) = list_sum (map f l) + list_sum (map g l).
Proof. induction l as [|x l IH]; simpl; [reflexivity|]. rewrite IH. lia. Qed.

Lemma filter_map_comm {X Y} (p : Y -> bool) (f : X -> Y) (l : list X) :
  filter p (map f l) = map f (filter (fun x => p (f x)) l).
Proof.
  induction l as [|x l IH]; simpl; [reflexivity|].
  destruct (p (f x)); simpl; now rewrite IH.
Qed.

(** A key of a duplicate-free list is counted once. *)
Lemma indicator_sum (q : K -> bool) (x : K) (l : list K) :
  NoDup l -> In x l ->
  list_sum (map (fun k => if eq_dec x k then 1 else 0) (filter q l))
  = if q x then 1 else 0.
Proof.
  induction l as [|k l IH]; intros Hnd Hin; [destruct Hin|].
  inversion Hnd as [|? ? Hk Hnd']; subst.
  assert (Hrest : ~ In x l ->
            list_sum (map (fun k => if eq_dec x k then 1 else 0) (filter q l)) = 0).
  { clear. intros Hx. induction l as [|k l IH]; [reflexivity|].
    simpl. assert (Hx' : ~ In x l) by (intros Hf; apply Hx; now right).
    destruct (q k); simpl; [|now apply IH].
    destruct (eq_dec x k) as [->|_]; [exfalso; apply Hx; now left|].
    now apply IH. }
  simpl. destruct (eq_dec x k) as [->|Hne].
  - destruct (q k); simpl.
    + destruct (eq_dec k k); [|congruence]. now rewrite Hrest.
    + now apply Hrest.
  - destruct Hin as [->|Hin]; [congruence|].
    destruct (q k); simpl; [|now apply IH].
    destruct (eq_dec x k); [congruence|]. now apply IH.
Qed.

(** The sizes of the groups of the selected keys add up to the number
    of rows with a selected key. *)
Lemma group_sizes_sum (q : K -> bool) (ks : list K) (df : list A) :
  NoDup ks -> (forall a, In a df -> In (key a) ks) ->
  list_sum (map (fun k => List.length
                            (filter (fun a => if eq_dec (key a) k then true else false) df))
                (filter q ks))
  = List.length (filter (fun a => q (key a)) df).
Proof.
  intros Hnd. induction df as [|a df IH]; intros Hks.
  - simpl. apply list_sum_zero.
  - rewrite (map_ext
               (fun k => List.length
                           (filter (fun a0 => if eq_dec (key a0) k then true else false)
                                   (a :: df)))
               (fun k => (if eq_dec (key a) k then 1 else 0)
                         + List.length
                             (filter (fun a0 => if eq_dec (key a0) k then true else false)
                                     df))).
    + rewrite list_sum_plus, indicator_sum, IH; auto.
      * simpl. destruct (q (key a)); reflexivity.
      * intros a' Ha'. apply Hks. now right.
      * apply Hks. now left.
    + intros k. simpl. destruct (eq_dec (key a) k); reflexivity.
Qed.

End Counting.

Section StronglySortedFacts.
Context {X : Type}.

Lemma StronglySorted_app_inv (R : X -> X -> Prop) l1 l2 :
  StronglySorted R (l1 ++ l2) ->
  StronglySorted R l1 /\ StronglySorted R l2 /\
  forall a b, In a l1 -> In b l2 -> R a b.
Proof.
  induction l1 as [|x l1 IH]; simpl; intros Hs.
  - split; [constructor|]. split; [assumption|]. intros a b [].
  - inversion Hs as [|? ? Hs' Hall]; subst.
    destruct (IH Hs') as [H1 [H2 H12]]. apply Forall_app in Hall.
    destruct Hall as [Hall1 Hall2]. split; [now constructor|].
    split; [assumption|]. intros a b [<-|Ha] Hb.
    + rewrite Forall_forall in Hall2. now apply Hall2.
    + now apply H12.
Qed.

Lemma StronglySorted_map_in {Y} (R : X -> X -> Prop) (R' : Y -> Y -> Prop)
    (f : X -> Y) l :
  (forall a b, In a l -> In b l -> R a b -> R' (f a) (f b)) ->
  StronglySorted R l -> StronglySorted R' (map f l).
Proof.
  intros Hf Hs. induction Hs as [|a l Hs IH Hall]; simpl; [constructor|].
  constructor.
  - apply IH. intros x y Hx Hy. apply Hf; now right.
  - apply Forall_map. rewrite Forall_forall in *. intros b Hb.
    apply Hf; [now left | now right | now apply Hall].
Qed.

End StronglySortedFacts.

(** ** The ranking of crime types *)

Section Ranking.
Context {num : Type}.

Lemma count_geb_total a b : count_geb a b = true \/ count_geb b a = true.
Proof. unfold count_geb. rewrite !Nat.leb_le. lia. Qed.

(** The stable sorter meets the contract of [sort_values]. *)
Lemma sort_values_stable_sorts : sorts_descending sort_values_stable.
Proof.
  intros s. unfold sort_values_stable. split; [apply sort_by_perm|].
  pose proof (sort_by_Sorted count_geb count_geb_total s) as Hs.
  induction Hs as [|a l Hs IH Hhd]; constructor; [assumption|].
  destruct Hhd as [|b l Hab]; constructor.
  unfold count_geb in Hab. now apply Nat.leb_le in Hab.
Qed.

(** The keys of [grouped] are the [(segment, type)] pairs of the rows. *)
Lemma grouped_types (df : list (segmented num)) t :
  In t (map g_primary_type (grouped df))
  <-> In t (map (fun w => primary_type (record w)) df).
Proof.
  unfold grouped, groupby. rewrite !map_map. simpl. rewrite !in_map_iff. split.
  - intros [k [<- Hk]]. apply sort_by_In in Hk.
    apply (proj1 (distinct_In _ _ _)) in Hk. apply in_map_iff in Hk.
    destruct Hk as [w [<- Hw]]. now exists w.
  - intros [w [<- Hw]]. exists (income_segment w, primary_type (record w)).
    split; [reflexivity|]. apply sort_by_In. apply distinct_In.
    now apply (in_map (fun w => (income_segment w, primary_type (record w)))).
Qed.

(** The summed count of a crime type is its frequency among the rows. *)
Lemma grouped_sum (df : list (segmented num)) t :
  list_sum (map crime_count
                (filter (fun g => if string_dec (g_primary_type g) t then true else false)
                        (grouped df)))
  = frequency df t.
Proof.
  unfold grouped, groupby. rewrite map_map, filter_map_comm, map_map. simpl.
  rewrite (group_sizes_sum pair_eq_dec
             (fun w => (income_segment w, primary_type (record w)))
             (fun k => if string_dec (snd k) t then true else false)).
  - unfold frequency. f_equal. apply filter_ext. intros w. simpl.
    destruct (string_dec (primary_type (record w)) t) as [->|Hne].
    + now rewrite String.eqb_refl.
    + symmetry. now apply String.eqb_neq.
  - apply (Permutation_NoDup (Permutation_sym (sort_by_perm _ _))), distinct_NoDup.
  - intros w Hw. apply sort_by_In, distinct_In.
    now apply (in_map (fun w => (income_segment w, primary_type (record w)))).
Qed.

(** The series handed to [sort_values]: one entry per crime type of the
    rows, with its frequency. *)
Lemma crime_count_sum_spec (df : list (segmented num)) :
  crime_count_sum (grouped df)
  = map (fun t => (t, frequency df t))
        (sort_by String.leb
                 (distinct string_dec (map g_primary_type (grouped df)))).
Proof.
  unfold crime_count_sum, groupby. rewrite map_map. apply map_ext. intros t.
  simpl. now rewrite grouped_sum.
Qed.

Lemma series_types (df : list (segmented num)) :
  Permutation (map fst (crime_count_sum (grouped df)))
              (distinct string_dec (map (fun w => primary_type (record w)) df)).
Proof.
  rewrite crime_count_sum_spec, map_map. simpl. rewrite map_id.
  apply NoDup_Permutation.
  - apply (Permutation_NoDup (Permutation_sym (sort_by_perm _ _))), distinct_NoDup.
  - apply distinct_NoDup.
  - intros t. rewrite sort_by_In, !distinct_In. apply grouped_types.
Qed.

Lemma series_counts (df : list (segmented num)) e :
  In e (crime_count_sum (grouped df)) -> snd e = frequency df (fst e).
Proof.
  rewrite crime_count_sum_spec. intros He. apply in_map_iff in He.
  now destruct He as [t [<- _]].
Qed.

Lemma frequency_positive (df : list (segmented num)) t :
  0 < frequency df t <-> In t (map (fun w => primary_type (record w)) df).
Proof.
  unfold frequency. induction df as [|w df IH]; simpl; [lia|].
  destruct (String.eqb_spec (primary_type (record w)) t) as [->|Hne]; simpl.
  - split; [now left | lia].
  - rewrite IH. split; [now right|]. intros [Heq|Hin]; [congruence | assumption].
Qed.

Lemma count_ge_trans : Relations_1.Transitive count_ge.
Proof. intros a b c Hab Hbc. unfold count_ge in *. lia. Qed.

(** C6 (amended). With any sort that meets the contract of
    [sort_values(ascending=False)], for every set of records and every
    [top_n]: the ranking returns [min top_n d] values, where [d] is the
    number of distinct crime types of the records, hence at most
    [top_n]; they are distinct crime types of the records, in descending
    order of frequency, and each is at least as frequent as every value
    left out.  The order of values of equal frequency is left to the
    sort, which receives the frequencies of the crime types listed in
    ascending order of the type: the order of the records is gone. *)
Theorem top_crimes_ranking :
  forall sort_values : series_sorter,
    sorts_descending sort_values ->
    forall (compare_df : list (segmented num)) (top_n : nat),
      (exists types,
          Sorted (fun a b => String.leb a b = true) types /\
          top_crimes sort_values compare_df top_n
          = map fst (firstn top_n
                       (sort_values
                          (map (fun t => (t, frequency compare_df t)) types)))) /\
      List.length (top_crimes sort_values compare_df top_n)
      = Nat.min top_n
          (List.length (distinct string_dec
                          (map (fun w => primary_type (record w)) compare_df))) /\
      List.length (top_crimes sort_values compare_df top_n) <= top_n /\
      NoDup (top_crimes sort_values compare_df top_n) /\
      (forall t, In t (top_crimes sort_values compare_df top_n) ->
                 In t (map (fun w => primary_type (record w)) compare_df)) /\
      StronglySorted (fun a b => frequency compare_df b <= frequency compare_df a)
                     (top_crimes sort_values compare_df top_n) /\
      (forall a b,
          In a (top_crimes sort_values compare_df top_n) ->
          ~ In b (top_crimes sort_values compare_df top_n) ->
          frequency compare_df b <= frequency compare_df a).
Proof.
  intros sort_values Hsort df n. unfold top_crimes. split.
  { exists (sort_by String.leb
                    (distinct string_dec (map g_primary_type (grouped df)))).
    split; [apply sort_by_Sorted, String.leb_total|].
    now rewrite crime_count_sum_spec. }
  set (series := crime_count_sum (grouped df)).
  destruct (Hsort series) as [Hperm Hsorted].
  set (sorted := sort_values series) in *.
  assert (Htypes : Permutation (map fst sorted)
                     (distinct string_dec (map (fun w => primary_type (record w)) df))).
  { rewrite <- (series_types df). now apply Permutation_map. }
  assert (Hcounts : forall e, In e sorted -> snd e = frequency df (fst e)).
  { intros e He. apply series_counts. now apply (Permutation_in _ Hperm). }
  assert (Hss : StronglySorted count_ge sorted).
  { apply Sorted_StronglySorted; [apply count_ge_trans | assumption]. }
  pose proof (firstn_skipn n sorted) as Hsplit.
  rewrite <- Hsplit in Hss. apply StronglySorted_app_inv in Hss.
  destruct Hss as [Hhead [_ Hcross]].
  assert (Hsub : forall e, In e (firstn n sorted) -> In e sorted).
  { intros e He. rewrite <- Hsplit. apply in_or_app. now left. }
  assert (Hlen : List.length (map fst (firstn n sorted))
                 = Nat.min n (List.length (distinct string_dec
                                 (map (fun w => primary_type (record w)) df)))).
  { rewrite length_map, length_firstn. f_equal.
    rewrite <- (Permutation_length Htypes). now rewrite length_map. }
  split; [exact Hlen|]. split; [rewrite Hlen; apply Nat.le_min_l|].
  split; [|split; [|split]].
  - assert (Hnd : NoDup (map fst sorted)).
    { apply (Permutation_NoDup (Permutation_sym Htypes)), distinct_NoDup. }
    rewrite <- Hsplit, map_app in Hnd. now apply NoDup_app_remove_r in Hnd.
  - intros t Ht. apply in_map_iff in Ht. destruct Ht as [e [<- He]].
    apply (proj1 (distinct_In string_dec _ _)).
    apply (Permutation_in _ Htypes). apply in_map. now apply Hsub.
  - apply StronglySorted_map_in with (R := count_ge); [|assumption].
    intros a b Ha Hb Hab. unfold count_ge in Hab.
    now rewrite <- (Hcounts a (Hsub a Ha)), <- (Hcounts b (Hsub b Hb)).
  - intros a b Ha Hb. apply in_map_iff in Ha. destruct Ha as [ea [<- Hea]].
    destruct (in_dec string_dec b (map (fun w => primary_type (record w)) df))
      as [Hin|Hout].
    + assert (Hb' : In b (map fst sorted)).
      { apply (Permutation_in _ (Permutation_sym Htypes)). now apply distinct_In. }
      apply in_map_iff in Hb'. destruct Hb' as [eb [<- Heb]].
      rewrite <- (Hcounts eb Heb), <- (Hcounts ea (Hsub ea Hea)).
      rewrite <- Hsplit in Heb. apply in_app_or in Heb. destruct Heb as [Heb|Heb].
      * exfalso. apply Hb. now apply in_map.
      * exact (Hcross ea eb Hea Heb).
    + assert (frequency df b = 0); [|lia].
      destruct (frequency df b) eqn:Hf; [reflexivity|].
      exfalso. apply Hout. apply frequency_positive. lia.
Qed.

End Ranking.

(** The ranking on four records of two crime types. *)
Lemma top_crimes_ranking_witness :
  sorts_descending sort_values_stable /\
  List.length (top_crimes sort_values_stable theft_then_assault 1) <= 1 /\
  top_crimes sort_values_stable theft_then_assault 1 = ["ASSAULT"].
Proof.
  split; [exact sort_values_stable_sorts|]. split.
  - exact (proj1 (proj2 (proj2 (top_crimes_ranking sort_values_stable_sorts
                                                    theft_then_assault 1)))).
  - reflexivity.
Defined.

(** ** The loaders on missing and empty tables *)

Section Loaders.
Context {num : Type} `{SqliteValue num}.

Lemma enriched_crime_no_census (crime : list (crime_row num)) :
  List.length (enriched_crime crime [])
  = List.length (filter (fun cr => IS_NOT_NULL (cr_COMMUNITY_AREA_NUMBER cr)) crime).
Proof.
  induction crime as [|cr crime IH]; [reflexivity|].
  rewrite enriched_crime_cons, length_app, IH, enriched_crime_one. simpl.
  destruct (IS_NOT_NULL (cr_COMMUNITY_AREA_NUMBER cr)); reflexivity.
Qed.

(** C8 (amended). When the tables a view builder reads are present, the
    call does not raise and returns the rows of its statement; when
    moreover the table that drives its left join is empty (CENSUS_DATA
    for the community aggregate, CHICAGO_CRIME_DATA for the enriched
    crime dataset), it returns an empty frame.  An empty census table
    leaves in the enriched crime dataset one row for every crime that
    has a community identifier. *)
Theorem view_builders_on_present_tables :
  forall (db : database num) census,
    CENSUS_DATA db = Some census ->
    (forall schools,
        CHICAGO_PUBLIC_SCHOOLS db = Some schools ->
        load_socioeducation_dataset db
        = inr (Frame (community_aggregate census schools)) /\
        (census = [] -> load_socioeducation_dataset db = inr (Frame []))) /\
    (forall crime,
        CHICAGO_CRIME_DATA db = Some crime ->
        load_crime_dataset db = inr (Frame (enriched_crime crime census)) /\
        (crime = [] -> load_crime_dataset db = inr (Frame [])) /\
        (census = [] ->
         List.length (enriched_crime crime census)
         = List.length (filter (fun cr => IS_NOT_NULL (cr_COMMUNITY_AREA_NUMBER cr))
                               crime))).
Proof.
  intros db census Hc.
  unfold load_socioeducation_dataset, load_crime_dataset, run_query,
    socio_query, crime_query.
  rewrite Hc. split.
  - intros schools ->. split; [reflexivity|]. intros ->. reflexivity.
  - intros crime ->. split; [reflexivity|]. split.
    + intros ->. reflexivity.
    + intros ->. apply enriched_crime_no_census.
Qed.

End Loaders.

(** Both loaders on a database with all three tables. *)
Lemma view_builders_on_present_tables_witness :
  load_socioeducation_dataset full_database
  = inr (Frame (community_aggregate
                  [oak_park; lake_view]
                  [school_of (Some 10%Z) 1 (Some 50%Z); school_of (Some 11%Z) 1 None])) /\
  load_crime_dataset full_database
  = inr (Frame (enriched_crime some_crimes [oak_park; lake_view])).
Proof.
  destruct (view_builders_on_present_tables full_database
              (census := [oak_park; lake_view]) eq_refl) as [Hsocio Hcrime].
  split.
  - exact (proj1 (Hsocio _ eq_refl)).
  - exact (proj1 (Hcrime _ eq_refl)).
Defined.

(** C8, counterexample. With an empty census table the enriched crime
    dataset is not empty: the four crimes that have a community
    identifier are returned, without census fields.  With the tables
    missing, the loader raises KeyError. *)
Lemma view_builders_counterexample :
  (CENSUS_DATA empty_census = Some [] /\
   exists rows, load_crime_dataset empty_census = inr (Frame rows) /\
                List.length rows = 4) /\
  (CENSUS_DATA no_tables = None /\
   load_socioeducation_dataset no_tables
   = inl {| exc_class := KeyError; exc_msg := "community_area_number" |} /\
   load_crime_dataset no_tables
   = inl {| exc_class := KeyError; exc_msg := "community_area_number" |}).
Proof.
  split.
  - split; [reflexivity|]. eexists. split; reflexivity.
  - repeat split; reflexivity.
Qed.

(** ** The report runner *)

Section ReportRunner.
Context {R : Type}.
Variable engine : sql_engine R.

Lemma executed_bind {A B} (m : run R A) (k : A -> run R B) a :
  snd m = inr a ->
  snd (bind m k) = snd (k a) /\
  executed (bind m k) = executed m ++ executed (k a).
Proof.
  destruct m as [out r]. simpl. intros ->. simpl.
  destruct (k a) as [out' r'] eqn:Hk. simpl. split; [reflexivity|].
  unfold executed. simpl. now rewrite flat_map_app.
Qed.

(** A problem whose statement raises nothing but [sqlite3.Error] ends
    normally, having sent its statement. *)
Lemma problem_recovers n q title :
  (forall e, engine q = inl e -> isinstance_sqlite3_Error e = true) ->
  snd (problem engine n q title) = inr tt /\
  executed (problem engine n q title) = [q].
Proof.
  intros Hcaught. unfold problem, execute_query, display_results.
  destruct (engine q) as [e|df] eqn:Hq.
  - rewrite (Hcaught e eq_refl). split; reflexivity.
  - unfold bind, emit, ret. simpl. destruct (empty df); split; reflexivity.
Qed.

(** A problem whose statement raises another exception ends the run. *)
Lemma problem_propagates n q title e :
  engine q = inl e -> isinstance_sqlite3_Error e = false ->
  problem engine n q title = ([read_sql q], inl e).
Proof.
  intros Hq He. unfold problem, execute_query. now rewrite Hq, He.
Qed.

(** What [except Error] achieves: when the engine raises nothing but
    [sqlite3.Error], the ten statements are all sent and the run ends
    normally. *)
Lemma run_analysis_recovers :
  (forall q e, engine q = inl e -> isinstance_sqlite3_Error e = true) ->
  snd (run_analysis engine) = inr tt /\
  executed (run_analysis engine) = all_statements.
Proof.
  intros Hcaught. unfold run_analysis.
  assert (Hstep : forall n q title (k : unit -> run R unit) rest,
             snd (k tt) = inr tt /\ executed (k tt) = rest ->
             snd (bind (problem engine n q title) k) = inr tt /\
             executed (bind (problem engine n q title) k) = q :: rest).
  { intros n q title k rest [Hk1 Hk2].
    destruct (problem_recovers n title (Hcaught q)) as [Hp1 Hp2].
    destruct (executed_bind (problem engine n q title) k Hp1) as [Hb1 Hb2].
    rewrite Hb1, Hb2, Hp2, Hk1, Hk2. split; reflexivity. }
  assert (Hfirst : forall (k : unit -> run R unit) rest,
             snd (k tt) = inr tt /\ executed (k tt) = rest ->
             snd (bind (emit (print_banner "RUNNING SQL ANALYSIS PROBLEMS")) k) = inr tt /\
             executed (bind (emit (print_banner "RUNNING SQL ANALYSIS PROBLEMS")) k)
             = rest).
  { intros k rest [Hk1 Hk2].
    destruct (executed_bind (emit (print_banner "RUNNING SQL ANALYSIS PROBLEMS")) k
                            (a := tt) eq_refl) as [Hb1 Hb2].
    rewrite Hb1, Hb2, Hk1, Hk2. split; reflexivity. }
  apply Hfirst. unfold all_statements. repeat apply Hstep.
  split; reflexivity.
Qed.

End ReportRunner.

(** C1, the run on a database without the schools table.
    [pd.read_sql_query] raises pandas' DatabaseError on statement 6;
    [except Error] does not catch it: the run ends with that exception
    after the sixth statement, statements 7 to 10 are never sent and
    problem 6 is not reported. *)
Theorem run_analysis_aborts_on_missing_table :
  run_analysis (pd_read_sql_query without_schools (fun _ : statement => [tt]))
  = ([print_banner "RUNNING SQL ANALYSIS PROBLEMS";
      read_sql query1;
      print_problem 1 "Find the total number of crimes recorded";
      print_result (Frame [tt]);
      read_sql query2;
      print_problem 2 "Community areas with per capita income < $11,000";
      print_result (Frame [tt]);
      read_sql query3;
      print_problem 3 "Crime case numbers involving minors";
      print_result (Frame [tt]);
      read_sql query4;
      print_problem 4 "Kidnapping crimes involving a child";
      print_result (Frame [tt]);
      read_sql query5;
      print_problem 5 "Types of crimes recorded at schools";
      print_result (Frame [tt]);
      read_sql query6],
     inl (no_such_table "CHICAGO_PUBLIC_SCHOOLS")) /\
  isinstance_sqlite3_Error (no_such_table "CHICAGO_PUBLIC_SCHOOLS") = false /\
  executed (run_analysis (pd_read_sql_query without_schools
                                            (fun _ : statement => [tt])))
  = [query1; query2; query3; query4; query5; query6].
Proof. repeat split; reflexivity. Qed.

(** ** Problems 8 and 10 *)

Section MostCrimeProne.
Context {num : Type} `{SqliteValue num}.

(** Sorting commutes with a projection that preserves the order. *)
Lemma sort_by_map {X Y} (f : X -> Y) (leb : X -> X -> bool) (leb' : Y -> Y -> bool) l :
  (forall a b, leb' (f a) (f b) = leb a b) ->
  map f (sort_by leb l) = sort_by leb' (map f l).
Proof.
  intros Hf. induction l as [|x l IH]; [reflexivity|].
  simpl. rewrite <- IH. generalize (sort_by leb l). intros s.
  induction s as [|y s IHs]; [reflexivity|].
  simpl. rewrite Hf. destruct (leb x y); simpl; [reflexivity|]. now rewrite IHs.
Qed.

(** Both statements select the same community: the subquery of
    problem 10 returns the number that problem 8 returns. *)
Lemma query10_subquery_is_query8 (crime : list (crime_row num)) :
  query10_subquery crime = map fst (query8_statement crime).
Proof.
  unfold query10_subquery, query8_statement, LIMIT.
  rewrite <- firstn_map. f_equal.
  rewrite <- (sort_by_map (fun g : option num * list (crime_row num) =>
                             (fst g, List.length (snd g)))
                          (fun a b => Nat.leb (List.length (snd b)) (List.length (snd a)))
                          (fun a b => Nat.leb (snd b) (snd a))).
  - now rewrite map_map.
  - reflexivity.
Qed.

Lemma query8_one_row (crime : list (crime_row num)) :
  List.length (query8_statement crime) <= 1 /\
  Forall (fun r => fst r <> None /\ 0 < snd r) (query8_statement crime).
Proof.
  unfold query8_statement, LIMIT. split; [apply firstn_le_length|].
  apply Forall_forall. intros r Hr.
  eapply or_introl in Hr. apply in_or_app in Hr. rewrite firstn_skipn in Hr.
  apply sort_by_In in Hr. apply in_map_iff in Hr. destruct Hr as [g [<- Hg]].
  unfold crimes_by_community in Hg.
  destruct (GROUP_BY_group _ _ _ _ Hg) as [_ [[cr Hcr] Hrows]].
  destruct (Hrows cr Hcr) as [Hin Hkey]. apply filter_In in Hin.
  destruct Hin as [_ Hnn]. simpl. split.
  - rewrite <- Hkey. now destruct (cr_COMMUNITY_AREA_NUMBER cr).
  - destruct (snd g); [destruct Hcr | simpl; lia].
Qed.

(** C10. On every database on which both statements succeed, the names
    problem 10 returns are exactly the names of the census rows whose
    community area number equals the number problem 8 returns; problem 8
    returns at most one row, and when it returns none, problem 10
    returns no name. *)
Theorem problem10_consistent_with_problem8 :
  forall (db : database num) r8 r10,
    read_query8 db = inr r8 ->
    read_query10 db = inr r10 ->
    List.length r8 <= 1 /\
    (r8 = [] -> r10 = []) /\
    (forall number crime_count,
        r8 = [(number, crime_count)] ->
        number <> None /\
        exists census,
          CENSUS_DATA db = Some census /\
          r10 = map (@c_COMMUNITY_AREA_NAME num)
                    (filter (fun c => num_sql_eqb (c_COMMUNITY_AREA_NUMBER c) number)
                            census)).
Proof.
  intros db r8 r10. unfold read_query8, read_query10.
  destruct (CHICAGO_CRIME_DATA db) as [crime|]; [|discriminate].
  destruct (CENSUS_DATA db) as [census|]; [|discriminate].
  intros H8 H10. injection H8 as <-. injection H10 as <-.
  unfold query10_statement. rewrite query10_subquery_is_query8.
  destruct (query8_one_row crime) as [Hlen Hrows].
  split; [exact Hlen|]. split.
  - intros ->. simpl.
    induction census as [|c census IH]; [reflexivity|]. simpl.
    destruct (c_COMMUNITY_AREA_NUMBER c); assumption.
  - intros number crime_count Heq. rewrite Heq in *. split.
    + inversion Hrows as [|? ? [Hnn _] _]; subst. exact Hnn.
    + exists census. split; reflexivity.
Qed.

End MostCrimeProne.

(** Problems 8 and 10 on a database where community 2 has most crimes. *)
Lemma problem10_consistent_with_problem8_witness :
  read_query8 full_database = inr [(Some 2%Z, 2)] /\
  read_query10 full_database = inr [Some "Lake View"] /\
  List.length [(Some 2%Z, 2)] <= 1.
Proof.
  split; [reflexivity|]. split; [reflexivity|].
  exact (proj1 (problem10_consistent_with_problem8
                  full_database (r8 := [(Some 2%Z, 2)]) (r10 := [Some "Lake View"])
                  eq_refl eq_refl)).
Defined.

(** ** The theorems on concrete tables *)

(** Segmentation of the enriched crimes of two communities at 10000. *)
Lemma income_segment_partition_witness :
  map (@income_segment Z)
      (segment_by_income 10000 (enriched_crime some_crimes [oak_park; lake_view]))
  = [LOW_INCOME; HIGH_INCOME; HIGH_INCOME; UNKNOWN_INCOME] /\
  map (@record Z)
      (segment_by_income 10000 (enriched_crime some_crimes [oak_park; lake_view]))
  = enriched_crime some_crimes [oak_park; lake_view].
Proof.
  split; [reflexivity|].
  exact (proj2 (income_segment_partition
                  10000 (enriched_crime some_crimes [oak_park; lake_view]))).
Defined.

(** Thresholds 20000 and 8000 on incomes 9000 and 20000. *)
Lemma threshold_extremes_witness :
  Forall (fun w => per_capita_income (record w) <> NaN ->
                   income_segment w = LOW_INCOME)
         (segment_by_income 20000 (enriched_crime some_crimes [oak_park; lake_view])) /\
  Forall (fun w => per_capita_income (record w) <> NaN ->
                   income_segment w = HIGH_INCOME)
         (segment_by_income 8000 (enriched_crime some_crimes [oak_park; lake_view])).
Proof.
  split.
  - apply (proj1 (proj2 (threshold_extremes
                           20000 (enriched_crime some_crimes [oak_park; lake_view])))).
    repeat constructor; by_computation.
  - apply (proj2 (proj2 (threshold_extremes
                           8000 (enriched_crime some_crimes [oak_park; lake_view])))).
    repeat constructor; by_computation.
Defined.




(** Unique identifiers: one row per identifier. *)
Lemma community_aggregate_one_row_per_group_witness :
  NoDup (map agg_community_area_number
             (community_aggregate [oak_park; lake_view]
                                  [school_of (Some 10%Z) 1 (Some 50%Z)])).
Proof.
  apply (proj2 (proj2 (proj2 (proj2 (proj2
           (community_aggregate_one_row_per_group
              [oak_park; lake_view] [school_of (Some 10%Z) 1 (Some 50%Z)])))))).
  intros c1 c2 [<-|[<-|[]]] [<-|[<-|[]]] _ _ Hid;
    first [ reflexivity | discriminate Hid ].
Defined.

(** C5, counterexample. Two census rows with the identifier 1 and
    different names give two rows for the identifier 1. *)
Lemma one_identifier_two_rows :
  map agg_community_area_number (community_aggregate census_same_id [])
  = [Some 1%Z; Some 1%Z] /\
  ~ NoDup (map agg_community_area_number (community_aggregate census_same_id [])).
Proof.
  split; [reflexivity|].
  change (map agg_community_area_number (community_aggregate census_same_id []))
    with [Some 1%Z; Some 1%Z].
  intros Hnd. inversion Hnd as [|? ? Hin _]; subst. apply Hin. now left.
Qed.

(** Schools that all have a School_ID: no school, no average. *)
Lemma avg_safety_score_null_without_scores_witness :
  Forall (fun r => agg_school_count r = 0 -> agg_avg_safety_score r = NaN)
         (community_aggregate
            [oak_park; lake_view]
            [school_of (Some 10%Z) 1 (Some 50%Z); school_of (Some 11%Z) 1 None]).
Proof.
  apply (proj2 (proj2 (avg_safety_score_null_without_scores
                         [oak_park; lake_view]
                         [school_of (Some 10%Z) 1 (Some 50%Z);
                          school_of (Some 11%Z) 1 None]))).
  intros s [<-|[<-|[]]]; discriminate.
Defined.

(** The scenario of the specification: two schools, one without score. *)
Lemma oak_park_two_schools :
  map (fun r => (agg_school_count r, agg_avg_safety_score r))
      (community_aggregate
         [oak_park]
         [school_of (Some 10%Z) 1 (Some 50%Z); school_of (Some 11%Z) 1 None])
  = [(2, Finite 50%Q)].
Proof. reflexivity. Qed.

(** C3, counterexample. A school row without School_ID and with the
    safety score 50 in community 1: school_count is 0 and the average
    is 50, not null. *)
Lemma school_count_zero_with_average :
  map (fun r => (agg_school_count r, agg_avg_safety_score r))
      (community_aggregate [oak_park] [school_without_id])
  = [(0, Finite 50%Q)] /\
  ~ (forall r, In r (community_aggregate [oak_park] [school_without_id]) ->
               agg_school_count r = 0 -> agg_avg_safety_score r = NaN).
Proof.
  split; [reflexivity|]. intros Hall.
  destruct (community_aggregate [oak_park] [school_without_id]) as [|r rows] eqn:Hrows;
    [discriminate Hrows|].
  specialize (Hall r (or_introl eq_refl)).
  injection Hrows as <- _. vm_compute in Hall. specialize (Hall eq_refl).
  discriminate Hall.
Qed.

(** C6, counterexample. Whatever the sort does with equal counts, the
    ranking cannot break ties by first-encountered order: a theft
    followed by an assault and an assault followed by a theft give the
    same ranking of the two types, which are equally frequent, and each
    input asks for a different one. *)
Lemma top_crimes_ties_not_first_encountered :
  ~ exists sort_values : series_sorter,
      sorts_descending sort_values /\
      forall (records : list (segmented Z)) (n : nat),
        ties_by_first_encounter records (top_crimes sort_values records n).
Proof.
  intros [sort_values [Hsort Hties]].
  pose proof (Hties theft_then_assault 2) as H1.
  pose proof (Hties assault_then_theft 2) as H2.
  unfold top_crimes in H1, H2.
  change (crime_count_sum (grouped theft_then_assault))
    with [("ASSAULT", 1); ("THEFT", 1)] in H1.
  change (crime_count_sum (grouped assault_then_theft))
    with [("ASSAULT", 1); ("THEFT", 1)] in H2.
  destruct (Hsort [("ASSAULT", 1); ("THEFT", 1)]) as [Hperm _].
  apply Permutation_sym, Permutation_length_2_inv in Hperm.
  destruct Hperm as [Heq|Heq]; rewrite Heq in H1, H2.
  - specialize (H1 0 1 "ASSAULT" "THEFT"). cbv in H1.
    specialize (H1 (le_n 1) eq_refl eq_refl eq_refl). lia.
  - specialize (H2 0 1 "THEFT" "ASSAULT"). cbv in H2.
    specialize (H2 (le_n 1) eq_refl eq_refl eq_refl). lia.
Qed.

(* ================================================================== *)
(** * Part III. Further properties of the code                          *)
(* ================================================================== *)

(** ** The report runner, for every engine *)

Section RunnerInGeneral.
Context {R : Type}.
Variable engine : sql_engine R.

Lemma run_analysis_as_problems :
  run_analysis engine
  = (emit (print_banner "RUNNING SQL ANALYSIS PROBLEMS") ;;;
     run_problems engine the_problems (emit (print_banner "ANALYSIS COMPLETE"))).
Proof. reflexivity. Qed.

Lemma problem_escapes n q title :
  escapes engine q = true ->
  exists e, engine q = inl e /\ isinstance_sqlite3_Error e = false /\
            problem engine n q title = ([read_sql q], inl e).
Proof.
  unfold escapes, problem, execute_query. destruct (engine q) as [e|df]; [|discriminate].
  intros He. apply negb_true_iff in He. exists e. rewrite He. auto.
Qed.

Lemma problem_continues n q title :
  escapes engine q = false ->
  snd (problem engine n q title) = inr tt /\
  executed (problem engine n q title) = [q] /\
  reported (problem engine n q title) = [n] /\
  query_errors (problem engine n q title)
  = match engine q with inl _ => [n] | inr _ => [] end.
Proof.
  unfold escapes, problem, execute_query, display_results.
  destruct (engine q) as [e|df].
  - intros He. apply negb_false_iff in He. rewrite He. repeat split; reflexivity.
  - intros _. unfold bind, emit, ret. simpl. destruct (empty df); repeat split; reflexivity.
Qed.

Lemma effects_bind {A B} (m : run R A) (k : A -> run R B) a :
  snd m = inr a ->
  bind m k = (fst m ++ fst (k a), snd (k a)).
Proof.
  destruct m as [out r]. simpl. intros ->. simpl. now destruct (k a).
Qed.

(** The problems of a list, in general. *)
Lemma run_problems_stops (ps : list (nat * statement * string)) (k : run R unit) :
  snd k = inr tt -> executed k = [] -> reported k = [] -> query_errors k = [] ->
  let r := run_problems engine ps k in
  executed r = through_first (escapes engine) (map (fun p => snd (fst p)) ps) /\
  reported r
  = map (fun p => fst (fst p))
        (filter (fun p => negb (escapes engine (snd (fst p))))
                (firstn (List.length (executed r)) ps)) /\
  query_errors r
  = map (fun p => fst (fst p))
        (filter (fun p => match engine (snd (fst p)) with
                          | inl e => isinstance_sqlite3_Error e
                          | inr _ => false
                          end)
                (firstn (List.length (executed r)) ps)) /\
  (snd r = inr tt <-> forall p, In p ps -> escapes engine (snd (fst p)) = false) /\
  (forall e, snd r = inl e ->
             exists q, last (executed r) query1 = q /\ engine q = inl e /\
                       isinstance_sqlite3_Error e = false).
Proof.
  intros Hk1 Hk2 Hk3 Hk4. induction ps as [|[[n q] title] ps IH]; simpl.
  - rewrite Hk1, Hk2, Hk3, Hk4. repeat split; try reflexivity; try discriminate.
    intros _ p [].
  - destruct (escapes engine q) eqn:Hq.
    + destruct (problem_escapes n q title Hq) as [e [He [Hi Hp]]]. rewrite Hp.
      unfold bind. cbn. rewrite Hq, He, Hi. cbn.
      repeat split; try reflexivity; try discriminate.
      * intros Hall. specialize (Hall (n, q, title) (or_introl eq_refl)).
        simpl in Hall. congruence.
      * intros e' He'. injection He' as <-. exists q. auto.
    + destruct (problem_continues n q title Hq) as [Hp1 [Hp2 [Hp3 Hp4]]].
      rewrite (effects_bind _ _ Hp1).
      destruct IH as [IH1 [IH2 [IH3 [IH4 IH5]]]].
      set (rest := run_problems engine ps k) in *.
      assert (Hex : executed (fst (problem engine n q title) ++ fst rest, snd rest)
                    = q :: executed rest).
      { unfold executed in *. simpl. rewrite flat_map_app. simpl in Hp2.
        now rewrite Hp2. }
      rewrite Hex. cbn [List.length firstn filter map fst snd].
      rewrite Hq. cbn [negb map fst snd]. split; [now rewrite IH1|]. split.
      { unfold reported in *. simpl. rewrite flat_map_app. simpl in Hp3.
        rewrite Hp3. simpl. f_equal. exact IH2. }
      split.
      { unfold query_errors in *. simpl. rewrite flat_map_app. simpl in Hp4.
        rewrite Hp4. unfold escapes in Hq. destruct (engine q) as [e|df].
        - apply negb_false_iff in Hq. rewrite Hq. simpl. f_equal. exact IH3.
        - simpl. exact IH3. }
      split.
      { simpl. rewrite IH4. split.
        - intros Hall p [<-|Hp]; [exact Hq | now apply Hall].
        - intros Hall p Hp. apply Hall. now right. }
      { simpl. intros e He. destruct (IH5 e He) as [q' [Hlast Hq']].
        exists q'. split; [|exact Hq'].
        destruct (executed rest) as [|x xs] eqn:Hexr; [|exact Hlast].
        exfalso. clear - IH4 He IH1 Hexr.
        destruct ps as [|[[n' q''] t'] ps'].
        - simpl in *. assert (Hs : snd rest = inr tt) by (apply IH4; intros p []).
          congruence.
        - simpl in IH1. destruct (escapes engine q''); discriminate. }
Qed.

(** X1. Whatever the database answers, [run_analysis] sends its ten
    statements in their fixed order and stops right after the first one
    whose exception is not a [sqlite3.Error]; it ends normally exactly
    when there is no such statement, and otherwise ends with the
    exception of the last statement sent.  Every statement sent but the
    escaping one gets its problem header, and every statement that
    raised a [sqlite3.Error] gets its error line. *)
Theorem run_analysis_stops_at_first_escape :
  executed (run_analysis engine) = through_first (escapes engine) all_statements /\
  reported (run_analysis engine)
  = map (fun p => fst (fst p))
        (filter (fun p => negb (escapes engine (snd (fst p))))
                (firstn (List.length (executed (run_analysis engine))) the_problems)) /\
  query_errors (run_analysis engine)
  = map (fun p => fst (fst p))
        (filter (fun p => match engine (snd (fst p)) with
                          | inl e => isinstance_sqlite3_Error e
                          | inr _ => false
                          end)
                (firstn (List.length (executed (run_analysis engine))) the_problems)) /\
  (snd (run_analysis engine) = inr tt <->
   forall q, In q all_statements -> escapes engine q = false) /\
  (forall e, snd (run_analysis engine) = inl e ->
             exists q, last (executed (run_analysis engine)) query1 = q /\
                       engine q = inl e /\ isinstance_sqlite3_Error e = false).
Proof.
  pose proof (run_problems_stops the_problems
                (emit (print_banner "ANALYSIS COMPLETE"))
                eq_refl eq_refl eq_refl eq_refl) as Hps.
  cbv zeta in Hps. rewrite run_analysis_as_problems.
  set (rest := run_problems engine the_problems
                 (emit (print_banner "ANALYSIS COMPLETE"))) in *.
  assert (Hrun : bind (emit (print_banner "RUNNING SQL ANALYSIS PROBLEMS"))
                      (fun _ => rest)
                 = (print_banner "RUNNING SQL ANALYSIS PROBLEMS" :: fst rest, snd rest)).
  { unfold bind, emit. now destruct rest. }
  rewrite Hrun.
  change (executed (print_banner "RUNNING SQL ANALYSIS PROBLEMS" :: fst rest, snd rest))
    with (executed rest).
  change (reported (print_banner "RUNNING SQL ANALYSIS PROBLEMS" :: fst rest, snd rest))
    with (reported rest).
  change (query_errors (print_banner "RUNNING SQL ANALYSIS PROBLEMS" :: fst rest, snd rest))
    with (query_errors rest).
  destruct Hps as [H1 [H2 [H3 [H4 H5]]]].
  split; [exact H1|]. split; [exact H2|]. split; [exact H3|]. split; [|exact H5].
  simpl. rewrite H4. split.
  - intros Hall q Hq. unfold all_statements in Hq. simpl in Hq.
    repeat (destruct Hq as [<-|Hq];
            [match goal with
             | |- escapes engine ?s = false =>
                 first [ exact (Hall (1, s, _) ltac:(simpl; tauto))
                       | exact (Hall (2, s, _) ltac:(simpl; tauto))
                       | exact (Hall (3, s, _) ltac:(simpl; tauto))
                       | exact (Hall (4, s, _) ltac:(simpl; tauto))
                       | exact (Hall (5, s, _) ltac:(simpl; tauto))
                       | exact (Hall (6, s, _) ltac:(simpl; tauto))
                       | exact (Hall (7, s, _) ltac:(simpl; tauto))
                       | exact (Hall (8, s, _) ltac:(simpl; tauto))
                       | exact (Hall (9, s, _) ltac:(simpl; tauto))
                       | exact (Hall (10, s, _) ltac:(simpl; tauto)) ]
             end|]).
    destruct Hq.
  - intros Hall p Hp. apply Hall. unfold the_problems in Hp. simpl in Hp.
    unfold all_statements.
    repeat (destruct Hp as [<-|Hp]; [simpl; tauto|]). destruct Hp.
Qed.

End RunnerInGeneral.

(** ** The filters of the sidebar *)

Section Filters.
Context {num : Type}.

Lemma isin_In s values : isin s values = true <-> In s values.
Proof.
  unfold isin. rewrite existsb_exists. split.
  - intros [x [Hx Heq]]. apply String.eqb_eq in Heq. now subst.
  - intros Hin. exists s. split; [assumption | apply String.eqb_refl].
Qed.

Lemma filter_filter_and {X} (p q : X -> bool) (l : list X) :
  filter q (filter p l) = filter (fun x => p x && q x) l.
Proof.
  induction l as [|x l IH]; [reflexivity|]. simpl.
  destruct (p x); simpl; [destruct (q x)|]; now rewrite IH.
Qed.

(** X2. [apply_filters] keeps, in their order, exactly the communities
    whose name is selected and the crimes whose community name and
    crime type are selected, where an empty selection selects
    everything; it adds no row. *)
Theorem apply_filters_keeps :
  forall (socio_df : list socio_row) (crime_df : list (crime_record num))
         (communities types : list string),
    fst (apply_filters socio_df crime_df communities types)
    = filter (fun r => match communities with
                       | [] => true
                       | _ => isin_opt (agg_community_area_name r) communities
                       end) socio_df /\
    snd (apply_filters socio_df crime_df communities types)
    = filter (fun r => match communities with
                       | [] => true
                       | _ => isin (community_area_name r) communities
                       end
                       && match types with
                          | [] => true
                          | _ => isin (primary_type r) types
                          end) crime_df /\
    (forall r, In r (snd (apply_filters socio_df crime_df communities types)) <->
               In r crime_df /\
               (communities = [] \/ In (community_area_name r) communities) /\
               (types = [] \/ In (primary_type r) types)) /\
    (communities = [] -> types = [] ->
     apply_filters socio_df crime_df communities types = (socio_df, crime_df)).
Proof.
  intros socio_df crime_df communities types.
  assert (Hall : forall {X} (l : list X), filter (fun _ => true) l = l).
  { intros X l. induction l; simpl; congruence. }
  assert (Hsnd : snd (apply_filters socio_df crime_df communities types)
    = filter (fun r => match communities with
                       | [] => true
                       | _ => isin (community_area_name r) communities
                       end
                       && match types with
                          | [] => true
                          | _ => isin (primary_type r) types
                          end) crime_df).
  { unfold apply_filters. destruct communities as [|c cs], types as [|t ts]; simpl.
    - now rewrite Hall.
    - reflexivity.
    - apply filter_ext. intros r. now rewrite andb_true_r.
    - apply filter_filter_and. }
  split; [|split; [exact Hsnd|split]].
  - unfold apply_filters. destruct communities, types; simpl; now rewrite ?Hall.
  - intros r. rewrite Hsnd, filter_In, andb_true_iff.
    destruct communities as [|c cs], types as [|t ts]; rewrite ?isin_In;
      intuition (auto; discriminate).
  - intros -> ->. reflexivity.
Qed.

(** X3. Filtering is idempotent, and the two selections act
    independently: filtering by communities and then by crime types
    gives what one call with both selections gives. *)
Theorem apply_filters_compose :
  forall (socio_df : list socio_row) (crime_df : list (crime_record num))
         (communities types : list string),
    apply_filters (fst (apply_filters socio_df crime_df communities types))
                  (snd (apply_filters socio_df crime_df communities types))
                  communities types
    = apply_filters socio_df crime_df communities types /\
    apply_filters (fst (apply_filters socio_df crime_df communities []))
                  (snd (apply_filters socio_df crime_df communities []))
                  [] types
    = apply_filters socio_df crime_df communities types /\
    snd (apply_filters (fst (apply_filters socio_df crime_df [] types))
                       (snd (apply_filters socio_df crime_df [] types))
                       communities [])
    = snd (apply_filters socio_df crime_df communities types).
Proof.
  intros socio_df crime_df communities types.
  assert (Hidem : forall {X} (p : X -> bool) (l : list X),
             filter p (filter p l) = filter p l).
  { intros X p l. rewrite filter_filter_and. apply filter_ext.
    intros x. now destruct (p x). }
  assert (Hcomm : forall {X} (p q : X -> bool) (l : list X),
             filter p (filter q l) = filter q (filter p l)).
  { intros X p q l. rewrite !filter_filter_and. apply filter_ext.
    intros x. apply andb_comm. }
  unfold apply_filters.
  destruct communities as [|c cs], types as [|t ts]; cbn [fst snd];
    repeat split; rewrite ?Hidem; try reflexivity.
  - f_equal. rewrite !filter_filter_and. apply filter_ext. intros r.
    destruct (isin (community_area_name r) (c :: cs)),
             (isin (primary_type r) (t :: ts)); reflexivity.
  - apply Hcomm.
Qed.

(** X4. The community options of the sidebar: every community name of
    the dataset other than "Unknown", each once, in ascending order;
    likewise the crime type options. *)
Theorem sidebar_options :
  forall (socio_df : list socio_row) (crime_df : list (crime_record num)),
    (Sorted (fun a b => String.leb a b = true) (community_options socio_df) /\
     NoDup (community_options socio_df) /\
     forall area, In area (community_options socio_df) <->
                  (exists r, In r socio_df /\ agg_community_area_name r = Some area) /\
                  area <> "Unknown") /\
    (Sorted (fun a b => String.leb a b = true) (crime_type_options crime_df) /\
     NoDup (crime_type_options crime_df) /\
     forall t, In t (crime_type_options crime_df) <->
               exists r, In r crime_df /\ primary_type r = t).
Proof.
  intros socio_df crime_df.
  assert (Hnn : forall {X} (col : list (option X)) x,
             In x (non_null col) <-> In (Some x) col).
  { intros X col x. induction col as [|[y|] col IH]; simpl; [tauto| |].
    - rewrite IH. split; intros [Heq|Hin]; auto; left; congruence.
    - rewrite IH. split; [auto|]. intros [Heq|Hin]; [discriminate | assumption]. }
  split; (split; [apply sort_by_Sorted, String.leb_total|]); split.
  - unfold community_options.
    apply (Permutation_NoDup (Permutation_sym (sort_by_perm _ _))).
    apply NoDup_filter, distinct_NoDup.
  - intros area. unfold community_options.
    rewrite sort_by_In, filter_In, distinct_In, Hnn, in_map_iff, negb_true_iff.
    rewrite String.eqb_neq. split.
    + intros [[r [Hr Hin]] Hne]. split; [exists r|]; auto.
    + intros [[r [Hin Hr]] Hne]. split; [exists r|]; auto.
  - unfold crime_type_options.
    apply (Permutation_NoDup (Permutation_sym (sort_by_perm _ _))), distinct_NoDup.
  - intros t. unfold crime_type_options.
    rewrite sort_by_In, distinct_In, in_map_iff. split; intros [r [H1 H2]]; exists r; auto.
Qed.

End Filters.

(** ** The income slider *)

Section BestOfSeries.
Context {X : Type}.
Variable leb : X -> X -> bool.
Variable P : X -> Prop.
Hypothesis leb_total : forall a b, P a -> P b -> leb a b = true \/ leb b a = true.
Hypothesis leb_trans :
  forall a b c, P a -> P b -> P c -> leb a b = true -> leb b c = true -> leb a c = true.

(** The fold that keeps the least element seen so far returns an element
    of the series that is below all of them. *)
Lemma fold_least (s : list X) : forall m,
  P m -> Forall P s ->
  let r := fold_left (fun m y => if leb y m then y else m) s m in
  In r (m :: s) /\ (r = m \/ leb r m = true) /\ Forall (fun x => leb r x = true) s.
Proof.
  induction s as [|y s IH]; intros m Pm Ps; simpl.
  - split; [now left|]. split; [now left | constructor].
  - inversion Ps as [|? ? Py Ps']; subst.
    destruct (leb y m) eqn:Hym.
    + destruct (IH y Py Ps') as [Hin [Hle Hall]].
      set (r := fold_left (fun m y => if leb y m then y else m) s y) in *.
      assert (Pr : P r).
      { destruct Hin as [Heq|Hin]; [now rewrite <- Heq|].
        rewrite Forall_forall in Ps'. now apply Ps'. }
      assert (Hry : leb r y = true).
      { destruct Hle as [Heq|Hle]; [|assumption]. rewrite Heq.
        destruct (leb_total Py Py); assumption. }
      split; [destruct Hin as [Heq|Hin]; auto|]. split.
      * right. exact (leb_trans Pr Py Pm Hry Hym).
      * now constructor.
    + destruct (IH m Pm Ps') as [Hin [Hle Hall]].
      set (r := fold_left (fun m y => if leb y m then y else m) s m) in *.
      assert (Pr : P r).
      { destruct Hin as [Heq|Hin]; [now rewrite <- Heq|].
        rewrite Forall_forall in Ps'. now apply Ps'. }
      assert (Hmy : leb m y = true).
      { destruct (leb_total Pm Py); [assumption | congruence]. }
      split; [destruct Hin as [Heq|Hin]; auto|]. split; [exact Hle|].
      constructor; [|assumption].
      destruct Hle as [Heq|Hle]; [now rewrite Heq|].
      exact (leb_trans Pr Pm Py Hle Hmy).
Qed.

End BestOfSeries.

Section Slider.
Context {num : Type}.

Lemma mean_between (a b p q : Q) :
  (a <= p)%Q -> (p <= b)%Q -> (a <= q)%Q -> (q <= b)%Q ->
  (a <= (p + q) / 2)%Q /\ ((p + q) / 2 <= b)%Q.
Proof.
  intros. unfold Qdiv. change (/ 2)%Q with (1 # 2)%Q. split; lra.
Qed.

(** [int(x)] does not decrease when [x] grows. *)
Lemma truncation_monotone (p q : Q) :
  (p <= q)%Q ->
  (Z.quot (Qnum p) (Zpos (Qden p)) <= Z.quot (Qnum q) (Zpos (Qden q)))%Z.
Proof.
  destruct p as [a b], q as [c d]. unfold Qle. simpl. intros H.
  assert (Hfloor : forall x y u v : Z, (0 <= x)%Z -> (0 < y)%Z -> (0 < v)%Z ->
            (x * v <= u * y)%Z -> (x / y <= u / v)%Z).
  { intros x y u v Hx Hy Hv Hle.
    rewrite <- (Z.div_mul_cancel_r x y v) by lia.
    rewrite <- (Z.div_mul_cancel_r u v y) by lia.
    rewrite (Z.mul_comm v y). apply Z.div_le_mono; lia. }
  destruct (Z_le_gt_dec 0 a) as [Ha|Ha].
  - assert (Hc : (0 <= c)%Z) by nia.
    rewrite !Z.quot_div_nonneg by lia. apply Hfloor; lia.
  - destruct (Z_le_gt_dec 0 c) as [Hc|Hc].
    + transitivity 0%Z.
      * rewrite <- (Z.opp_involutive a), Z.quot_opp_l by lia.
        assert (0 <= Z.quot (- a) (Z.pos b))%Z by (apply Z.quot_pos; lia). lia.
      * apply Z.quot_pos; lia.
    + rewrite <- (Z.opp_involutive a), <- (Z.opp_involutive c).
      rewrite (Z.quot_opp_l (- a)), (Z.quot_opp_l (- c)) by lia.
      rewrite !Z.quot_div_nonneg by lia.
      apply -> Z.opp_le_mono. apply Hfloor; lia.
Qed.

Lemma float64_leb_total a b :
  isna a = false -> isna b = false ->
  float64_leb a b = true \/ float64_leb b a = true.
Proof.
  destruct a as [| |p|], b as [| |q|]; simpl; auto; try discriminate.
  intros _ _. rewrite !Qle_bool_iff. destruct (Qlt_le_dec q p) as [Hlt|Hle]; auto.
  right. now apply Qlt_le_weak.
Qed.

Lemma float64_leb_trans a b c :
  float64_leb a b = true -> float64_leb b c = true -> float64_leb a c = true.
Proof.
  destruct a as [| |p|], b as [| |q|], c as [| |r|]; simpl; auto; try discriminate.
  rewrite !Qle_bool_iff. apply Qle_trans.
Qed.

Lemma dropna_notna col : Forall (fun x => isna x = false) (dropna col).
Proof.
  unfold dropna. apply Forall_forall. intros x Hx. apply filter_In in Hx.
  now apply negb_true_iff.
Qed.

(** The least and the greatest value of a series without NaN. *)
Lemma series_min_spec s :
  s <> [] -> Forall (fun x => isna x = false) s ->
  In (series_min s) s /\ Forall (fun x => float64_leb (series_min s) x = true) s.
Proof.
  destruct s as [|m s]; [congruence|]. intros _ Hs.
  inversion Hs as [|? ? Pm Ps]; subst. unfold series_min.
  destruct (@fold_least _ float64_leb (fun x => isna x = false)
              (fun a b Pa Pb => @float64_leb_total a b Pa Pb)
              (fun a b c _ _ _ Hab Hbc => @float64_leb_trans a b c Hab Hbc)
              s m Pm Ps)
    as [Hin [Hle Hall]].
  split; [exact Hin|]. constructor; [|exact Hall].
  destruct Hle as [->|Hle]; [|exact Hle].
  destruct (@float64_leb_total m m Pm Pm); assumption.
Qed.

Lemma series_max_spec s :
  s <> [] -> Forall (fun x => isna x = false) s ->
  In (series_max s) s /\ Forall (fun x => float64_leb x (series_max s) = true) s.
Proof.
  destruct s as [|m s]; [congruence|]. intros _ Hs.
  inversion Hs as [|? ? Pm Ps]; subst. unfold series_max.
  destruct (@fold_least _ (fun a b => float64_leb b a) (fun x => isna x = false)
              (fun a b Pa Pb => @float64_leb_total b a Pb Pa)
              (fun a b c _ _ _ Hab Hbc => @float64_leb_trans c b a Hbc Hab)
              s m Pm Ps)
    as [Hin [Hle Hall]].
  split; [exact Hin|]. constructor; [|exact Hall].
  destruct Hle as [->|Hle]; [|exact Hle].
  destruct (@float64_leb_total m m Pm Pm); assumption.
Qed.

(** A sum that overflows has a term at least half as large. *)
Lemma float64_add_cases (p q : Q) :
  float64_add p q = Finite (p + q) \/
  ((float64_add p q = PosInf \/ float64_add p q = NegInf) /\
   ((float64_half_overflow <= p)%Q \/ (p <= - float64_half_overflow)%Q \/
    (float64_half_overflow <= q)%Q \/ (q <= - float64_half_overflow)%Q)).
Proof.
  unfold float64_add, float64_overflow. generalize float64_half_overflow. intros h.
  destruct (Qle_bool (h + h) (p + q)) eqn:Hup.
  - right. split; [now left|]. apply Qle_bool_iff in Hup.
    destruct (Qlt_le_dec p h) as [Hp|Hp]; [|now left].
    destruct (Qlt_le_dec q h) as [Hq|Hq]; [|now right; right; left].
    exfalso. lra.
  - destruct (Qle_bool (p + q) (- (h + h))) eqn:Hdown; [|now left].
    right. split; [now right|]. apply Qle_bool_iff in Hdown.
    destruct (Qlt_le_dec (- h) p) as [Hp|Hp]; [|now right; left].
    destruct (Qlt_le_dec (- h) q) as [Hq|Hq]; [|now right; right; right].
    exfalso. lra.
Qed.

Lemma safe_integer_spec z :
  safe_integer z = true <-> (- MAX_SAFE_INTEGER <= z <= MAX_SAFE_INTEGER)%Z.
Proof. unfold safe_integer. rewrite andb_true_iff, !Z.leb_le. tauto. Qed.

Lemma safe_integer_false z :
  safe_integer z = false <-> (z < - MAX_SAFE_INTEGER \/ MAX_SAFE_INTEGER < z)%Z.
Proof. unfold safe_integer. rewrite andb_false_iff, !Z.leb_gt. tauto. Qed.

(** A float of half the overflow or more does not truncate to a safe
    integer. *)
Lemma beyond_half_overflow (q : Q) :
  (float64_half_overflow <= q)%Q \/ (q <= - float64_half_overflow)%Q ->
  safe_integer (Z.quot (Qnum q) (Zpos (Qden q))) = false.
Proof.
  intros [Hq|Hq]; apply truncation_monotone in Hq; apply safe_integer_false.
  - right. eapply Z.lt_le_trans; [|exact Hq]. vm_compute. reflexivity.
  - left. eapply Z.le_lt_trans; [exact Hq|]. vm_compute. reflexivity.
Qed.

(** The median of a series whose values lie between two rationals lies
    between them, unless the sum of the two middle values overflows. *)
Lemma series_median_between s (a b : Q) :
  s <> [] ->
  Forall (fun x => exists q, x = Finite q /\ (a <= q)%Q /\ (q <= b)%Q) s ->
  (exists m, series_median s = Finite m /\ (a <= m)%Q /\ (m <= b)%Q) \/
  (python_int (series_median s) = None /\
   exists q, In (Finite q) s /\
             safe_integer (Z.quot (Qnum q) (Zpos (Qden q))) = false).
Proof.
  intros Hne Hs. unfold series_median.
  assert (Hsorted : forall i, i < List.length s ->
            exists q, nth i (sort_by float64_leb s) NaN = Finite q /\
                      In (Finite q) s /\ (a <= q)%Q /\ (q <= b)%Q).
  { intros i Hi.
    assert (Hin : In (nth i (sort_by float64_leb s) NaN) s).
    { apply (sort_by_In float64_leb). apply nth_In. now rewrite sort_by_length. }
    rewrite Forall_forall in Hs. destruct (Hs _ Hin) as [q [Hq Hab]].
    exists q. rewrite Hq in Hin. auto. }
  assert (Hlen : 0 < List.length s) by (destruct s; [congruence | simpl; lia]).
  assert (Hhalf : List.length s / 2 < List.length s)
    by (apply Nat.div_lt; lia).
  destruct (Nat.odd (List.length s)).
  - left. destruct (Hsorted _ Hhalf) as [q [Hq [_ Hab]]]. now exists q.
  - destruct (Hsorted (List.length s / 2 - 1) ltac:(lia)) as [p [-> [Hp [Hp1 Hp2]]]].
    destruct (Hsorted (List.length s / 2) Hhalf) as [q [-> [Hq [Hq1 Hq2]]]].
    cbn [float64_mean2].
    destruct (float64_add_cases p q) as [Hsum|[Hinf Hbig]].
    + left. rewrite Hsum. eexists. split; [reflexivity|]. now apply mean_between.
    + right. split.
      * destruct Hinf as [-> | ->]; reflexivity.
      * destruct Hbig as [Hbig|[Hbig|[Hbig|Hbig]]];
          [exists p | exists p | exists q | exists q];
          (split; [assumption | apply beyond_half_overflow; auto]).
Qed.

(** X5. Whenever the income slider is built, its bounds are in order,
    [min_value < max_value], its default lies between them, and its
    step is at least 100; without any known income the slider runs from
    0 to 10000 with default 5000. *)
Theorem income_slider_valid :
  forall (crime_df : list (crime_record num)) (s : slider),
    income_slider crime_df = Some s ->
    (min_value s < max_value s)%Z /\
    (min_value s <= value s <= max_value s)%Z /\
    (100 <= step s)%Z /\
    (Forall (fun r => per_capita_income r = NaN) crime_df ->
     s = {| min_value := 0; max_value := 10000; value := 5000; step := 100 |}).
Proof.
  intros crime_df s. unfold income_slider, income_bounds.
  assert (Hempty : Forall (fun r => per_capita_income r = NaN) crime_df ->
                   dropna (map (@per_capita_income num) crime_df) = []).
  { intros Hall. unfold dropna. induction Hall as [|r l Hr _ IH]; [reflexivity|].
    simpl. rewrite Hr. simpl. exact IH. }
  pose proof (dropna_notna (map (@per_capita_income num) crime_df)) as Hnotna.
  destruct (dropna (map (@per_capita_income num) crime_df)) as [|x xs] eqn:Hseries.
  - intros Hs. injection Hs as <-. cbn [min_value max_value value step].
    unfold income_step. repeat split; try lia; try reflexivity.
  - set (series := x :: xs) in *.
    assert (Hne : series <> []) by discriminate.
    destruct (series_min_spec Hne Hnotna) as [Hmin_in Hmin].
    destruct (series_max_spec Hne Hnotna) as [Hmax_in Hmax].
    destruct (series_min series) as [| |a|] eqn:Hmn; try discriminate.
    destruct (series_max series) as [| |b|] eqn:Hmx; try discriminate.
    assert (Hbounded : Forall (fun x => exists q, x = Finite q /\
                                                  (a <= q)%Q /\ (q <= b)%Q) series).
    { rewrite Forall_forall in *. intros y Hy.
      specialize (Hmin y Hy). specialize (Hmax y Hy). specialize (Hnotna y Hy).
      destruct y as [| |q|]; try discriminate. simpl in Hmin, Hmax.
      exists q. rewrite <- !Qle_bool_iff. auto. }
    destruct (series_median_between Hne Hbounded) as [[m [Hmed [Ham Hmb]]]|[Hmed _]];
      [|cbn [python_int]; rewrite Hmed; discriminate].
    rewrite Hmed. cbn [python_int].
    pose proof (truncation_monotone Ham) as H1.
    pose proof (truncation_monotone Hmb) as H2.
    set (lo := Z.quot (Qnum a) (Z.pos (Qden a))) in *.
    set (hi := Z.quot (Qnum b) (Z.pos (Qden b))) in *.
    set (mid := Z.quot (Qnum m) (Z.pos (Qden m))) in *.
    unfold st_sidebar_slider, income_step.
    destruct (safe_integer lo && safe_integer (if Z.eqb lo hi then (lo + 1)%Z else hi));
      [|discriminate].
    intros Hs. injection Hs as <-. cbn [min_value max_value value step].
    destruct (Z.eqb_spec lo hi) as [Heq|Hneq]; repeat split; try lia.
    + intros Hall. specialize (Hempty Hall). discriminate.
    + intros Hall. specialize (Hempty Hall). discriminate.
Qed.

(** The slider cannot be built exactly when a known income is infinite
    or truncates to an integer that is not safe, or when all known
    incomes truncate to the largest safe integer. *)
Lemma income_slider_None (crime_df : list (crime_record num)) :
  income_slider crime_df = None <->
  (exists r, In r crime_df /\ per_capita_income r <> NaN /\
             forall z, python_int (per_capita_income r) = Some z ->
                       safe_integer z = false) \/
  ((exists r, In r crime_df /\ per_capita_income r <> NaN) /\
   forall r, In r crime_df -> per_capita_income r <> NaN ->
             python_int (per_capita_income r) = Some MAX_SAFE_INTEGER).
Proof.
  unfold income_slider, income_bounds.
  pose proof (dropna_notna (map (@per_capita_income num) crime_df)) as Hnotna.
  assert (Hmem : forall y, In y (dropna (map (@per_capita_income num) crime_df)) ->
                           exists r, In r crime_df /\ per_capita_income r = y /\
                                     per_capita_income r <> NaN).
  { intros y Hy. unfold dropna in Hy. apply filter_In in Hy. destruct Hy as [Hy Hn].
    apply in_map_iff in Hy. destruct Hy as [r [<- Hr]]. exists r.
    repeat split; [assumption|]. intros Heq. rewrite Heq in Hn. discriminate. }
  assert (Hback : forall r, In r crime_df -> per_capita_income r <> NaN ->
                            In (per_capita_income r)
                               (dropna (map (@per_capita_income num) crime_df))).
  { intros r Hr Hn. unfold dropna. apply filter_In. split; [now apply in_map|].
    destruct (per_capita_income r); try reflexivity. congruence. }
  destruct (dropna (map (@per_capita_income num) crime_df)) as [|x xs] eqn:Hseries.
  - split; [discriminate|].
    intros [[r [Hr [Hn _]]]|[[r [Hr Hn]] _]]; destruct (Hback r Hr Hn).
  - set (series := x :: xs) in *.
    assert (Hne : series <> []) by discriminate.
    destruct (series_min_spec Hne Hnotna) as [Hmin_in Hmin].
    destruct (series_max_spec Hne Hnotna) as [Hmax_in Hmax].
    assert (Hinfinite : forall y, In y series -> python_int y = None ->
              exists r, In r crime_df /\ per_capita_income r <> NaN /\
                        forall z, python_int (per_capita_income r) = Some z ->
                                  safe_integer z = false).
    { intros y Hy Hnone. destruct (Hmem y Hy) as [r [Hr [Hv Hn]]]. exists r.
      repeat split; [assumption | assumption|]. rewrite Hv, Hnone. discriminate. }
    assert (Hunsafe : forall q, In (Finite q) series ->
              safe_integer (Z.quot (Qnum q) (Zpos (Qden q))) = false ->
              exists r, In r crime_df /\ per_capita_income r <> NaN /\
                        forall z, python_int (per_capita_income r) = Some z ->
                                  safe_integer z = false).
    { intros q Hq Hu. destruct (Hmem _ Hq) as [r [Hr [Hv Hn]]]. exists r.
      repeat split; [assumption | assumption|]. rewrite Hv. cbn [python_int].
      intros z Hz. injection Hz as <-. exact Hu. }
    split.
    + intros Hnone.
      destruct (series_min series) as [| |a|] eqn:Hmn;
        try (left; apply (Hinfinite _ Hmin_in); reflexivity).
      destruct (series_max series) as [| |b|] eqn:Hmx;
        try (left; apply (Hinfinite _ Hmax_in); reflexivity).
      assert (Hbounded : Forall (fun x => exists q, x = Finite q /\
                                  (a <= q)%Q /\ (q <= b)%Q) series).
      { rewrite Forall_forall in *. intros y Hy.
        specialize (Hmin y Hy). specialize (Hmax y Hy). specialize (Hnotna y Hy).
        destruct y as [| |q|]; try discriminate. simpl in Hmin, Hmax.
        exists q. rewrite <- !Qle_bool_iff. auto. }
      destruct (series_median_between Hne Hbounded)
        as [[m [Hmed [Ham Hmb]]]|[_ [q [Hq Hu]]]]; [|left; now apply (Hunsafe q)].
      rewrite Hmed in Hnone. cbn [python_int] in Hnone.
      set (lo := Z.quot (Qnum a) (Z.pos (Qden a))) in *.
      set (hi := Z.quot (Qnum b) (Z.pos (Qden b))) in *.
      unfold st_sidebar_slider in Hnone.
      destruct (safe_integer lo) eqn:Hlo; [|left; now apply (Hunsafe a)].
      destruct (Z.eqb_spec lo hi) as [Heq|Hneq].
      * destruct (safe_integer (lo + 1)) eqn:Hlo1; [discriminate|].
        right. apply safe_integer_spec in Hlo. apply safe_integer_false in Hlo1.
        assert (Hmax_lo : lo = MAX_SAFE_INTEGER) by lia.
        split.
        -- destruct (Hmem _ Hmin_in) as [r [Hr [_ Hn]]]. now exists r.
        -- intros r Hr Hn. rewrite Forall_forall in Hbounded.
           destruct (Hbounded _ (Hback r Hr Hn)) as [q [Hq [Haq Hqb]]].
           rewrite Hq. cbn [python_int]. f_equal.
           apply truncation_monotone in Haq, Hqb. fold lo in Haq. fold hi in Hqb. lia.
      * destruct (safe_integer hi) eqn:Hhi; [discriminate|].
        left. now apply (Hunsafe b).
    + intros Hcases.
      destruct (python_int (series_min series)) as [lo|] eqn:Hlo; [|reflexivity].
      destruct (python_int (series_max series)) as [hi|] eqn:Hhi; [|reflexivity].
      destruct (python_int (series_median series)) as [mid|]; [|reflexivity].
      unfold st_sidebar_slider.
      assert (Hfalse : safe_integer lo
                       && safe_integer (if Z.eqb lo hi then (lo + 1)%Z else hi) = false);
        [|now rewrite Hfalse].
      destruct (series_min series) as [| |a|] eqn:Hmn; try discriminate.
      destruct (series_max series) as [| |b|] eqn:Hmx; try discriminate.
      cbn [python_int] in Hlo, Hhi. injection Hlo as Hlo. injection Hhi as Hhi.
      assert (Hbounded : forall r, In r crime_df -> per_capita_income r <> NaN ->
                exists z, python_int (per_capita_income r) = Some z /\
                          (lo <= z <= hi)%Z).
      { intros r Hr Hn. pose proof (Hback r Hr Hn) as Hin.
        rewrite Forall_forall in Hmin, Hmax.
        specialize (Hmin _ Hin). specialize (Hmax _ Hin).
        destruct (per_capita_income r) as [| |q|]; try discriminate.
        simpl in Hmin, Hmax. apply Qle_bool_iff in Hmin, Hmax.
        apply truncation_monotone in Hmin, Hmax.
        eexists. split; [reflexivity|]. lia. }
      apply andb_false_iff. rewrite !safe_integer_false.
      assert (Hpos : (0 < MAX_SAFE_INTEGER)%Z) by reflexivity.
      destruct Hcases as [[r [Hr [Hn Hu]]]|[[r [Hr Hn]] Hall]].
      * destruct (Hbounded r Hr Hn) as [z [Hz Hlz]].
        specialize (Hu z Hz). apply safe_integer_false in Hu.
        destruct (Z.eqb_spec lo hi); lia.
      * destruct (Hmem _ Hmin_in) as [r1 [Hr1 [Hv1 Hn1]]].
        destruct (Hmem _ Hmax_in) as [r2 [Hr2 [Hv2 Hn2]]].
        pose proof (Hall r1 Hr1 Hn1) as H1. pose proof (Hall r2 Hr2 Hn2) as H2.
        rewrite Hv1 in H1. rewrite Hv2 in H2. cbn [python_int] in H1, H2.
        injection H1 as H1. injection H2 as H2.
        destruct (Z.eqb_spec lo hi); lia.
Qed.

(** The same with the bounds written out. *)
Lemma income_slider_out_of_range (crime_df : list (crime_record num)) :
  income_slider crime_df = None <->
  (exists r, In r crime_df /\ per_capita_income r <> NaN /\
             forall z, python_int (per_capita_income r) = Some z ->
                       (z < - (2 ^ 53 - 1) \/ 2 ^ 53 - 1 < z)%Z) \/
  ((exists r, In r crime_df /\ per_capita_income r <> NaN) /\
   forall r, In r crime_df -> per_capita_income r <> NaN ->
             python_int (per_capita_income r) = Some (2 ^ 53 - 1)%Z).
Proof.
  rewrite income_slider_None. fold MAX_SAFE_INTEGER.
  split; (intros [[r [Hr [Hn Hu]]]|Hall]; [left|now right]);
    exists r; repeat split; try assumption;
    intros z Hz; apply safe_integer_false; now apply Hu.
Qed.

(** X6. Building the income slider raises (an [int(...)] fails or the
    slider rejects a bound) exactly when some known income is infinite
    or truncates to an integer beyond the safe integers of JavaScript,
    from [-(2^53 - 1)] to [2^53 - 1], or when all known incomes truncate
    to [2^53 - 1], the maximum being then widened by one; unknown
    incomes never make it fail. *)
Theorem income_slider_raises :
  forall crime_df : list (crime_record num),
    (income_slider crime_df = None <->
     (exists r, In r crime_df /\ per_capita_income r <> NaN /\
                forall z, python_int (per_capita_income r) = Some z ->
                          (z < - (2 ^ 53 - 1) \/ 2 ^ 53 - 1 < z)%Z) \/
     ((exists r, In r crime_df /\ per_capita_income r <> NaN) /\
      forall r, In r crime_df -> per_capita_income r <> NaN ->
                python_int (per_capita_income r) = Some (2 ^ 53 - 1)%Z)) /\
    (Forall (fun r => per_capita_income r = NaN) crime_df ->
     income_slider crime_df <> None).
Proof.
  intros crime_df. split; [apply income_slider_out_of_range|].
  intros Hall Hnone. apply income_slider_out_of_range in Hnone.
  rewrite Forall_forall in Hall.
  destruct Hnone as [[r [Hr [Hn _]]]|[[r [Hr Hn]] _]]; now apply Hn, Hall.
Qed.

End Slider.

(** The slider on incomes 9000, 20000, 20000 and one unknown income. *)
Lemma income_slider_valid_witness :
  income_slider (enriched_crime some_crimes [oak_park; lake_view])
  = Some {| min_value := 9000; max_value := 20000; value := 20000; step := 110 |} /\
  (9000 < 20000)%Z.
Proof.
  split; [reflexivity|].
  exact (proj1 (income_slider_valid
                  (enriched_crime some_crimes [oak_park; lake_view]) eq_refl)).
Defined.

(** ** The segments in the KPI and in the crime tab *)

Section Segments.
Context {num : Type}.

Lemma filter_partition_length {X} (p : X -> bool) (l : list X) :
  List.length l
  = List.length (filter p l) + List.length (filter (fun x => negb (p x)) l).
Proof.
  induction l as [|x l IH]; [reflexivity|]. simpl.
  destruct (p x); simpl; lia.
Qed.

Lemma filter_map_segments (p : segmented num -> bool) t (df : list (crime_record num)) :
  filter p (segment_by_income t df)
  = segment_by_income t
      (filter (fun r => p {| record := r;
                             income_segment :=
                               income_segment_of t (per_capita_income r) |}) df).
Proof.
  unfold segment_by_income. induction df as [|r df IH]; [reflexivity|].
  simpl. destruct (p _); simpl; now rewrite IH.
Qed.

Lemma segment_is_known t x :
  isin (income_segment_of t x) [LOW_INCOME; HIGH_INCOME] = negb (isna x).
Proof.
  unfold income_segment_of. destruct (isna x); [reflexivity|].
  destruct (float_leb x t); reflexivity.
Qed.

Lemma segment_is_unknown t x :
  String.eqb (income_segment_of t x) UNKNOWN_INCOME = isna x.
Proof.
  unfold income_segment_of. destruct (isna x); [reflexivity|].
  destruct (float_leb x t); reflexivity.
Qed.

Lemma segment_is_low t x :
  String.eqb (income_segment_of t x) LOW_INCOME = float_leb x t.
Proof.
  unfold income_segment_of. destruct (isna x) eqn:Hna.
  - destruct x; try discriminate. reflexivity.
  - destruct (float_leb x t); reflexivity.
Qed.

Lemma segment_is_high t x :
  String.eqb (income_segment_of t x) HIGH_INCOME
  = negb (isna x) && negb (float_leb x t).
Proof.
  unfold income_segment_of. destruct (isna x) eqn:Hna; [reflexivity|].
  destruct (float_leb x t); reflexivity.
Qed.

(** The rows compared are the segmented rows of known income. *)
Lemma compare_rows_known t (df : list (crime_record num)) :
  compare_rows (segment_by_income t df)
  = segment_by_income t (filter (fun r => negb (isna (per_capita_income r))) df).
Proof.
  unfold compare_rows. rewrite filter_map_segments. f_equal.
  apply filter_ext. intros r. simpl. apply segment_is_known.
Qed.

Lemma segment_by_income_length t (df : list (crime_record num)) :
  List.length (segment_by_income t df) = List.length df.
Proof. unfold segment_by_income. apply length_map. Qed.

(** X7. The low-income share of the KPI row is null exactly when no
    crime has a known income; otherwise it is a percentage between 0
    and 100, namely 100 times the number of crimes the crime tab puts
    in the Low segment, divided by the number it puts in the Low or High
    segment at the same threshold. *)
Theorem low_income_share_matches_segments :
  forall (crime_df : list (crime_record num)) (income_threshold : Z),
    let working_df := segment_by_income income_threshold crime_df in
    let low := List.length
                 (filter (fun w => String.eqb (income_segment w) LOW_INCOME) working_df) in
    let high := List.length
                  (filter (fun w => String.eqb (income_segment w) HIGH_INCOME) working_df) in
    (low_income_share crime_df income_threshold = NaN <->
     Forall (fun r => per_capita_income r = NaN) crime_df) /\
    (forall q, low_income_share crime_df income_threshold = Finite q ->
               (0 <= q)%Q /\ (q <= 100)%Q) /\
    low + high = List.length (compare_rows working_df) /\
    (low + high <> 0 ->
     low_income_share crime_df income_threshold
     = Finite (100 * inject_Z (Z.of_nat low) / inject_Z (Z.of_nat (low + high)))%Q).
Proof.
  intros df t working_df low high.
  set (known := filter (fun r => negb (isna (per_capita_income r))) df).
  assert (Hlow : low = List.length
                         (filter (fun r => float_leb (per_capita_income r) t) known)).
  { unfold low, working_df. rewrite filter_map_segments, segment_by_income_length.
    unfold known. rewrite filter_filter_and. f_equal. apply filter_ext. intros r.
    simpl. rewrite segment_is_low.
    destruct (per_capita_income r); reflexivity. }
  assert (Hhigh : high = List.length
                           (filter (fun r => negb (float_leb (per_capita_income r) t))
                                   known)).
  { unfold high, working_df. rewrite filter_map_segments, segment_by_income_length.
    unfold known. rewrite filter_filter_and. f_equal. apply filter_ext. intros r.
    simpl. apply segment_is_high. }
  assert (Hknown : low + high = List.length known).
  { rewrite Hlow, Hhigh. symmetry. apply filter_partition_length. }
  assert (Hshare : low_income_share df t
                   = match known with
                     | [] => NaN
                     | _ :: _ => Finite (100 * inject_Z (Z.of_nat low)
                                         / inject_Z (Z.of_nat (low + high)))%Q
                     end).
  { unfold low_income_share. fold known. rewrite Hknown, Hlow. reflexivity. }
  split; [|split; [|split]].
  - rewrite Hshare. split.
    + intros Hnan. destruct known as [|r rs] eqn:Hk; [|discriminate].
      apply Forall_forall. intros r Hr.
      destruct (isna (per_capita_income r)) eqn:Hna.
      * destruct (per_capita_income r); try discriminate. reflexivity.
      * assert (Hin : In r known).
        { apply filter_In. split; [assumption|]. now rewrite Hna. }
        rewrite Hk in Hin. destruct Hin.
    + intros Hall. destruct known as [|r rs] eqn:Hk; [reflexivity|].
      assert (Hin : In r known) by (rewrite Hk; now left).
      apply filter_In in Hin. destruct Hin as [Hin Hna].
      rewrite Forall_forall in Hall. rewrite (Hall r Hin) in Hna. discriminate.
  - intros q. rewrite Hshare. destruct known as [|r rs] eqn:Hk; [discriminate|].
    intros Hq. injection Hq as <-.
    assert (Hpos : (0 < low + high)%nat) by (rewrite Hknown; simpl; lia).
    assert (Hn : (0 < inject_Z (Z.of_nat (low + high)))%Q).
    { rewrite <- (Zlt_Qlt 0). lia. }
    assert (Hl : (0 <= inject_Z (Z.of_nat low))%Q).
    { rewrite <- (Zle_Qle 0). lia. }
    assert (Hln : (inject_Z (Z.of_nat low) <= inject_Z (Z.of_nat (low + high)))%Q).
    { rewrite <- Zle_Qle. lia. }
    split.
    + apply Qle_shift_div_l; [assumption|]. lra.
    + apply Qle_shift_div_r; [assumption|]. lra.
  - rewrite Hknown. unfold working_df. rewrite compare_rows_known.
    now rewrite segment_by_income_length.
  - intros Hne. rewrite Hshare. destruct known; [simpl in Hknown; lia | reflexivity].
Qed.

Lemma no_known_income (df : list (crime_record num)) :
  filter (fun r => negb (isna (per_capita_income r))) df = [] <->
  Forall (fun r => per_capita_income r = NaN) df.
Proof.
  split.
  - intros Hnil. apply Forall_forall. intros r Hr.
    destruct (isna (per_capita_income r)) eqn:Hna.
    + destruct (per_capita_income r); try discriminate. reflexivity.
    + assert (Hin : In r (filter (fun r => negb (isna (per_capita_income r))) df)).
      { apply filter_In. split; [assumption|]. now rewrite Hna. }
      rewrite Hnil in Hin. destruct Hin.
  - intros Hall. induction Hall as [|r l Hr _ IH]; [reflexivity|].
    simpl. rewrite Hr. simpl. exact IH.
Qed.

Lemma no_unknown_income (df : list (crime_record num)) :
  List.length (filter (fun r => isna (per_capita_income r)) df) = 0 <->
  Forall (fun r => per_capita_income r <> NaN) df.
Proof.
  split.
  - intros Hlen. apply length_zero_iff_nil in Hlen. apply Forall_forall.
    intros r Hr Hnan.
    assert (Hin : In r (filter (fun r => isna (per_capita_income r)) df)).
    { apply filter_In. split; [assumption|]. now rewrite Hnan. }
    rewrite Hlen in Hin. destruct Hin.
  - intros Hall. induction Hall as [|r l Hr _ IH]; [reflexivity|].
    simpl. destruct (per_capita_income r); try (exact IH). congruence.
Qed.

(** X8. The crime tab reports "no crime data" exactly on an empty
    dataset and "no comparison data" exactly on a non-empty dataset
    without any known income; otherwise it draws its charts.  The rows
    compared and the rows counted as excluded make up the dataset, the
    excluded ones being the crimes of unknown income; the caption on
    them is shown only when there are some. *)
Theorem crime_tab_outcome :
  forall (sort_series : series_sorter) (sort_hotspots : hotspot_sorter)
         (crime_df : list (crime_record num)) (income_threshold : Z) (top_n : nat),
    let working_df := segment_by_income income_threshold crime_df in
    let tab := render_crime_hotspots_tab sort_series sort_hotspots crime_df
                                         income_threshold top_n in
    (tab = no_crime_data <-> crime_df = []) /\
    (tab = no_comparison_data <->
     crime_df <> [] /\ Forall (fun r => per_capita_income r = NaN) crime_df) /\
    (forall bars donut caption table,
        tab = charts bars donut caption table ->
        (exists r, In r crime_df /\ per_capita_income r <> NaN) /\
        (caption = None <-> Forall (fun r => per_capita_income r <> NaN) crime_df) /\
        (forall n, caption = Some n -> n = unknown_income_count working_df)) /\
    List.length crime_df
    = List.length (compare_rows working_df) + unknown_income_count working_df /\
    unknown_income_count working_df
    = List.length (filter (fun r => isna (per_capita_income r)) crime_df).
Proof.
  intros ss sh df t top_n working_df tab.
  assert (Hunknown : unknown_income_count working_df
                     = List.length (filter (fun r => isna (per_capita_income r)) df)).
  { unfold unknown_income_count, working_df.
    rewrite filter_map_segments, segment_by_income_length. f_equal.
    apply filter_ext. intros r. simpl. apply segment_is_unknown. }
  assert (Hcompare : compare_rows working_df
                     = segment_by_income t
                         (filter (fun r => negb (isna (per_capita_income r))) df))
    by apply compare_rows_known.
  pose proof (no_known_income df) as Hnone.
  pose proof (no_unknown_income df) as Hzero.
  unfold tab, render_crime_hotspots_tab. fold working_df.
  destruct df as [|r0 df0] eqn:Hdf.
  - split; [split; reflexivity|]. split; [split; [discriminate | intros [Hne _]; congruence]|].
    split; [discriminate|]. split; reflexivity.
  - rewrite <- Hdf in *.
    destruct (compare_rows working_df) as [|w ws] eqn:Hcmp.
    + assert (Hnil : filter (fun r => negb (isna (per_capita_income r))) df = []).
      { unfold segment_by_income in Hcompare. symmetry in Hcompare.
        now apply map_eq_nil in Hcompare. }
      split; [split; [discriminate | intros Hd; subst; discriminate]|].
      split; [split; [intros _; split; [subst; discriminate | now apply Hnone]
                     | reflexivity]|].
      split; [discriminate|]. split; [|exact Hunknown].
      rewrite Hunknown. simpl.
      rewrite (filter_partition_length (fun r => negb (isna (per_capita_income r))) df).
      rewrite Hnil. simpl. f_equal. apply filter_ext. intros r.
      now rewrite negb_involutive.
    + split; [split; [discriminate | intros Hd; subst; discriminate]|].
      split.
      { split; [discriminate|]. intros [_ Hall]. apply Hnone in Hall.
        rewrite Hall in Hcompare. discriminate. }
      split.
      { intros bars donut caption table Hch. injection Hch as _ _ Hcap _. split; [|split].
        - assert (Hin : In w (w :: ws)) by now left.
          rewrite Hcompare in Hin. unfold segment_by_income in Hin.
          apply in_map_iff in Hin. destruct Hin as [r [_ Hr]].
          apply filter_In in Hr. destruct Hr as [Hr Hna]. exists r.
          split; [assumption|]. intros Hnan. rewrite Hnan in Hna. discriminate.
        - rewrite <- Hzero, <- Hunknown, <- Hcap.
          destruct (unknown_income_count working_df); split; try reflexivity;
            discriminate.
        - intros n Hn. rewrite <- Hcap in Hn.
          destruct (unknown_income_count working_df); [discriminate|].
          now injection Hn as <-. }
      split; [|exact Hunknown].
      rewrite Hcompare, Hunknown, segment_by_income_length.
      rewrite (filter_partition_length (fun r => negb (isna (per_capita_income r))) df)
        at 1.
      f_equal. f_equal. apply filter_ext. intros r. now rewrite negb_involutive.
Qed.

End Segments.

(** ** The charts of the crime tab *)

Section Charts.
Context {num : Type}.

Lemma filter_all {X} (p : X -> bool) (l : list X) :
  (forall x, In x l -> p x = true) -> filter p l = l.
Proof.
  induction l as [|x l IH]; intros Hall; [reflexivity|]. simpl.
  rewrite (Hall x (or_introl eq_refl)). f_equal. apply IH.
  intros y Hy. apply Hall. now right.
Qed.

(** The sizes of the groups of [groupby] add up to the number of rows,
    and no group is empty. *)
Lemma groupby_sizes {X K} (eq_dec : forall x y : K, {x = y} + {x <> y})
    (leb : K -> K -> bool) (key : X -> K) (df : list X) :
  list_sum (map (fun g => List.length (snd g)) (groupby eq_dec leb key df))
  = List.length df /\
  Forall (fun g => 0 < List.length (snd g)) (groupby eq_dec leb key df) /\
  NoDup (map fst (groupby eq_dec leb key df)).
Proof.
  unfold groupby. rewrite !map_map. simpl.
  assert (Hnd : NoDup (sort_by leb (distinct eq_dec (map key df)))).
  { apply (Permutation_NoDup (Permutation_sym (sort_by_perm _ _))), distinct_NoDup. }
  split; [|split].
  - rewrite <- (filter_all (fun _ => true) (sort_by leb (distinct eq_dec (map key df))))
      by reflexivity.
    rewrite (group_sizes_sum eq_dec key (fun _ => true)).
    + now rewrite filter_all by reflexivity.
    + exact Hnd.
    + intros a Ha. apply sort_by_In, distinct_In. now apply in_map.
  - apply Forall_map. apply Forall_forall. intros k Hk. simpl.
    apply sort_by_In in Hk. apply (proj1 (distinct_In _ _ _)) in Hk.
    apply in_map_iff in Hk. destruct Hk as [a [Hka Ha]].
    assert (Hin : In a (filter (fun a => if eq_dec (key a) k then true else false) df)).
    { apply filter_In. split; [assumption|]. now destruct (eq_dec (key a) k). }
    destruct (filter _ df); [destruct Hin | simpl; lia].
  - rewrite map_id. exact Hnd.
Qed.

(** X9. The bar chart and the donut chart agree before the top-N cut:
    the counts of [grouped] add up to the number of rows compared, so do
    the counts of [segment_share], and the count of each segment in the
    donut is the sum of the counts of that segment over all crime
    types; no count is zero. *)
Theorem charts_agree :
  forall compare_df : list (segmented num),
    list_sum (map crime_count (grouped compare_df)) = List.length compare_df /\
    list_sum (map snd (segment_share compare_df)) = List.length compare_df /\
    Forall (fun g => 0 < crime_count g) (grouped compare_df) /\
    Forall (fun e =>
              0 < snd e /\
              snd e
              = list_sum
                  (map crime_count
                       (filter (fun g => String.eqb (g_income_segment g) (fst e))
                               (grouped compare_df))))
           (segment_share compare_df).
Proof.
  intros df.
  destruct (groupby_sizes pair_eq_dec pair_leb
              (fun w : segmented num => (income_segment w, primary_type (record w))) df)
    as [Hg1 [Hg2 Hg3]].
  destruct (groupby_sizes string_dec String.leb (@income_segment num) df)
    as [Hs1 [Hs2 Hs3]].
  split; [|split; [|split]].
  - unfold grouped. rewrite map_map. exact Hg1.
  - unfold segment_share. rewrite map_map. exact Hs1.
  - unfold grouped. apply Forall_map. exact Hg2.
  - unfold segment_share. apply Forall_map.
    rewrite Forall_forall in Hs2 |- *. intros g Hg. simpl.
    split; [now apply Hs2|].
    unfold groupby in Hg. apply in_map_iff in Hg. destruct Hg as [s [<- Hs]]. simpl.
    unfold grouped, groupby. rewrite map_map, filter_map_comm, map_map. simpl.
    rewrite (group_sizes_sum pair_eq_dec
               (fun w : segmented num => (income_segment w, primary_type (record w)))
               (fun k => String.eqb (fst k) s)).
    + f_equal. apply filter_ext. intros w. simpl.
      destruct (string_dec (income_segment w) s) as [->|Hne].
      * now rewrite String.eqb_refl.
      * symmetry. now apply String.eqb_neq.
    + apply (Permutation_NoDup (Permutation_sym (sort_by_perm _ _))), distinct_NoDup.
    + intros w Hw. apply sort_by_In, distinct_In.
      now apply (in_map (fun w => (income_segment w, primary_type (record w)))).
Qed.

(** The selection of the ranking, for the cut of the bar chart. *)
Lemma top_crimes_selection (sort_values : series_sorter)
    (df : list (segmented num)) (n : nat) :
  sorts_descending sort_values ->
  NoDup (top_crimes sort_values df n) /\
  (forall t, In t (top_crimes sort_values df n) ->
             In t (map (fun w => primary_type (record w)) df)) /\
  List.length (top_crimes sort_values df n)
  = Nat.min n (List.length (distinct string_dec
                              (map (fun w => primary_type (record w)) df))).
Proof.
  intros Hsort. unfold top_crimes.
  destruct (Hsort (crime_count_sum (grouped df))) as [Hperm _].
  set (sorted := sort_values (crime_count_sum (grouped df))) in *.
  assert (Htypes : Permutation (map fst sorted)
                     (distinct string_dec (map (fun w => primary_type (record w)) df))).
  { rewrite <- (series_types df). now apply Permutation_map. }
  pose proof (firstn_skipn n sorted) as Hsplit.
  split; [|split].
  - assert (Hnd : NoDup (map fst sorted)).
    { apply (Permutation_NoDup (Permutation_sym Htypes)), distinct_NoDup. }
    rewrite <- Hsplit, map_app in Hnd. now apply NoDup_app_remove_r in Hnd.
  - intros t Ht. apply in_map_iff in Ht. destruct Ht as [e [<- He]].
    apply (proj1 (distinct_In string_dec _ _)).
    apply (Permutation_in _ Htypes). apply in_map.
    rewrite <- Hsplit. apply in_or_app. now left.
  - rewrite length_map, length_firstn. f_equal.
    rewrite <- (Permutation_length Htypes). now rewrite length_map.
Qed.

Lemma list_sum_filter_or {X} (f : X -> nat) (p q : X -> bool) (l : list X) :
  (forall x, In x l -> p x = true -> q x = false) ->
  list_sum (map f (filter (fun x => p x || q x) l))
  = list_sum (map f (filter p l)) + list_sum (map f (filter q l)).
Proof.
  induction l as [|x l IH]; intros Hdis; [reflexivity|]. simpl.
  assert (IH' := IH (fun y Hy => Hdis y (or_intror Hy))).
  destruct (p x) eqn:Hp; simpl.
  - rewrite (Hdis x (or_introl eq_refl) Hp). simpl. rewrite IH'. lia.
  - destruct (q x); simpl; rewrite IH'; lia.
Qed.

(** The counts of the rows whose type is in a duplicate-free selection
    add up to the frequencies of the selected types. *)
Lemma selected_counts (df : list (segmented num)) (ts : list string) :
  NoDup ts ->
  list_sum (map crime_count
                (filter (fun g => isin (g_primary_type g) ts) (grouped df)))
  = list_sum (map (frequency df) ts).
Proof.
  induction ts as [|t ts IH]; intros Hnd.
  - simpl. induction (grouped df); simpl; auto.
  - inversion Hnd as [|? ? Ht Hnd']; subst. simpl map. simpl list_sum.
    rewrite <- (IH Hnd'), <- (grouped_sum df t).
    rewrite <- (list_sum_filter_or crime_count
                  (fun g => if string_dec (g_primary_type g) t then true else false)
                  (fun g => isin (g_primary_type g) ts)).
    + f_equal. f_equal. apply filter_ext. intros g. unfold isin. simpl.
      destruct (string_dec (g_primary_type g) t) as [->|Hne].
      * now rewrite String.eqb_refl.
      * apply String.eqb_neq in Hne. now rewrite Hne.
    + intros g _ Hg. destruct (string_dec (g_primary_type g) t) as [Heq|]; [|discriminate].
      destruct (isin (g_primary_type g) ts) eqn:Hin; [|reflexivity].
      exfalso. apply Ht. rewrite <- Heq. now apply isin_In.
Qed.

(** X10. The bar chart after the top-N cut: it keeps exactly the rows of
    [grouped] whose crime type is ranked, its counts add up to the
    frequencies of the ranked types, and when the records have at most
    [top_n] distinct crime types nothing is cut. *)
Theorem grouped_top_cut :
  forall sort_values : series_sorter,
    sorts_descending sort_values ->
    forall (compare_df : list (segmented num)) (top_n : nat),
      (forall g, In g (grouped_top sort_values compare_df top_n) <->
                 In g (grouped compare_df) /\
                 In (g_primary_type g) (top_crimes sort_values compare_df top_n)) /\
      list_sum (map crime_count (grouped_top sort_values compare_df top_n))
      = list_sum (map (frequency compare_df)
                      (top_crimes sort_values compare_df top_n)) /\
      list_sum (map crime_count (grouped_top sort_values compare_df top_n))
      <= List.length compare_df /\
      (List.length (distinct string_dec
                      (map (fun w => primary_type (record w)) compare_df)) <= top_n ->
       grouped_top sort_values compare_df top_n = grouped compare_df).
Proof.
  intros sort_values Hsort df n.
  destruct (top_crimes_selection df n Hsort) as [Hnd [Hincl Hlen]].
  assert (Hsum : list_sum (map crime_count (grouped_top sort_values df n))
                 = list_sum (map (frequency df) (top_crimes sort_values df n))).
  { unfold grouped_top. now apply selected_counts. }
  split; [|split; [exact Hsum|split]].
  - intros g. unfold grouped_top. rewrite filter_In, isin_In. tauto.
  - unfold grouped_top.
    destruct (groupby_sizes pair_eq_dec pair_leb
                (fun w : segmented num => (income_segment w, primary_type (record w))) df)
      as [Hg1 _].
    assert (Htotal : list_sum (map crime_count (grouped df)) = List.length df).
    { unfold grouped. rewrite map_map. exact Hg1. }
    rewrite <- Htotal. clear. induction (grouped df) as [|g l IH]; [simpl; lia|].
    simpl. destruct (isin _ _); simpl; lia.
  - intros Hfew. unfold grouped_top. apply filter_all. intros g Hg.
    apply isin_In.
    assert (Hall : incl (distinct string_dec
                           (map (fun w => primary_type (record w)) df))
                        (top_crimes sort_values df n)).
    { apply NoDup_length_incl; [exact Hnd | rewrite Hlen; lia|].
      intros t Ht. apply distinct_In. now apply Hincl. }
    apply Hall. apply distinct_In. apply grouped_types.
    now apply in_map.
Qed.

End Charts.

(** The cut of the bar chart on two crime types with [top_n = 1]. *)
Lemma grouped_top_cut_witness :
  sorts_descending sort_values_stable /\
  list_sum (map crime_count (grouped_top sort_values_stable theft_then_assault 1))
  = list_sum (map (frequency theft_then_assault)
                  (top_crimes sort_values_stable theft_then_assault 1)) /\
  map g_primary_type (grouped_top sort_values_stable theft_then_assault 1)
  = ["ASSAULT"].
Proof.
  split; [exact sort_values_stable_sorts|]. split.
  - exact (proj1 (proj2 (grouped_top_cut sort_values_stable_sorts
                                         theft_then_assault 1))).
  - reflexivity.
Defined.

(** ** The hotspot table *)

Section Hotspots.
Context {num : Type}.





End Hotspots.

(** ** The socioeconomic tab *)

Section SortingOn.
Context {X : Type}.
Variable leb : X -> X -> bool.
Variable P : X -> Prop.
Hypothesis leb_total_on : forall a b, P a -> P b -> leb a b = true \/ leb b a = true.

Lemma insert_sorted_Forall x l : P x -> Forall P l -> Forall P (insert_sorted leb x l).
Proof.
  intros Px Pl. apply Forall_forall. intros y Hy.
  apply (Permutation_in _ (insert_sorted_perm leb x l)) in Hy.
  destruct Hy as [<-|Hy]; [assumption|]. rewrite Forall_forall in Pl. now apply Pl.
Qed.

Lemma insert_sorted_Sorted_on x l :
  P x -> Forall P l ->
  Sorted (fun a b => leb a b = true) l ->
  Sorted (fun a b => leb a b = true) (insert_sorted leb x l).
Proof.
  intros Px. induction l as [|y l IH]; simpl; intros Pl Hs.
  - repeat constructor.
  - inversion Pl as [|? ? Py Pl']; subst. destruct (leb x y) eqn:Hxy.
    + constructor; [assumption|]. now constructor.
    + inversion Hs as [|? ? Hs' Hhd]; subst. constructor; [now apply IH|].
      destruct l as [|z l]; simpl.
      * constructor. destruct (leb_total_on Px Py); congruence.
      * destruct (leb x z).
        -- constructor. destruct (leb_total_on Px Py); congruence.
        -- inversion Hhd; subst. now constructor.
Qed.

(** Sorting a list on whose elements the order is total. *)
Lemma sort_by_Sorted_on l :
  Forall P l -> Sorted (fun a b => leb a b = true) (sort_by leb l).
Proof.
  induction l as [|x l IH]; simpl; intros Pl; [constructor|].
  inversion Pl as [|? ? Px Pl']; subst.
  apply insert_sorted_Sorted_on; [assumption| |now apply IH].
  apply Forall_forall. intros y Hy. apply sort_by_In in Hy.
  rewrite Forall_forall in Pl'. now apply Pl'.
Qed.

End SortingOn.

Section SocioTab.
Context {num : Type} `{SqliteValue num}.

Lemma sort_details_stable_sorts : sorts_details sort_details_stable.
Proof.
  intros s. unfold sort_details_stable. split; [apply sort_by_perm|].
  intros Hs.
  apply (@sort_by_Sorted_on _
           (fun a b => float64_leb (d_hardship_index b) (d_hardship_index a))
           (fun r => isna (d_hardship_index r) = false)); [|exact Hs].
  intros a b Pa Pb.
  destruct (float64_leb_total (d_hardship_index a) (d_hardship_index b) Pa Pb); auto.
Qed.

Lemma valid_rows_spec (socio_df : list socio_row) r :
  In r (valid_rows socio_df) <->
  In r socio_df /\ agg_hardship_index r <> NaN /\ agg_poverty_rate r <> NaN /\
  agg_avg_safety_score r <> NaN.
Proof.
  unfold valid_rows. rewrite filter_In, !andb_true_iff, !negb_true_iff.
  assert (Hna : forall x, isna x = false <-> x <> NaN).
  { intros x. destruct x; simpl; split; congruence. }
  rewrite !Hna. tauto.
Qed.

(** X12. The socioeconomic tab shows its warning exactly when every
    community lacks its hardship index, its poverty rate or its average
    safety score.  Otherwise it charts exactly the communities that
    have the three values, and, with any sort that meets the contract of
    [sort_values], its detail table lists these communities, each once,
    in descending order of hardship. *)
Theorem socio_tab_shows :
  forall sort_values : detail_sorter,
    sorts_details sort_values ->
    forall socio_df : list socio_row,
      (render_socioeducation_tab sort_values socio_df = no_socio_data <->
       Forall (fun r => agg_hardship_index r = NaN \/ agg_poverty_rate r = NaN \/
                        agg_avg_safety_score r = NaN) socio_df) /\
      (forall valid_df detail,
          render_socioeducation_tab sort_values socio_df = socio_charts valid_df detail ->
          valid_df = valid_rows socio_df /\
          (forall r, In r valid_df <->
                     In r socio_df /\ agg_hardship_index r <> NaN /\
                     agg_poverty_rate r <> NaN /\ agg_avg_safety_score r <> NaN) /\
          Permutation detail (map summary valid_df) /\
          Sorted hardship_ge detail).
Proof.
  intros sort_values Hsort socio_df. unfold render_socioeducation_tab. split.
  - assert (Hnil : valid_rows socio_df = [] <->
                   Forall (fun r => agg_hardship_index r = NaN \/
                                    agg_poverty_rate r = NaN \/
                                    agg_avg_safety_score r = NaN) socio_df).
    { split.
      - intros Hnil. apply Forall_forall. intros r Hr.
        destruct (agg_hardship_index r) eqn:Hh; auto;
          destruct (agg_poverty_rate r) eqn:Hp; auto;
          destruct (agg_avg_safety_score r) eqn:Ha; auto;
          exfalso;
          (assert (Hin : In r (valid_rows socio_df));
           [apply valid_rows_spec; rewrite Hh, Hp, Ha;
            repeat split; [assumption | discriminate ..]
           | rewrite Hnil in Hin; destruct Hin]).
      - intros Hall. destruct (valid_rows socio_df) as [|r rs] eqn:Hv; [reflexivity|].
        assert (Hin : In r (valid_rows socio_df)) by (rewrite Hv; now left).
        apply valid_rows_spec in Hin. destruct Hin as [Hin [Hh [Hp Ha]]].
        rewrite Forall_forall in Hall. destruct (Hall r Hin) as [?|[?|?]]; contradiction. }
    rewrite <- Hnil. destruct (valid_rows socio_df); split; congruence.
  - intros valid_df detail.
    destruct (valid_rows socio_df) as [|r rs] eqn:Hv; [discriminate|].
    intros Heq. rewrite <- Hv in Heq. injection Heq as <- <-. rewrite <- Hv.
    split; [reflexivity|]. split; [apply valid_rows_spec|].
    destruct (Hsort (map summary (valid_rows socio_df))) as [Hperm Hsorted].
    split; [exact Hperm|]. apply Hsorted. apply Forall_map. apply Forall_forall.
    intros r' Hr'. apply valid_rows_spec in Hr'. destruct Hr' as [_ [Hh _]].
    simpl. destruct (agg_hardship_index r'); try reflexivity. congruence.
Qed.

Lemma non_null_In {X} (col : list (option X)) x :
  In x (non_null col) <-> In (Some x) col.
Proof.
  induction col as [|[y|] col IH]; simpl; [tauto| |].
  - rewrite IH. split; intros [Heq|Hin]; auto; left; congruence.
  - rewrite IH. split; [auto|]. intros [Heq|Hin]; [discriminate | assumption].
Qed.

(** X13. A community is charted in the socioeconomic tab only if some
    school of the schools table lies in it and has a safety score; when
    every school row has a School_ID, its school_count is then at least
    one: communities without schools are never charted. *)
Theorem charted_communities_have_schools :
  forall (census : list (census_row num)) (schools : list (school_row num)),
    Forall (fun r =>
              (exists s, In s schools /\
                         CAST_AS_INTEGER (s_COMMUNITY_AREA_NUMBER s)
                           = agg_community_area_number r /\
                         s_SAFETY_SCORE s <> None) /\
              ((forall s, In s schools -> s_School_ID s <> None) ->
               0 < agg_school_count r))
           (valid_rows (community_aggregate census schools)).
Proof.
  intros census schools. apply Forall_forall. intros r Hr.
  apply valid_rows_spec in Hr. destruct Hr as [Hr [_ [_ Havg]]].
  destruct (community_aggregate_group _ _ _ Hr) as [g [Hg [Hrg Hid]]].
  destruct (socio_select_aggregates g) as [Hag Hcount].
  rewrite <- Hrg in Hag, Hcount.
  destruct (non_null (map joined_SAFETY_SCORE (snd g))) as [|v vs] eqn:Hscores;
    [congruence|].
  assert (Hv : In (Some v) (map joined_SAFETY_SCORE (snd g))).
  { apply non_null_In. rewrite Hscores. now left. }
  apply in_map_iff in Hv. destruct Hv as [j [Hjv Hj]].
  unfold joined_SAFETY_SCORE in Hjv. destruct (snd j) as [s|] eqn:Hs; [|discriminate].
  destruct (socio_groups_school _ _ _ _ Hg Hj Hs) as [Hschool Hcast].
  split.
  - exists s. split; [assumption|]. split; [now rewrite Hid | congruence].
  - intros Hids. rewrite Hcount.
    destruct (s_School_ID s) as [i|] eqn:Hi; [|exfalso; now apply (Hids s Hschool)].
    assert (Hin : In i (non_null (map joined_School_ID (snd g)))).
    { apply non_null_In. apply in_map_iff. exists j. split; [|assumption].
      unfold joined_School_ID. now rewrite Hs. }
    destruct (non_null (map joined_School_ID (snd g))); [destruct Hin | simpl; lia].
Qed.

End SocioTab.

(** The socioeconomic tab on two communities, one without school. *)
Lemma socio_tab_shows_witness :
  sorts_details sort_details_stable /\
  (forall valid_df detail,
      render_socioeducation_tab
        sort_details_stable
        (community_aggregate [oak_park; lake_view]
                             [school_of (Some 10%Z) 1 (Some 50%Z)])
      = socio_charts valid_df detail ->
      Permutation detail (map summary valid_df)) /\
  map agg_community_area_name
      (valid_rows (community_aggregate [oak_park; lake_view]
                                       [school_of (Some 10%Z) 1 (Some 50%Z)]))
  = [Some "Oak Park"].
Proof.
  split; [exact sort_details_stable_sorts|]. split; [|reflexivity].
  intros valid_df detail Heq.
  exact (proj1 (proj2 (proj2 (proj2 (socio_tab_shows sort_details_stable_sorts _)
                                      valid_df detail Heq)))).
Defined.


(** ** The page *)

Section Page.
Context {num : Type} `{SqliteValue num}.
Variables (sort_details : detail_sorter) (sort_series : series_sorter).
Variable sort_hotspots : hotspot_sorter.
Variables selected_communities selected_crime_types : list string.
Variables (income_threshold : Z) (top_n : nat).

Lemma community_aggregate_nil (census : list (census_row num)) schools :
  community_aggregate census schools = [] <-> filter socio_where census = [].
Proof.
  pose proof (Permutation_length (socio_statement_keys census schools)) as Hlen.
  rewrite length_map in Hlen. unfold community_aggregate. split; intros Hnil.
  - apply map_eq_nil in Hnil. rewrite Hnil in Hlen.
    destruct (filter socio_where census); [reflexivity | discriminate].
  - rewrite Hnil in Hlen.
    destruct (socio_statement census schools); [reflexivity | discriminate].
Qed.

Lemma enriched_crime_nil crime (census : list (census_row num)) :
  enriched_crime crime census = [] <->
  filter (fun cr => IS_NOT_NULL (cr_COMMUNITY_AREA_NUMBER cr)) crime = [].
Proof.
  induction crime as [|cr crime IH]; [split; reflexivity|].
  rewrite enriched_crime_cons, enriched_crime_one.
  cbn [filter]. destruct (IS_NOT_NULL (cr_COMMUNITY_AREA_NUMBER cr)).
  - split; [|discriminate]. intros Happ. apply app_eq_nil in Happ.
    destruct Happ as [Hm _]. apply map_eq_nil in Hm.
    now apply LEFT_JOIN_one_nonempty in Hm.
  - exact IH.
Qed.

Lemma loaders_on_present_tables db (census : list (census_row num)) schools crime :
  CENSUS_DATA db = Some census ->
  CHICAGO_PUBLIC_SCHOOLS db = Some schools ->
  CHICAGO_CRIME_DATA db = Some crime ->
  load_socioeducation_dataset db = inr (Frame (community_aggregate census schools)) /\
  load_crime_dataset db = inr (Frame (enriched_crime crime census)).
Proof.
  intros Hc Hs Hcr.
  unfold load_socioeducation_dataset, load_crime_dataset, run_query,
    socio_query, crime_query.
  rewrite Hc, Hs, Hcr. split; reflexivity.
Qed.

(** [main] after its loaders, on present tables. *)
Lemma main_on_present_tables db (census : list (census_row num)) schools crime :
  CENSUS_DATA db = Some census ->
  CHICAGO_PUBLIC_SCHOOLS db = Some schools ->
  CHICAGO_CRIME_DATA db = Some crime ->
  let socio_df := community_aggregate census schools in
  let crime_df := enriched_crime crime census in
  let filtered :=
    apply_filters socio_df crime_df selected_communities selected_crime_types in
  main sort_details sort_series sort_hotspots (Some db)
       selected_communities selected_crime_types income_threshold top_n
  = match socio_df, crime_df with
    | [], _ | _, [] => inr datasets_empty
    | _ :: _, _ :: _ =>
        match income_bounds crime_df with
        | None => inl int_error
        | Some bounds =>
            match st_sidebar_slider
                    (fst (fst bounds)) (snd (fst bounds)) (snd bounds)
                    (income_step (fst (fst bounds)) (snd (fst bounds))) with
            | None => inl slider_error
            | Some _ =>
                inr (dashboard
                       (low_income_share (snd filtered) income_threshold)
                       (render_socioeducation_tab sort_details (fst filtered))
                       (render_crime_hotspots_tab sort_series sort_hotspots
                          (snd filtered) income_threshold top_n))
            end
        end
    end.
Proof.
  intros Hc Hs Hcr. cbv zeta.
  destruct (loaders_on_present_tables db Hc Hs Hcr) as [Hsocio Hcrime].
  unfold main. rewrite Hsocio, Hcrime. cbn [empty rows_of].
  destruct (community_aggregate census schools) as [|r rs]; [reflexivity|].
  destruct (enriched_crime crime census) as [|c cs]; [reflexivity|].
  cbn [orb]. destruct (income_bounds (c :: cs)) as [[[lo hi] d]|]; [|reflexivity].
  cbn [fst snd]. destruct (st_sidebar_slider lo hi d (income_step lo hi));
    [|reflexivity].
  destruct (apply_filters (r :: rs) (c :: cs) selected_communities
                          selected_crime_types). reflexivity.
Qed.

(** On present tables [main] lets no loader exception escape. *)
Lemma main_no_loader_error db (census : list (census_row num)) schools crime e :
  CENSUS_DATA db = Some census ->
  CHICAGO_PUBLIC_SCHOOLS db = Some schools ->
  CHICAGO_CRIME_DATA db = Some crime ->
  main sort_details sort_series sort_hotspots (Some db)
       selected_communities selected_crime_types income_threshold top_n
  <> inl (loader_error e).
Proof.
  intros Hc Hs Hcr. rewrite (main_on_present_tables db Hc Hs Hcr). cbv zeta.
  destruct (community_aggregate census schools); [discriminate|].
  destruct (enriched_crime crime census) as [|c cs]; [discriminate|].
  destruct (income_bounds (c :: cs)) as [bounds|]; [|discriminate].
  destruct (st_sidebar_slider _ _ _ _); discriminate.
Qed.

(** X14. Without the database file the page stops at the
    database-not-found message.  With the file, a loader lets an
    exception escape from [main] exactly when one of the three tables is
    missing, and the exception is then a KeyError: the guard of
    [run_query] turns the failed query into a frame without columns, and
    the guard for empty datasets is never reached. *)
Theorem main_missing_table :
  main sort_details sort_series sort_hotspots (@None (database num))
       selected_communities selected_crime_types income_threshold top_n
  = inr database_not_found /\
  forall db : database num,
    ((exists e, main sort_details sort_series sort_hotspots (Some db)
                     selected_communities selected_crime_types income_threshold top_n
                = inl (loader_error e)) <->
     (CENSUS_DATA db = None \/ CHICAGO_PUBLIC_SCHOOLS db = None \/
      CHICAGO_CRIME_DATA db = None)) /\
    (forall e, main sort_details sort_series sort_hotspots (Some db)
                    selected_communities selected_crime_types income_threshold top_n
               = inl (loader_error e) ->
               exc_class e = KeyError).
Proof.
  split; [reflexivity|]. intros db.
  assert (Hkey : forall e0,
             e0 = {| exc_class := KeyError; exc_msg := "community_area_number" |} ->
             main sort_details sort_series sort_hotspots (Some db)
                  selected_communities selected_crime_types income_threshold top_n
             = inl (loader_error e0) ->
             ((exists e, main sort_details sort_series sort_hotspots (Some db)
                              selected_communities selected_crime_types
                              income_threshold top_n
                         = inl (loader_error e)) <-> True) /\
             (forall e, main sort_details sort_series sort_hotspots (Some db)
                             selected_communities selected_crime_types
                             income_threshold top_n
                        = inl (loader_error e) ->
                        exc_class e = KeyError)).
  { intros e0 -> Hmain. rewrite Hmain. split.
    - split; [auto | intros _; eexists; reflexivity].
    - intros e He. injection He as <-. reflexivity. }
  destruct (CENSUS_DATA db) as [census|] eqn:Hc.
  - destruct (CHICAGO_PUBLIC_SCHOOLS db) as [schools|] eqn:Hs.
    + destruct (CHICAGO_CRIME_DATA db) as [crime|] eqn:Hcr.
      * split.
        -- split.
           ++ intros [e He]. now apply (@main_no_loader_error db census schools crime e Hc Hs Hcr) in He.
           ++ intros [Hn|[Hn|Hn]]; discriminate.
        -- intros e He. now apply (@main_no_loader_error db census schools crime e Hc Hs Hcr) in He.
      * destruct (Hkey _ eq_refl) as [Hiff Hclass].
        { unfold main, load_socioeducation_dataset, load_crime_dataset, run_query,
            socio_query, crime_query. rewrite Hc, Hs, Hcr. reflexivity. }
        split; [|exact Hclass]. rewrite Hiff. split; auto.
    + destruct (Hkey _ eq_refl) as [Hiff Hclass].
      { unfold main, load_socioeducation_dataset, run_query, socio_query.
        rewrite Hc, Hs. reflexivity. }
      split; [|exact Hclass]. rewrite Hiff. split; auto.
  - destruct (Hkey _ eq_refl) as [Hiff Hclass].
    { unfold main, load_socioeducation_dataset, run_query, socio_query.
      rewrite Hc. reflexivity. }
    split; [|exact Hclass]. rewrite Hiff. split; auto.
Qed.

(** X15. With the three tables present, [main] stops at the
    empty-datasets message exactly when no census row has an identifier
    and a non-blank name or no crime has a community identifier.  The
    sidebar raises (an [int(...)] or the income slider) exactly when
    both datasets have rows and the income joined to some crime is
    infinite or truncates to an integer beyond the safe integers, from
    [-(2^53 - 1)] to [2^53 - 1], or all known incomes truncate to
    [2^53 - 1].  A page that is drawn shows the KPI and the two tabs
    computed from the filtered community aggregate and the filtered
    enriched crimes. *)
Theorem main_on_tables :
  forall (db : database num) census schools crime,
    CENSUS_DATA db = Some census ->
    CHICAGO_PUBLIC_SCHOOLS db = Some schools ->
    CHICAGO_CRIME_DATA db = Some crime ->
    let result :=
      main sort_details sort_series sort_hotspots (Some db)
           selected_communities selected_crime_types income_threshold top_n in
    let socio_df := community_aggregate census schools in
    let crime_df := enriched_crime crime census in
    let filtered :=
      apply_filters socio_df crime_df selected_communities selected_crime_types in
    (result = inr datasets_empty <->
     filter socio_where census = [] \/
     filter (fun cr => IS_NOT_NULL (cr_COMMUNITY_AREA_NUMBER cr)) crime = []) /\
    ((result = inl int_error \/ result = inl slider_error) <->
     socio_df <> [] /\
     ((exists r, In r crime_df /\ per_capita_income r <> NaN /\
                 forall z, python_int (per_capita_income r) = Some z ->
                           (z < - (2 ^ 53 - 1) \/ 2 ^ 53 - 1 < z)%Z) \/
      ((exists r, In r crime_df /\ per_capita_income r <> NaN) /\
       forall r, In r crime_df -> per_capita_income r <> NaN ->
                 python_int (per_capita_income r) = Some (2 ^ 53 - 1)%Z))) /\
    (result = inl int_error <-> socio_df <> [] /\ crime_df <> [] /\
                                income_bounds crime_df = None) /\
    (forall kpi tab1 tab2,
        result = inr (dashboard kpi tab1 tab2) ->
        kpi = low_income_share (snd filtered) income_threshold /\
        tab1 = render_socioeducation_tab sort_details (fst filtered) /\
        tab2 = render_crime_hotspots_tab sort_series sort_hotspots
                 (snd filtered) income_threshold top_n).
Proof.
  intros db census schools crime Hc Hs Hcr. cbv zeta.
  rewrite (main_on_present_tables db Hc Hs Hcr). cbv zeta.
  rewrite <- (community_aggregate_nil census schools).
  rewrite <- (enriched_crime_nil crime census).
  rewrite <- (income_slider_out_of_range (enriched_crime crime census)).
  unfold income_slider.
  destruct (community_aggregate census schools) as [|r rs].
  - split; [split; auto|]. split; [|split; [|discriminate]].
    + split; [intros [Hn|Hn]; discriminate | intros [Hne _]; now destruct Hne].
    + split; [discriminate | intros [Hne _]; now destruct Hne].
  - destruct (enriched_crime crime census) as [|c cs].
    + split; [split; auto|]. split; [|split; [|discriminate]].
      * split; [intros [Hn|Hn]; discriminate | intros [_ Hn]; discriminate Hn].
      * split; [discriminate | intros [_ [Hne _]]; now destruct Hne].
    + destruct (income_bounds (c :: cs)) as [[[lo hi] d]|].
      * cbn [fst snd]. destruct (st_sidebar_slider lo hi d (income_step lo hi)).
        -- split; [split; [discriminate | intros [Hn|Hn]; discriminate]|].
           split; [|split].
           ++ split; [intros [Hn|Hn]; discriminate | intros [_ Hn]; discriminate Hn].
           ++ split; [discriminate | intros [_ [_ Hn]]; discriminate Hn].
           ++ intros kpi tab1 tab2 Heq. injection Heq as <- <- <-. auto.
        -- split; [split; [discriminate | intros [Hn|Hn]; discriminate]|].
           split; [|split; [|discriminate]].
           ++ split; [|now right]. intros _. split; [discriminate | reflexivity].
           ++ split; [discriminate | intros [_ [_ Hn]]; discriminate Hn].
      * split; [split; [discriminate | intros [Hn|Hn]; discriminate]|].
        split; [|split; [|discriminate]].
        -- split; [|now left]. intros _. split; [discriminate | reflexivity].
        -- split; [|reflexivity]. intros _. repeat split; discriminate.
Qed.

End Page.

(** The page on the example database: both datasets have rows, all
    incomes are unknown or safe integers, and the sidebar does not
    raise. *)
Lemma main_on_tables_witness :
  CENSUS_DATA full_database = Some [oak_park; lake_view] /\
  main sort_details_stable sort_values_stable sort_hotspots_stable
       (Some full_database) [] [] 10000 10
  <> inr datasets_empty /\
  main sort_details_stable sort_values_stable sort_hotspots_stable
       (Some full_database) [] [] 10000 10
  <> inl int_error.
Proof.
  split; [reflexivity|].
  pose proof (main_on_tables sort_details_stable sort_values_stable
                sort_hotspots_stable [] [] 10000 10
                full_database eq_refl eq_refl eq_refl) as Hmain.
  cbv zeta in Hmain. destruct Hmain as [Hempty [_ [Hint _]]]. split.
  - intros Heq. apply Hempty in Heq. destruct Heq as [Heq|Heq]; discriminate Heq.
  - intros Heq. apply Hint in Heq. destruct Heq as [_ [_ Hnone]].
    discriminate Hnone.
Defined.

(** ** Problems 8 and 9 of the report *)

Section MostCrimes.
Context {num : Type} `{SqliteValue num}.

(** The size of a group is the number of crimes with its identifier. *)
Lemma crimes_by_community_size (crime : list (crime_row num)) g :
  In g (crimes_by_community crime) ->
  fst g <> None /\
  List.length (snd g)
  = List.length (filter (fun cr => num_sql_eqb (cr_COMMUNITY_AREA_NUMBER cr) (fst g))
                        crime).
Proof.
  intros Hg. unfold crimes_by_community in Hg.
  destruct (GROUP_BY_group _ _ _ _ Hg) as [Hrows [[cr Hcr] Hkeys]].
  destruct (Hkeys cr Hcr) as [Hin Hkey]. apply filter_In in Hin.
  destruct Hin as [_ Hnn].
  assert (Hsome : fst g <> None).
  { rewrite <- Hkey. now destruct (cr_COMMUNITY_AREA_NUMBER cr). }
  split; [exact Hsome|]. rewrite Hrows, filter_filter_and. f_equal.
  apply filter_ext. intros a. unfold num_sql_eqb.
  destruct (fst g) as [v|]; [|congruence].
  destruct (cr_COMMUNITY_AREA_NUMBER a) as [w|]; simpl.
  - destruct (option_eq_dec num_eq_dec (Some w) (Some v)) as [Heq|Hne];
      destruct (num_eq_dec w v) as [Heq'|Hne']; try reflexivity; congruence.
  - reflexivity.
Qed.

(** Every identifier of a crime has its group. *)
Lemma crimes_by_community_complete (crime : list (crime_row num)) cr v :
  In cr crime -> cr_COMMUNITY_AREA_NUMBER cr = Some v ->
  exists g, In g (crimes_by_community crime) /\ fst g = Some v.
Proof.
  intros Hcr Hv.
  assert (Hin : In (Some v) (map fst (crimes_by_community crime))).
  { unfold crimes_by_community. rewrite GROUP_BY_keys. apply distinct_In.
    apply in_map_iff. exists cr. split; [assumption|]. apply filter_In.
    split; [assumption|]. now rewrite Hv. }
  apply in_map_iff in Hin. destruct Hin as [g [Hfst Hg]]. now exists g.
Qed.

(** X16. Problem 8 returns no row exactly when no crime has a community
    identifier.  Otherwise it returns one row: an identifier together
    with the number of crimes that carry it, and no identifier is
    carried by more crimes. *)
Theorem most_crime_prone_community :
  forall crime : list (crime_row num),
    (query8_statement crime = [] <->
     Forall (fun cr => cr_COMMUNITY_AREA_NUMBER cr = None) crime) /\
    (forall number crime_count,
        In (number, crime_count) (query8_statement crime) ->
        query8_statement crime = [(number, crime_count)] /\
        number <> None /\
        crime_count
        = List.length
            (filter (fun cr => num_sql_eqb (cr_COMMUNITY_AREA_NUMBER cr) number) crime) /\
        forall other,
          List.length
            (filter (fun cr => num_sql_eqb (cr_COMMUNITY_AREA_NUMBER cr) other) crime)
          <= crime_count).
Proof.
  intros crime. unfold query8_statement, LIMIT.
  set (counts := map (fun g : option num * list (crime_row num) =>
                        (fst g, List.length (snd g)))
                     (crimes_by_community crime)).
  set (leb := fun a b : option num * nat => Nat.leb (snd b) (snd a)).
  assert (Htotal : forall a b, leb a b = true \/ leb b a = true).
  { intros a b. unfold leb. rewrite !Nat.leb_le. lia. }
  pose proof (sort_by_Sorted leb Htotal counts) as Hsorted.
  apply Sorted_StronglySorted in Hsorted;
    [|intros a b c; unfold leb; rewrite !Nat.leb_le; lia].
  pose proof (sort_by_perm leb counts) as Hperm.
  split.
  - split.
    + intros Hnil. apply Forall_forall. intros cr Hcr.
      destruct (cr_COMMUNITY_AREA_NUMBER cr) as [v|] eqn:Hv; [exfalso | reflexivity].
      destruct (crimes_by_community_complete crime cr Hcr Hv) as [g [Hg _]].
      assert (Hin : In (fst g, List.length (snd g)) (sort_by leb counts)).
      { apply (Permutation_in _ (Permutation_sym Hperm)).
        unfold counts. apply in_map_iff. now exists g. }
      revert Hnil Hin. destruct (sort_by leb counts); [intros _ [] | discriminate].
    + intros Hall.
      destruct (sort_by leb counts) as [|r rs] eqn:Hs; [reflexivity | exfalso].
      assert (Hin : In r counts).
      { apply (Permutation_in _ Hperm). now left. }
      unfold counts in Hin. apply in_map_iff in Hin. destruct Hin as [g [_ Hg]].
      unfold crimes_by_community in Hg.
      destruct (GROUP_BY_group _ _ _ _ Hg) as [_ [[cr Hcr] Hkeys]].
      destruct (Hkeys cr Hcr) as [Hin _]. apply filter_In in Hin.
      destruct Hin as [Hin Hnn]. rewrite Forall_forall in Hall.
      rewrite (Hall cr Hin) in Hnn. discriminate.
  - intros number crime_count Hrow.
    destruct (sort_by leb counts) as [|r rs] eqn:Hs; [destruct Hrow|].
    simpl in Hrow. destruct Hrow as [->|[]]. split; [reflexivity|].
    assert (Hin : In (number, crime_count) counts).
    { apply (Permutation_in _ Hperm). now left. }
    unfold counts in Hin. apply in_map_iff in Hin. destruct Hin as [g [Heq Hg]].
    injection Heq as Hnumber Hcount.
    destruct (crimes_by_community_size crime g Hg) as [Hsome Hsize].
    rewrite Hnumber in Hsome, Hsize. split; [exact Hsome|].
    split; [congruence|].
    intros other.
    destruct (filter (fun cr => num_sql_eqb (cr_COMMUNITY_AREA_NUMBER cr) other) crime)
      as [|cr crs] eqn:Hother; [simpl; lia|].
    rewrite <- Hother.
    assert (Hcr : In cr (filter (fun cr => num_sql_eqb (cr_COMMUNITY_AREA_NUMBER cr) other)
                                crime)) by (rewrite Hother; now left).
    apply filter_In in Hcr. destruct Hcr as [Hcr Heqb].
    unfold num_sql_eqb in Heqb.
    destruct (cr_COMMUNITY_AREA_NUMBER cr) as [w|] eqn:Hw; [|discriminate].
    destruct other as [v|]; [|discriminate].
    destruct (num_eq_dec w v) as [->|]; [|discriminate].
    destruct (crimes_by_community_complete crime cr Hcr Hw) as [g' [Hg' Hfst']].
    destruct (crimes_by_community_size crime g' Hg') as [_ Hsize'].
    rewrite Hfst' in Hsize'. rewrite <- Hsize'.
    assert (Hin' : In (fst g', List.length (snd g')) ((number, crime_count) :: rs)).
    { apply (Permutation_in _ (Permutation_sym Hperm)).
      unfold counts. apply in_map_iff. now exists g'. }
    destruct Hin' as [Heq'|Hin'].
    + injection Heq' as _ <-. lia.
    + inversion Hsorted as [|? ? _ Hall]; subst. rewrite Forall_forall in Hall.
      specialize (Hall _ Hin'). unfold leb in Hall. simpl in Hall.
      now apply Nat.leb_le in Hall.
Qed.

End MostCrimes.

Section HighestHardship.
Context {num : Type} `{SqliteValue num}.
Variable sql_leb : num -> num -> bool.
Hypothesis sql_leb_total : forall a b, sql_leb a b = true \/ sql_leb b a = true.
Hypothesis sql_leb_trans :
  forall a b c, sql_leb a b = true -> sql_leb b c = true -> sql_leb a c = true.
Hypothesis sql_leb_antisym :
  forall a b, sql_leb a b = true -> sql_leb b a = true -> a = b.

(** [MAX] is NULL on a column of NULLs, and otherwise a value of the
    column that no value exceeds. *)
Lemma MAX_spec (col : list (option num)) :
  match MAX sql_leb col with
  | None => Forall (fun x => x = None) col
  | Some m => In (Some m) col /\ forall v, In (Some v) col -> sql_leb v m = true
  end.
Proof.
  unfold MAX. destruct (non_null col) as [|v vs] eqn:Hcol.
  - now apply non_null_nil.
  - destruct (@fold_least _ (fun a b => sql_leb b a) (fun _ => True)
                (fun a b _ _ => sql_leb_total b a)
                (fun a b c _ _ _ Hab Hbc => @sql_leb_trans c b a Hbc Hab)
                vs v I (proj2 (Forall_forall (fun _ => True) vs) (fun _ _ => I)))
      as [Hin [Hle Hall]].
    cbv zeta in Hin, Hle, Hall.
    set (m := fold_left (fun m x => if sql_leb m x then x else m) vs v) in *.
    split.
    + apply non_null_In. now rewrite Hcol.
    + intros w Hw. apply non_null_In in Hw. rewrite Hcol in Hw.
      destruct Hw as [<-|Hw].
      * destruct Hle as [->|Hle]; [|exact Hle].
        destruct (sql_leb_total v v); assumption.
      * rewrite Forall_forall in Hall. now apply Hall.
Qed.

(** X17. Problem 9 lists, in the order of the census table, the names of
    exactly the communities whose hardship index is known and not
    exceeded by any other: all of them when several share the highest
    index, and none exactly when no census row has a hardship index. *)
Theorem highest_hardship_communities :
  forall census : list (census_row num),
    (query9_statement sql_leb census = [] <->
     Forall (fun c => c_HARDSHIP_INDEX c = None) census) /\
    exists highest : census_row num -> bool,
      query9_statement sql_leb census
      = map (@c_COMMUNITY_AREA_NAME num) (filter highest census) /\
      forall c, In c census ->
                (highest c = true <->
                 exists h, c_HARDSHIP_INDEX c = Some h /\
                           forall c' h', In c' census ->
                                         c_HARDSHIP_INDEX c' = Some h' ->
                                         sql_leb h' h = true).
Proof.
  intros census. unfold query9_statement.
  pose proof (MAX_spec (map (@c_HARDSHIP_INDEX num) census)) as Hmax.
  destruct (MAX sql_leb (map (@c_HARDSHIP_INDEX num) census)) as [m|].
  - destruct Hmax as [Hin Hle]. apply in_map_iff in Hin.
    destruct Hin as [cm [Hcm Hcm_in]].
    assert (Hbound : forall c' h', In c' census -> c_HARDSHIP_INDEX c' = Some h' ->
                                   sql_leb h' m = true).
    { intros c' h' Hc' Hh'. apply Hle. apply in_map_iff. now exists c'. }
    split.
    + split.
      * intros Hnil. apply map_eq_nil in Hnil.
        assert (Hkept : In cm (filter (fun c => num_sql_eqb (c_HARDSHIP_INDEX c) (Some m))
                                      census)).
        { apply filter_In. split; [assumption|]. rewrite Hcm. simpl.
          now destruct (num_eq_dec m m). }
        rewrite Hnil in Hkept. destruct Hkept.
      * intros Hall. rewrite Forall_forall in Hall.
        rewrite (Hall cm Hcm_in) in Hcm. discriminate.
    + exists (fun c => num_sql_eqb (c_HARDSHIP_INDEX c) (Some m)).
      split; [reflexivity|]. intros c Hc. unfold num_sql_eqb. split.
      * destruct (c_HARDSHIP_INDEX c) as [h|]; [|discriminate].
        destruct (num_eq_dec h m) as [->|]; [|discriminate].
        intros _. exists m. split; [reflexivity | exact Hbound].
      * intros [h [Hh Hhighest]]. rewrite Hh.
        assert (h = m) as ->.
        { apply sql_leb_antisym; [now apply (Hbound c) | now apply (Hhighest cm)]. }
        now destruct (num_eq_dec m m).
  - split.
    + split.
      * intros _. rewrite Forall_forall in *. intros c Hc. apply Hmax.
        apply in_map_iff. now exists c.
      * intros _. induction census as [|c census IH]; [reflexivity|].
        simpl. destruct (c_HARDSHIP_INDEX c); simpl; apply IH;
          now inversion Hmax.
    + exists (fun c => num_sql_eqb (c_HARDSHIP_INDEX c) None).
      split; [reflexivity|]. intros c Hc. unfold num_sql_eqb. split.
      * now destruct (c_HARDSHIP_INDEX c).
      * intros [h [Hh _]]. rewrite Forall_forall in Hmax.
        assert (Hnone : c_HARDSHIP_INDEX c = None).
        { apply Hmax. apply in_map_iff. now exists c. }
        congruence.
Qed.

End HighestHardship.

(** Problem 9 on a census in which two communities share the highest
    hardship index. *)
Lemma highest_hardship_communities_witness :
  (query9_statement Z.leb census_hardship_tie = [] <->
   Forall (fun c => c_HARDSHIP_INDEX c = None) census_hardship_tie) /\
  query9_statement Z.leb census_hardship_tie = [Some "Oak Park"; Some "Riverdale"].
Proof.
  split; [|reflexivity].
  refine (proj1 (highest_hardship_communities Z.leb _ _ _ census_hardship_tie)).
  - intros a b. rewrite !Z.leb_le. lia.
  - intros a b c. rewrite !Z.leb_le. lia.
  - intros a b. rewrite !Z.leb_le. lia.
Defined.

(** ** How often a crime enters the enriched dataset *)

Section FanOut.
Context {num : Type} `{SqliteValue num}.

(** With unique census identifiers an identifier matches at most one
    census row. *)
Lemma matches_at_most_one (census : list (census_row num)) x :
  NoDup (non_null (map (fun c => CAST_AS_INTEGER (c_COMMUNITY_AREA_NUMBER c)) census)) ->
  List.length
    (filter (fun c => sql_eqb x (CAST_AS_INTEGER (c_COMMUNITY_AREA_NUMBER c))) census)
  <= 1.
Proof.
  induction census as [|c census IH]; intros Hnd; [simpl; lia|].
  cbn [map non_null filter] in *.
  destruct (CAST_AS_INTEGER (c_COMMUNITY_AREA_NUMBER c)) as [z|] eqn:Hz.
  - inversion Hnd as [|? ? Hnotin Hnd']; subst.
    destruct (sql_eqb x (Some z)) eqn:Hx; [|now apply IH].
    destruct (filter (fun c0 => sql_eqb x (CAST_AS_INTEGER (c_COMMUNITY_AREA_NUMBER c0)))
                     census) as [|c' cs] eqn:Hf; [simpl; lia|].
    exfalso. apply Hnotin.
    assert (Hc' : In c' (filter (fun c0 => sql_eqb x (CAST_AS_INTEGER
                                                       (c_COMMUNITY_AREA_NUMBER c0)))
                                census)) by (rewrite Hf; now left).
    apply filter_In in Hc'. destruct Hc' as [Hin Hon].
    apply non_null_In. apply in_map_iff. exists c'. split; [|assumption].
    unfold sql_eqb in Hx, Hon. destruct x as [a|]; [|discriminate].
    destruct (CAST_AS_INTEGER (c_COMMUNITY_AREA_NUMBER c')) as [b|]; [|discriminate].
    apply Z.eqb_eq in Hx, Hon. congruence.
  - assert (Hx : sql_eqb x None = false) by now destruct x.
    rewrite Hx. now apply IH.
Qed.

(** The records one crime gives: one per matching census row, and one
    when none matches. *)
Lemma enriched_crime_one_length cr (census : list (census_row num)) :
  IS_NOT_NULL (cr_COMMUNITY_AREA_NUMBER cr) = true ->
  List.length (enriched_crime [cr] census)
  = Nat.max 1 (List.length (filter (crime_on cr) census)) /\
  Forall (fun r => crime_id r = cr_ID cr) (enriched_crime [cr] census).
Proof.
  intros Hnn. rewrite enriched_crime_one, Hnn. unfold LEFT_JOIN.
  cbn [flat_map]. rewrite app_nil_r.
  destruct (filter (crime_on cr) census) as [|c ms].
  - split; [reflexivity | repeat constructor].
  - split.
    + rewrite !length_map. simpl. lia.
    + apply Forall_forall. intros r Hr. apply in_map_iff in Hr.
      destruct Hr as [j [<- Hj]]. apply in_map_iff in Hj.
      destruct Hj as [b [<- _]]. reflexivity.
Qed.

(** X18. When the integer identifiers of the census rows are pairwise
    different, every crime with a community identifier enters the
    enriched dataset exactly once, in the order of the crime table: the
    crime identifiers of the enriched records are those of the crimes
    that have a community identifier, and there are as many records as
    such crimes. *)
Theorem enriched_crime_fan_out :
  forall (crime : list (crime_row num)) (census : list (census_row num)),
    NoDup (non_null (map (fun c => CAST_AS_INTEGER (c_COMMUNITY_AREA_NUMBER c)) census)) ->
    map (@crime_id num) (enriched_crime crime census)
    = map (@cr_ID num)
          (filter (fun cr => IS_NOT_NULL (cr_COMMUNITY_AREA_NUMBER cr)) crime) /\
    List.length (enriched_crime crime census)
    = List.length (filter (fun cr => IS_NOT_NULL (cr_COMMUNITY_AREA_NUMBER cr)) crime).
Proof.
  intros crime census Hnd.
  assert (Hids : map (@crime_id num) (enriched_crime crime census)
                 = map (@cr_ID num)
                       (filter (fun cr => IS_NOT_NULL (cr_COMMUNITY_AREA_NUMBER cr))
                               crime)).
  { induction crime as [|cr crime IH]; [reflexivity|].
    rewrite enriched_crime_cons, map_app, IH. cbn [filter].
    destruct (IS_NOT_NULL (cr_COMMUNITY_AREA_NUMBER cr)) eqn:Hnn.
    - destruct (enriched_crime_one_length cr census Hnn) as [Hlen Hall].
      pose proof (matches_at_most_one census
                    (CAST_AS_INTEGER (cr_COMMUNITY_AREA_NUMBER cr)) Hnd) as Hone.
      change (fun c => sql_eqb (CAST_AS_INTEGER (cr_COMMUNITY_AREA_NUMBER cr))
                               (CAST_AS_INTEGER (c_COMMUNITY_AREA_NUMBER c)))
        with (crime_on cr) in Hone.
      destruct (enriched_crime [cr] census) as [|r [|r' rs]].
      + cbn [List.length] in Hlen. lia.
      + inversion Hall as [|? ? Hr _]; subst. simpl. now rewrite Hr.
      + cbn [List.length] in Hlen. lia.
    - rewrite enriched_crime_one, Hnn. reflexivity. }
  split; [exact Hids|].
  apply (f_equal (@List.length _)) in Hids. now rewrite !length_map in Hids.
Qed.

(** Without the condition a crime is repeated: the census rows of one
    identifier all join it. *)
Lemma enriched_crime_repeats (crime : list (crime_row num))
    (census : list (census_row num)) :
  List.length (filter (fun cr => IS_NOT_NULL (cr_COMMUNITY_AREA_NUMBER cr)) crime)
  <= List.length (enriched_crime crime census).
Proof.
  induction crime as [|cr crime IH]; [simpl; lia|].
  rewrite enriched_crime_cons, length_app. cbn [filter].
  destruct (IS_NOT_NULL (cr_COMMUNITY_AREA_NUMBER cr)) eqn:Hnn.
  - destruct (enriched_crime_one_length cr census Hnn) as [Hlen _]. simpl. lia.
  - lia.
Qed.

End FanOut.

(** The enriched crimes of the example tables: four crimes have an
    identifier, and the two census rows have different identifiers. *)
Lemma enriched_crime_fan_out_witness :
  NoDup (non_null (map (fun c => CAST_AS_INTEGER (c_COMMUNITY_AREA_NUMBER c))
                       [oak_park; lake_view])) /\
  List.length (enriched_crime some_crimes [oak_park; lake_view]) = 4 /\
  List.length (enriched_crime some_crimes census_same_id) = 5.
Proof.
  assert (Hnd : NoDup (non_null (map (fun c => CAST_AS_INTEGER (c_COMMUNITY_AREA_NUMBER c))
                                     [oak_park; lake_view]))).
  { repeat constructor; cbv; intuition congruence. }
  split; [exact Hnd|]. split; [|reflexivity].
  exact (proj2 (enriched_crime_fan_out some_crimes [oak_park; lake_view] Hnd)).
Defined.

(* End of the development. *)
